(** * Image statistics of DIPlib 3.0 (src/math/statistics.cpp)

    A shallow embedding of the scan line filters of the statistics
    functions ([Count], [MaximumPixel], [MinimumPixel], [CumulativeSum],
    [MaximumAndMinimum], [SampleStatistics], [Covariance], [CenterOfMass],
    [Moments]) and of the functions that drive them, with the properties
    the specification states about them (C1 to C10) and further properties
    that the code shows (X1 to X25).

    Conventions of the embedding:
    - [dip::uint] is a 64-bit unsigned integer: an [N] below [2^64], every
      arithmetic operation followed by [wrap];
    - a line buffer ([params.inBuffer[k].buffer] read with its stride,
      [params.bufferLength] samples) is the list of its samples, in the
      order in which the loops read them;
    - a [std::vector] indexed by the thread number is a list, read with
      [!!] and written with [<[_:=_]>]; an index outside the vector has
      undefined behaviour in C++, and makes the embedded function return
      [None];
    - a function that throws returns [Throws e]. *)

From Stdlib Require Import ZArith NArith Lia Floats.SpecFloat.
From stdpp Require Import base option list strings.

Set Default Proof Using "Type".

(** ** Machine integers *)

Definition uint_modulus : N := (2 ^ 64)%N.

Definition wrap (n : N) : N := (n mod uint_modulus)%N.

Definition uint_add (a b : N) : N := wrap (a + b).

Definition uint_sub (a b : N) : N := wrap (a + uint_modulus - wrap b).

Definition uint_succ (a : N) : N := uint_add a 1.

(** [dip::UnsignedArray], also the type of pixel coordinates. *)
Abbreviation UnsignedArray := (list N) (only parsing).

(** [dip::bin], the type of the samples of binary images and of masks. *)
Definition bin := bool.

(** ** Exceptions and outcomes *)

(** The error messages of namespace [dip::E] that these functions throw
    themselves, and the ones of the scan framework and of the overload
    macros that the specification names. *)
Inductive Error : Set :=
| IMAGE_NOT_FORGED
| IMAGE_NOT_SCALAR
| DIMENSIONALITY_NOT_SUPPORTED
| DATA_TYPE_NOT_SUPPORTED
| SIZES_DONT_MATCH
| MASK_ERROR.

Inductive Outcome (A : Type) : Type :=
| Returns (a : A)
| Throws (e : Error)
| Undefined.

Arguments Returns {A} a.
Arguments Throws {A} e.
Arguments Undefined {A}.

(** A call runs in a state [St] (the number of lines the scan framework has
    handed to a line filter so far and, for [CumulativeSum], the output
    image); an exception or undefined behaviour stops the call and leaves
    the state as it was at that point. *)
Definition M (St A : Type) : Type := St -> Outcome A * St.

Definition ret {St A} (a : A) : M St A := fun s => (Returns a, s).

Definition throw {St A} (e : Error) : M St A := fun s => (Throws e, s).

Definition bind {St A B} (m : M St A) (k : A -> M St B) : M St B :=
  fun s =>
    match m s with
    | (Returns a, s') => k a s'
    | (Throws e, s') => (Throws e, s')
    | (Undefined, s') => (Undefined, s')
    end.

(** [DIP_THROW_IF( test, error )] *)
Definition DIP_THROW_IF {St} (test : bool) (e : Error) : M St unit :=
  if test then throw e else ret tt.

(** The result of a member function that indexes a vector. *)
Definition defined {St A} (o : option A) : M St A :=
  match o with
  | Some a => ret a
  | None => fun s => (Undefined, s)
  end.

Declare Scope dip_scope.
Delimit Scope dip_scope with dip.
Notation "x <~ m ;; k" := (bind m (fun x => k))
  (at level 100, m at next level, right associativity) : dip_scope.
Notation "m ;;; k" := (bind m (fun _ => k))
  (at level 100, right associativity) : dip_scope.

(** ** Images, at their interface *)

(** [dip::DataType]: the closed set of sample types (section 6). *)
Inductive DataType : Set :=
| DT_BIN
| DT_UINT8 | DT_SINT8 | DT_UINT16 | DT_SINT16 | DT_UINT32 | DT_SINT32
| DT_SFLOAT | DT_DFLOAT
| DT_SCOMPLEX | DT_DCOMPLEX.

(** [Framework::ScanOption] and [Framework::SeparableOption] *)
Inductive ScanOption : Set :=
| NeedCoordinates
| TensorAsSpatialDim
| AsScalarImage.

(** Modelled from the spec: the Array/Image boundary (section 6). The
    [dip::Image] class and [dip::DataType]'s member functions are declared
    outside these sources; the statistics functions use the queries below.
    [DataTypeOf] is [Image::DataType()]. *)
Class ImageOps (Image : Type) : Type := {
  IsForged : Image -> bool;
  IsScalar : Image -> bool;
  Dimensionality : Image -> N;
  DataTypeOf : Image -> DataType;
  IsComplex : DataType -> bool;
  SuggestReal : DataType -> DataType;
  SuggestFlex : DataType -> DataType;
  SuggestDyadicOperation : DataType -> DataType -> DataType;
  (* [DIP_OVL_NEW_REAL], [DIP_OVL_NEW_NONCOMPLEX], [DIP_OVL_NEW_FLEX]: whether
     the macro has an instantiation for the data type; it throws otherwise *)
  OVL_REAL : DataType -> bool;
  OVL_NONCOMPLEX : DataType -> bool;
  OVL_FLEX : DataType -> bool;
  (* [c_in.SplitComplex()]: the image with its complex samples split over a
     new dimension *)
  SplitComplex : Image -> Image;
  (* [in1.CompareProperties( in2, Sizes + TensorElements )] and
     [mask.CheckIsMask( in1.Sizes(), DO_ALLOW, DO_THROW )]: the exception
     thrown, if any *)
  CompareProperties : Image -> Image -> option Error;
  CheckIsMask : Image -> Image -> option Error;
  (* [mask.ExpandSingletonDimensions( in1.Sizes() )] *)
  ExpandSingletonDimensions : Image -> Image -> Image
}.

(** ** The scan framework, at its interface *)

(** [Framework::ScanLineFilterParameters], for a filter with one input
    image whose samples have type [T], and an optional mask. *)
Record ScanLineFilterParameters (T : Type) : Type := {
  inBuffer : list T;              (* inBuffer[ 0 ] *)
  maskBuffer : option (list bin); (* inBuffer[ 1 ], when inBuffer.size() > 1 *)
  dimension : nat;
  position : UnsignedArray;
  thread : nat
}.

Arguments inBuffer {T} _.
Arguments maskBuffer {T} _.
Arguments dimension {T} _.
Arguments position {T} _.
Arguments thread {T} _.

(** A [Framework::ScanLineFilter] with member variables of type [V]. *)
Record ScanLineFilter (T V : Type) : Type := {
  (* V: the member variables of the filter object *)
  SetNumberOfThreads : nat -> V -> V;
  Filter : ScanLineFilterParameters T -> V -> option V
}.

Arguments SetNumberOfThreads {T V} _ _ _.
Arguments Filter {T V} _ _ _.

(** Modelled from the spec: the Scan Driver (section 4.1), whose code
    (framework.h, scan.cpp) is not part of these sources. The driver rejects
    its operands or decomposes them into lines, each routed to a thread
    slot; it calls [SetNumberOfThreads] once before dispatch and then
    [Filter] once per line. Each slot is written by its own thread only, so
    the outcome is the one of running the lines one after the other. *)
Definition ScanPlan (T : Type) : Type :=
  Outcome (nat * list (ScanLineFilterParameters T)).

Fixpoint run_lines {T V} (f : ScanLineFilter T V)
    (lines : list (ScanLineFilterParameters T)) (s : V) : M nat V :=
  match lines with
  | [] => ret s
  | params :: lines' =>
      fun n =>
        match Filter f params s with
        | Some s' => run_lines f lines' s' (S n)
        | None => (Undefined, S n)
        end
  end.

Definition Scan {T V} (plan : ScanPlan T) (f : ScanLineFilter T V) (s : V)
    : M nat V :=
  match plan with
  | Returns (threads, lines) => run_lines f lines (SetNumberOfThreads f threads s)
  | Throws e => throw e
  | Undefined => fun n => (Undefined, n)
  end.

(** The lines are well-formed when every one names a thread slot that
    exists. *)
Definition plan_ok {T} (threads : nat) (lines : list (ScanLineFilterParameters T))
    : Prop :=
  0 < threads /\ Forall (fun params => thread params < threads) lines.

(** ** Count *)

Module dip__Count.

(** The loop [for( ii = 0; ii < bufferLength; ++ii )] over the input and
    the mask buffers. *)
Fixpoint count_masked (in_ mask : list bin) (count : N) : option N :=
  match in_, mask with
  | [], _ => Some count
  | x :: in', m :: mask' =>
      count_masked in' mask' (if m && x then uint_succ count else count)
  | _ :: _, [] => None
  end.

(** The loop over the input buffer alone. *)
Fixpoint count_unmasked (in_ : list bin) (count : N) : N :=
  match in_ with
  | [] => count
  | x :: in' => count_unmasked in' (if x then uint_succ count else count)
  end.

Definition Filter (params : ScanLineFilterParameters bin) (counts_ : list N)
    : option (list N) :=
  count ← match maskBuffer params with
          | Some mask => count_masked (inBuffer params) mask 0
          | None => Some (count_unmasked (inBuffer params) 0)
          end;
  c ← counts_ !! thread params;
  Some (<[thread params := uint_add c count]> counts_).

Definition SetNumberOfThreads (threads : nat) (counts_ : list N) : list N :=
  resize threads 0%N counts_.

Definition GetResult (counts_ : list N) : option N :=
  match counts_ with
  | [] => None
  | c :: rest => Some (fold_left uint_add rest c)
  end.

Definition filter : ScanLineFilter bin (list N) :=
  Build_ScanLineFilter bin (list N) SetNumberOfThreads Filter.

End dip__Count.

(** Modelled from the spec: [Framework::ScanSingleInput] (section 4.1),
    which is not part of these sources. [scan_lines in mask dataType opts]
    is what the driver makes of its operands for a line filter that reads
    samples of type [T]: an exception, or the number of threads and the
    lines. A raw (not forged) [mask] means that there is no mask. *)
Class ScanDriver (Image T : Type) : Type := {
  scan_lines : Image -> Image -> DataType -> list ScanOption -> ScanPlan T
}.

Definition ScanSingleInput {Image T V} `{!ScanDriver Image T}
    (in_ mask : Image) (dataType : DataType) (f : ScanLineFilter T V) (s : V)
    (opts : list ScanOption) : M nat V :=
  Scan (scan_lines in_ mask dataType opts) f s.

Section Count.
Context {Image : Type} `{!ImageOps Image} `{!ScanDriver Image bin}.

Definition Count (in_ mask : Image) : M nat N :=
  (DIP_THROW_IF (negb (IsForged in_)) IMAGE_NOT_FORGED ;;;
   DIP_THROW_IF (negb (IsScalar in_)) IMAGE_NOT_SCALAR ;;;
   scanLineFilter <~ ScanSingleInput in_ mask DT_BIN dip__Count.filter [] [] ;;
   defined (dip__Count.GetResult scanLineFilter))%dip.

End Count.

(** [a[ jj ] = f( a[ jj ] )] on a [dip::DimensionArray]: [operator[]] is
    plain pointer arithmetic, and the element has to exist. *)
Definition update_at {A} (f : A -> A) (jj : nat) (a : list A) : option (list A) :=
  x ← a !! jj;
  Some (<[jj := f x]> a).

(** ** MaximumPixel, MinimumPixel *)

(** A real sample type [TPI] as the templates [dip__MaxPixel] and
    [dip__MinPixel] use it: [std::numeric_limits< TPI >::lowest()] and
    [::max()], and the comparison operators. *)
Record RealType : Type := {
  sample :> Type;
  lowest : sample;
  highest : sample;
  gt : sample -> sample -> bool;
  ge : sample -> sample -> bool;
  lt : sample -> sample -> bool;
  le : sample -> sample -> bool
}.

(** The integer sample types: a sample is an integer between the limits of
    its type. *)
Definition integer_type (lo hi : Z) : RealType :=
  {| sample := Z; lowest := lo; highest := hi;
     gt := Z.gtb; ge := Z.geb; lt := Z.ltb; le := Z.leb |}.

Definition uint8 : RealType := integer_type 0 255.
Definition sint8 : RealType := integer_type (-128) 127.
Definition uint16 : RealType := integer_type 0 65535.
Definition sint16 : RealType := integer_type (-32768) 32767.
Definition uint32 : RealType := integer_type 0 4294967295.
Definition sint32 : RealType := integer_type (-2147483648) 2147483647.

(** The member variables of [dip__MaxPixel] and of [dip__MinPixel]. *)
Record PixelState (TPI : Type) : Type := {
  coord_ : list UnsignedArray;
  value_ : list TPI;
  first_ : bool
}.

Arguments coord_ {TPI} _.
Arguments value_ {TPI} _.
Arguments first_ {TPI} _.

(** [dip__MaxPixel] and [dip__MinPixel] are the same text up to the value
    the search starts from ([lowest()], [max()]) and the pair of comparison
    operators ([>] and [>=], [<] and [<=]); [dip__Pixel] is that text, with
    [initial], [strict] and [weak] for them. *)
Module dip__Pixel.
Section Template.
Context {TPI : Type} (initial : TPI) (strict weak : TPI -> TPI -> bool).

(** [first_ ? a > b : a >= b], the test that each of the two loops and
    each of the two merges of a [first_] branch makes. *)
Definition beats (first : bool) (a b : TPI) : bool :=
  if first then strict a b else weak a b.

(** [coord = params.position; coord[ params.dimension ] += ii;]: the
    element [coord[ params.dimension ]] has to exist, the array has no
    bounds check. *)
Definition coord_at (params : ScanLineFilterParameters TPI) (ii : N)
    : option UnsignedArray :=
  update_at (fun c => uint_add c ii) (dimension params) (position params).

(** The two loops without a mask, from index [ii] on. *)
Fixpoint scan_unmasked (first : bool) (params : ScanLineFilterParameters TPI)
    (ii : N) (in_ : list TPI) (value : TPI) (coord : UnsignedArray)
    : option (TPI * UnsignedArray) :=
  match in_ with
  | [] => Some (value, coord)
  | x :: in' =>
      if beats first x value
      then coord ← coord_at params ii;
           scan_unmasked first params (ii + 1) in' x coord
      else scan_unmasked first params (ii + 1) in' value coord
  end.

(** The two loops with a mask. *)
Fixpoint scan_masked (first : bool) (params : ScanLineFilterParameters TPI)
    (ii : N) (in_ : list TPI) (mask : list bin) (value : TPI)
    (coord : UnsignedArray) : option (TPI * UnsignedArray) :=
  match in_, mask with
  | [], _ => Some (value, coord)
  | x :: in', m :: mask' =>
      if m && beats first x value
      then coord ← coord_at params ii;
           scan_masked first params (ii + 1) in' mask' x coord
      else scan_masked first params (ii + 1) in' mask' value coord
  | _ :: _, [] => None
  end.

Definition Filter (params : ScanLineFilterParameters TPI)
    (this : PixelState TPI) : option (PixelState TPI) :=
  let coord := replicate (length (position params)) 0%N in
  let value := initial in
  '(value, coord) ←
    match maskBuffer params with
    | Some mask =>
        scan_masked (first_ this) params 0 (inBuffer params) mask value coord
    | None =>
        scan_unmasked (first_ this) params 0 (inBuffer params) value coord
    end;
  v ← value_ this !! thread params;
  if beats (first_ this) value v
  then _ ← coord_ this !! thread params;
       Some {| coord_ := <[thread params := coord]> (coord_ this);
               value_ := <[thread params := value]> (value_ this);
               first_ := first_ this |}
  else Some this.

Definition SetNumberOfThreads (threads : nat) (this : PixelState TPI)
    : PixelState TPI :=
  {| coord_ := resize threads [] (coord_ this);
     value_ := resize threads initial (value_ this);
     first_ := first_ this |}.

(** The object as its constructor leaves it. *)
Definition new (first : bool) : PixelState TPI :=
  {| coord_ := []; value_ := []; first_ := first |}.

(** The loop of [GetResult], [n] iterations from index [ii] on. *)
Fixpoint select_index (first : bool) (value_ : list TPI) (ii n index : nat)
    : option nat :=
  match n with
  | 0 => Some index
  | S n' =>
      vi ← value_ !! ii;
      vx ← value_ !! index;
      select_index first value_ (S ii) n' (if beats first vi vx then ii else index)
  end.

Definition GetResult (this : PixelState TPI) : option UnsignedArray :=
  index ← select_index (first_ this) (value_ this) 1
            (length (coord_ this) - 1) 0;
  coord_ this !! index.

Definition filter : ScanLineFilter TPI (PixelState TPI) :=
  Build_ScanLineFilter TPI (PixelState TPI) SetNumberOfThreads Filter.

End Template.
End dip__Pixel.

Module dip__MaxPixel.
Definition Filter (TPI : RealType) :=
  dip__Pixel.Filter (lowest TPI) (gt TPI) (ge TPI).
Definition SetNumberOfThreads (TPI : RealType) :=
  dip__Pixel.SetNumberOfThreads (lowest TPI).
Definition GetResult (TPI : RealType) :=
  dip__Pixel.GetResult (gt TPI) (ge TPI).
Definition filter (TPI : RealType) : ScanLineFilter TPI (PixelState TPI) :=
  dip__Pixel.filter (lowest TPI) (gt TPI) (ge TPI).
End dip__MaxPixel.

Module dip__MinPixel.
Definition Filter (TPI : RealType) :=
  dip__Pixel.Filter (highest TPI) (lt TPI) (le TPI).
Definition SetNumberOfThreads (TPI : RealType) :=
  dip__Pixel.SetNumberOfThreads (highest TPI).
Definition GetResult (TPI : RealType) :=
  dip__Pixel.GetResult (lt TPI) (le TPI).
Definition filter (TPI : RealType) : ScanLineFilter TPI (PixelState TPI) :=
  dip__Pixel.filter (highest TPI) (lt TPI) (le TPI).
End dip__MinPixel.

Section MaximumPixel.
Context {Image : Type} `{!ImageOps Image}.
(** [TPI] is the type for which [DIP_OVL_NEW_REAL] instantiates the
    template. *)
Context (TPI : RealType) `{!ScanDriver Image TPI}.

Definition MaximumPixel (in_ mask : Image) (positionFlag : string)
    : M nat UnsignedArray :=
  (DIP_THROW_IF (negb (IsForged in_)) IMAGE_NOT_FORGED ;;;
   DIP_THROW_IF (negb (IsScalar in_)) IMAGE_NOT_SCALAR ;;;
   let first := String.eqb positionFlag "first" in
   let dataType := SuggestReal (DataTypeOf in_) in
   DIP_THROW_IF (negb (OVL_REAL dataType)) DATA_TYPE_NOT_SUPPORTED ;;;
   scanLineFilter <~ ScanSingleInput in_ mask dataType (dip__MaxPixel.filter TPI)
                       (dip__Pixel.new first) [NeedCoordinates] ;;
   defined (dip__MaxPixel.GetResult TPI scanLineFilter))%dip.

Definition MinimumPixel (in_ mask : Image) (positionFlag : string)
    : M nat UnsignedArray :=
  (DIP_THROW_IF (negb (IsForged in_)) IMAGE_NOT_FORGED ;;;
   DIP_THROW_IF (negb (IsScalar in_)) IMAGE_NOT_SCALAR ;;;
   let first := String.eqb positionFlag "first" in
   let dataType := SuggestReal (DataTypeOf in_) in
   DIP_THROW_IF (negb (OVL_REAL dataType)) DATA_TYPE_NOT_SUPPORTED ;;;
   scanLineFilter <~ ScanSingleInput in_ mask dataType (dip__MinPixel.filter TPI)
                       (dip__Pixel.new first) [NeedCoordinates] ;;
   defined (dip__MinPixel.GetResult TPI scanLineFilter))%dip.

End MaximumPixel.

(** ** CumulativeSum *)

Abbreviation BooleanArray := (list bool) (only parsing).

Module CumSumFilter.
Section Template.
(** [TPI] with the value [0] and [operator+=]. *)
Context {TPI : Type} (zero : TPI) (add : TPI -> TPI -> TPI).

(** [sum += *in; *out = sum;] for each sample of the line. *)
Fixpoint loop (in_ : list TPI) (sum : TPI) : list TPI :=
  match in_ with
  | [] => []
  | x :: in' => let sum := add sum x in sum :: loop in' sum
  end.

(** The output line for an input line. *)
Definition Filter (inBuffer : list TPI) : list TPI := loop inBuffer zero.

End Template.
End CumSumFilter.

(** Modelled from the spec: the Separable Driver (section 4.2) and the
    selection step, [Framework::Separable] and [dip::Select], which are not
    part of these sources. Both write the output image, so they run in a
    state that holds it, with the count of lines filtered.
    [Select in1 in2 mask] leaves in the output image the samples of [in1]
    where [mask] is set and the ones of [in2] elsewhere; [Separable in_ ...
    lineFilter] runs the line filter along each dimension that [process]
    flags, reading [in_]; [ScalarImage 0 dataType] is [Image( 0, dataType )]. *)
Class SeparableDriver (Image TPI : Type) : Type := {
  ScalarImage : Z -> DataType -> Image;
  Select : Image -> Image -> Image -> M (Image * nat) unit;
  Separable : Image -> DataType -> DataType -> BooleanArray ->
              (list TPI -> list TPI) -> list ScanOption -> M (Image * nat) unit
}.

Section CumulativeSum.
Context {Image : Type} `{!ImageOps Image}.
(** [TPI] is the type for which [DIP_OVL_NEW_FLEX] instantiates
    [CumSumFilter]. *)
Context {TPI : Type} (zero : TPI) (add : TPI -> TPI -> TPI).
Context `{!SeparableDriver Image TPI}.

(** The image [out] refers to, at this point of the call. *)
Definition the_out : M (Image * nat) Image := fun s => (Returns (fst s), s).

Definition CumulativeSum (in_ mask : Image) (process : BooleanArray)
    : M (Image * nat) unit :=
  (DIP_THROW_IF (negb (IsForged in_)) IMAGE_NOT_FORGED ;;;
   DIP_THROW_IF (Dimensionality in_ <? 1)%N DIMENSIONALITY_NOT_SUPPORTED ;;;
   let dataType := SuggestFlex (DataTypeOf in_) in
   DIP_THROW_IF (negb (OVL_FLEX dataType)) DATA_TYPE_NOT_SUPPORTED ;;;
   let lineFilter := CumSumFilter.Filter zero add in
   if IsForged mask then
     Select in_ (ScalarImage 0 dataType) mask ;;;
     out <~ the_out ;;
     Separable out dataType dataType process lineFilter [AsScalarImage]
   else
     Separable in_ dataType dataType process lineFilter [AsScalarImage])%dip.

End CumulativeSum.

(** ** Filters that keep one accumulator per thread *)

(** [for( ii = 0; ii < bufferLength; ++ii ) { if( *mask ) { body } in +=
    inStride; mask += maskStride; }] *)
Fixpoint for_masked {T A} (body : A -> T -> A) (in_ : list T) (mask : list bin)
    (vars : A) : option A :=
  match in_, mask with
  | [], _ => Some vars
  | x :: in', m :: mask' => for_masked body in' mask' (if m then body vars x else vars)
  | _ :: _, [] => None
  end.

(** [for( ii = 0; ii < bufferLength; ++ii ) { body; in += inStride; }] *)
Definition for_unmasked {T A} (body : A -> T -> A) (in_ : list T) (vars : A) : A :=
  fold_left body in_ vars.

(** [accArray_[ params.thread ] += vars;] *)
Definition merge_into_slot {A} (plus_eq : A -> A -> A) (accArray_ : list A)
    (thread : nat) (vars : A) : option (list A) :=
  acc ← accArray_ !! thread;
  Some (<[thread := plus_eq acc vars]> accArray_).

(** [out = accArray_[ 0 ]; for( ii = 1; ii < accArray_.size(); ++ii ) { out
    += accArray_[ ii ]; } return out;], the [GetResult] of
    [dip__MaximumAndMinimum], [dip__SampleStatistics], [dip__Covariance] and
    [dip__Moments]. *)
Definition merge_slots {A} (plus_eq : A -> A -> A) (accArray_ : list A) : option A :=
  match accArray_ with
  | [] => None
  | out :: rest => Some (fold_left plus_eq rest out)
  end.

(** *** MaximumAndMinimum *)

Module dip__MaximumAndMinimum.
Section Template.
(** [MinMaxAccumulator] (accumulators.h) is not part of these sources: its
    default constructor [new], [Push( x )], [Push( x, y )] and [operator+=]
    are parameters of the filter. *)
Context {TPI dfloat MinMaxAccumulator : Type}.
Context (static_cast : TPI -> dfloat).
Context (new : MinMaxAccumulator).
Context (Push : MinMaxAccumulator -> dfloat -> MinMaxAccumulator).
Context (Push2 : MinMaxAccumulator -> dfloat -> dfloat -> MinMaxAccumulator).
Context (plus_eq : MinMaxAccumulator -> MinMaxAccumulator -> MinMaxAccumulator).

(** [for( ; ii < bufferLength - 1; ii += 2 ) { TPI v = *in; in += inStride;
    vars.Push( v, *in ); in += inStride; }]: [in] points at sample [ii];
    a read at or after [bufferLength] is outside the buffer. [fuel] bounds
    the number of tests of the loop condition. *)
Fixpoint pairs_loop (fuel : nat) (in_ : list TPI) (bufferLength ii : N)
    (vars : MinMaxAccumulator) : option (N * MinMaxAccumulator) :=
  match fuel with
  | 0 => None
  | S fuel' =>
      if (ii <? uint_sub bufferLength 1)%N then
        v ← in_ !! N.to_nat ii;
        w ← in_ !! N.to_nat (ii + 1);
        pairs_loop fuel' in_ bufferLength (uint_add ii 2)
          (Push2 vars (static_cast v) (static_cast w))
      else Some (ii, vars)
  end.

(** The branch of [Filter] without a mask. *)
Definition scan_unmasked (in_ : list TPI) : option MinMaxAccumulator :=
  let bufferLength := N.of_nat (length in_) in
  '(ii, vars) ← pairs_loop (S (length in_)) in_ bufferLength 0 new;
  if (ii <? bufferLength)%N then
    x ← in_ !! N.to_nat ii;
    Some (Push vars (static_cast x))
  else Some vars.

Definition Filter (params : ScanLineFilterParameters TPI)
    (accArray_ : list MinMaxAccumulator) : option (list MinMaxAccumulator) :=
  vars ← match maskBuffer params with
         | Some mask =>
             for_masked (fun vars x => Push vars (static_cast x))
               (inBuffer params) mask new
         | None => scan_unmasked (inBuffer params)
         end;
  merge_into_slot plus_eq accArray_ (thread params) vars.

Definition SetNumberOfThreads (threads : nat) (accArray_ : list MinMaxAccumulator)
    : list MinMaxAccumulator :=
  resize threads new accArray_.

Definition GetResult (accArray_ : list MinMaxAccumulator)
    : option MinMaxAccumulator :=
  merge_slots plus_eq accArray_.

Definition filter : ScanLineFilter TPI (list MinMaxAccumulator) :=
  Build_ScanLineFilter _ _ SetNumberOfThreads Filter.

(** The one-sample-at-a-time loop that the specification names as the
    simpler substitute of the loop of pairs. *)
Definition scan_one_at_a_time (in_ : list TPI) : MinMaxAccumulator :=
  for_unmasked (fun vars x => Push vars (static_cast x)) in_ new.

Definition Filter_one_at_a_time (params : ScanLineFilterParameters TPI)
    (accArray_ : list MinMaxAccumulator) : option (list MinMaxAccumulator) :=
  vars ← match maskBuffer params with
         | Some mask =>
             for_masked (fun vars x => Push vars (static_cast x))
               (inBuffer params) mask new
         | None => Some (scan_one_at_a_time (inBuffer params))
         end;
  merge_into_slot plus_eq accArray_ (thread params) vars.

Definition filter_one_at_a_time : ScanLineFilter TPI (list MinMaxAccumulator) :=
  Build_ScanLineFilter _ _ SetNumberOfThreads Filter_one_at_a_time.

End Template.
End dip__MaximumAndMinimum.

(** *** SampleStatistics *)

Module dip__SampleStatistics.
Section Template.
(** [StatisticsAccumulator] (accumulators.h) is not part of these sources. *)
Context {TPI dfloat StatisticsAccumulator : Type}.
Context (static_cast : TPI -> dfloat).
Context (new : StatisticsAccumulator).
Context (Push : StatisticsAccumulator -> dfloat -> StatisticsAccumulator).
Context (plus_eq : StatisticsAccumulator -> StatisticsAccumulator -> StatisticsAccumulator).

Definition Filter (params : ScanLineFilterParameters TPI)
    (accArray_ : list StatisticsAccumulator) : option (list StatisticsAccumulator) :=
  let body := fun vars x => Push vars (static_cast x) in
  vars ← match maskBuffer params with
         | Some mask => for_masked body (inBuffer params) mask new
         | None => Some (for_unmasked body (inBuffer params) new)
         end;
  merge_into_slot plus_eq accArray_ (thread params) vars.

Definition SetNumberOfThreads (threads : nat)
    (accArray_ : list StatisticsAccumulator) : list StatisticsAccumulator :=
  resize threads new accArray_.

Definition GetResult (accArray_ : list StatisticsAccumulator)
    : option StatisticsAccumulator :=
  merge_slots plus_eq accArray_.

Definition filter : ScanLineFilter TPI (list StatisticsAccumulator) :=
  Build_ScanLineFilter _ _ SetNumberOfThreads Filter.

End Template.
End dip__SampleStatistics.

(** *** Covariance *)

Module dip__Covariance.
Section Template.
(** [CovarianceAccumulator] (accumulators.h) is not part of these sources.
    The two input buffers have [bufferLength] samples each: the line is the
    list of the pairs [( *in1, *in2 )]. *)
Context {TPI dfloat CovarianceAccumulator : Type}.
Context (static_cast : TPI -> dfloat).
Context (new : CovarianceAccumulator).
Context (Push : CovarianceAccumulator -> dfloat -> dfloat -> CovarianceAccumulator).
Context (plus_eq : CovarianceAccumulator -> CovarianceAccumulator -> CovarianceAccumulator).

Definition Filter (params : ScanLineFilterParameters (TPI * TPI))
    (accArray_ : list CovarianceAccumulator) : option (list CovarianceAccumulator) :=
  let body := fun vars (x : TPI * TPI) =>
                Push vars (static_cast (fst x)) (static_cast (snd x)) in
  vars ← match maskBuffer params with
         | Some mask => for_masked body (inBuffer params) mask new
         | None => Some (for_unmasked body (inBuffer params) new)
         end;
  merge_into_slot plus_eq accArray_ (thread params) vars.

Definition SetNumberOfThreads (threads : nat)
    (accArray_ : list CovarianceAccumulator) : list CovarianceAccumulator :=
  resize threads new accArray_.

Definition GetResult (accArray_ : list CovarianceAccumulator)
    : option CovarianceAccumulator :=
  merge_slots plus_eq accArray_.

Definition filter : ScanLineFilter (TPI * TPI) (list CovarianceAccumulator) :=
  Build_ScanLineFilter _ _ SetNumberOfThreads Filter.

End Template.
End dip__Covariance.

(** *** Arithmetic on [dip::dfloat] and [dip::FloatArray] *)

(** The operations on [dfloat] that [dip__CenterOfMass] and [dip__Moments]
    use: the constant [0.0], [+], [*], [/], [==] and the conversion
    [static_cast< dfloat >] of a [dip::uint]. *)
Class FloatArith (dfloat : Type) : Type := {
  f_zero : dfloat;
  f_add : dfloat -> dfloat -> dfloat;
  f_mul : dfloat -> dfloat -> dfloat;
  f_div : dfloat -> dfloat -> dfloat;
  f_eqb : dfloat -> dfloat -> bool;
  f_of_uint : N -> dfloat
}.

(** A left fold of a step that can be undefined. *)
Fixpoint fold_defined {A B} (f : A -> B -> option A) (l : list B) (a : A)
    : option A :=
  match l with
  | [] => Some a
  | x :: l' => a' ← f a x; fold_defined f l' a'
  end.

(** [dip::FloatArray], a [dip::DimensionArray< dfloat >]: an array with
    its size. The class (dimension_array.h) is not part of these sources;
    its default constructor makes the array of size 0, [resize( n, v )]
    is the one of [std::vector], and [a += b] adds [b[ ii ]] to [a[ ii ]]
    for each [ii] below the size of [a], the two sizes being equal. *)
Abbreviation FloatArray := list (only parsing).

Definition FloatArray_plus_eq {dfloat : Type} `{!FloatArith dfloat}
    (a b : FloatArray dfloat) : option (FloatArray dfloat) :=
  if decide (length a = length b) then Some (zip_with f_add a b) else None.

(** *** CenterOfMass *)

Module dip__CenterOfMass.
Section Template.
Context {TPI dfloat : Type} `{!FloatArith dfloat}.
Context (static_cast : TPI -> dfloat).
Context (nD_ : nat).

(** [for( jj = 0; jj < nD_; ++jj ) { vars[ jj ] += static_cast< dfloat >(
    pos[ jj ] ) * static_cast< dfloat >( *in ); }], [n] iterations from
    [jj] on. *)
Fixpoint axes_loop (n jj : nat) (pos : UnsignedArray) (x : dfloat)
    (vars : FloatArray dfloat) : option (FloatArray dfloat) :=
  match n with
  | 0 => Some vars
  | S n' =>
      p ← pos !! jj;
      vars ← update_at (fun v => f_add v (f_mul (f_of_uint p) x)) jj vars;
      axes_loop n' (S jj) pos x vars
  end.

(** The body of the two loops over the line, for one sample. *)
Definition body (pos : UnsignedArray) (x : TPI) (vars : FloatArray dfloat)
    : option (FloatArray dfloat) :=
  vars ← axes_loop nD_ 0 pos (static_cast x) vars;
  update_at (fun v => f_add v (static_cast x)) nD_ vars.

Fixpoint loop_unmasked (procDim : nat) (in_ : list TPI) (pos : UnsignedArray)
    (vars : FloatArray dfloat) : option (FloatArray dfloat) :=
  match in_ with
  | [] => Some vars
  | x :: in' =>
      vars ← body pos x vars;
      pos ← update_at uint_succ procDim pos;
      loop_unmasked procDim in' pos vars
  end.

Fixpoint loop_masked (procDim : nat) (in_ : list TPI) (mask : list bin)
    (pos : UnsignedArray) (vars : FloatArray dfloat)
    : option (FloatArray dfloat) :=
  match in_, mask with
  | [], _ => Some vars
  | x :: in', m :: mask' =>
      vars ← (if m then body pos x vars else Some vars);
      pos ← update_at uint_succ procDim pos;
      loop_masked procDim in' mask' pos vars
  | _ :: _, [] => None
  end.

Definition Filter (params : ScanLineFilterParameters TPI)
    (accArray_ : list (FloatArray dfloat)) : option (list (FloatArray dfloat)) :=
  let vars : FloatArray dfloat := [] in
  let pos := position params in
  let procDim := dimension params in
  vars ← match maskBuffer params with
         | Some mask => loop_masked procDim (inBuffer params) mask pos vars
         | None => loop_unmasked procDim (inBuffer params) pos vars
         end;
  acc ← accArray_ !! thread params;
  acc ← FloatArray_plus_eq acc vars;
  Some (<[thread params := acc]> accArray_).

Definition SetNumberOfThreads (threads : nat)
    (accArray_ : list (FloatArray dfloat)) : list (FloatArray dfloat) :=
  map (resize (nD_ + 1) f_zero) (resize threads [] accArray_).

(** [for( jj = 0; jj < nD_; ++jj ) { out[ jj ] /= out[ nD_ ]; }] *)
Fixpoint divide_loop (n jj : nat) (out : FloatArray dfloat)
    : option (FloatArray dfloat) :=
  match n with
  | 0 => Some out
  | S n' =>
      m ← out !! nD_;
      out ← update_at (fun v => f_div v m) jj out;
      divide_loop n' (S jj) out
  end.

(** [for( jj = 0; jj < nD_; ++jj ) { out[ jj ] = 0.0; }] *)
Fixpoint clear_loop (n jj : nat) (out : FloatArray dfloat)
    : option (FloatArray dfloat) :=
  match n with
  | 0 => Some out
  | S n' =>
      out ← update_at (fun _ => f_zero) jj out;
      clear_loop n' (S jj) out
  end.

Definition GetResult (accArray_ : list (FloatArray dfloat))
    : option (FloatArray dfloat) :=
  match accArray_ with
  | [] => None
  | out :: rest =>
      out ← fold_defined FloatArray_plus_eq rest out;
      m ← out !! nD_;
      out ← (if negb (f_eqb m f_zero)
             then divide_loop nD_ 0 out
             else clear_loop nD_ 0 out);
      Some (resize nD_ f_zero out)
  end.

Definition filter : ScanLineFilter TPI (list (FloatArray dfloat)) :=
  Build_ScanLineFilter _ _ SetNumberOfThreads Filter.

End Template.
End dip__CenterOfMass.

(** *** Moments *)

Module dip__Moments.
Section Template.
(** [MomentAccumulator] (accumulators.h) is not part of these sources:
    [new n] is [MomentAccumulator( n )]. *)
Context {TPI dfloat MomentAccumulator : Type} `{!FloatArith dfloat}.
Context (static_cast : TPI -> dfloat).
Context (new : nat -> MomentAccumulator).
Context (Push : MomentAccumulator -> FloatArray dfloat -> dfloat -> MomentAccumulator).
Context (plus_eq : MomentAccumulator -> MomentAccumulator -> MomentAccumulator).
Context (nD_ : nat).

(** [++( pos[ procDim ] )] on a [FloatArray] *)
Definition next_pos (procDim : nat) (pos : FloatArray dfloat)
    : option (FloatArray dfloat) :=
  update_at (fun p => f_add p (f_of_uint 1)) procDim pos.

Fixpoint loop_unmasked (procDim : nat) (in_ : list TPI) (pos : FloatArray dfloat)
    (vars : MomentAccumulator) : option MomentAccumulator :=
  match in_ with
  | [] => Some vars
  | x :: in' =>
      let vars := Push vars pos (static_cast x) in
      pos ← next_pos procDim pos;
      loop_unmasked procDim in' pos vars
  end.

Fixpoint loop_masked (procDim : nat) (in_ : list TPI) (mask : list bin)
    (pos : FloatArray dfloat) (vars : MomentAccumulator)
    : option MomentAccumulator :=
  match in_, mask with
  | [], _ => Some vars
  | x :: in', m :: mask' =>
      let vars := if m then Push vars pos (static_cast x) else vars in
      pos ← next_pos procDim pos;
      loop_masked procDim in' mask' pos vars
  | _ :: _, [] => None
  end.

Definition Filter (params : ScanLineFilterParameters TPI)
    (accArray_ : list MomentAccumulator) : option (list MomentAccumulator) :=
  let vars := new nD_ in
  let pos : FloatArray dfloat := map f_of_uint (position params) in
  let procDim := dimension params in
  vars ← match maskBuffer params with
         | Some mask => loop_masked procDim (inBuffer params) mask pos vars
         | None => loop_unmasked procDim (inBuffer params) pos vars
         end;
  merge_into_slot plus_eq accArray_ (thread params) vars.

Definition SetNumberOfThreads (threads : nat) (accArray_ : list MomentAccumulator)
    : list MomentAccumulator :=
  resize threads (new nD_) accArray_.

Definition GetResult (accArray_ : list MomentAccumulator)
    : option MomentAccumulator :=
  merge_slots plus_eq accArray_.

Definition filter : ScanLineFilter TPI (list MomentAccumulator) :=
  Build_ScanLineFilter _ _ SetNumberOfThreads Filter.

End Template.
End dip__Moments.

(** *** The functions that run these filters *)

(** Modelled from the spec: [Framework::Scan] (section 4.1) for the two
    input images and the optional mask of [Covariance]. *)
Class ScanDriver2 (Image T : Type) : Type := {
  scan_lines2 : Image -> Image -> option Image -> DataType -> list ScanOption ->
                ScanPlan (T * T)
}.

Section MaximumAndMinimum.
Context {Image : Type} `{!ImageOps Image}.
Context {TPI dfloat MinMaxAccumulator : Type} `{!ScanDriver Image TPI}.
Context (static_cast : TPI -> dfloat).
Context (new : MinMaxAccumulator).
Context (Push : MinMaxAccumulator -> dfloat -> MinMaxAccumulator).
Context (Push2 : MinMaxAccumulator -> dfloat -> dfloat -> MinMaxAccumulator).
Context (plus_eq : MinMaxAccumulator -> MinMaxAccumulator -> MinMaxAccumulator).

Definition MaximumAndMinimum (in_ mask : Image) : M nat MinMaxAccumulator :=
  (DIP_THROW_IF (negb (IsForged in_)) IMAGE_NOT_FORGED ;;;
   let c_in := if IsComplex (DataTypeOf in_) then SplitComplex in_ else in_ in
   DIP_THROW_IF (negb (OVL_NONCOMPLEX (DataTypeOf c_in))) DATA_TYPE_NOT_SUPPORTED ;;;
   scanLineFilter <~ ScanSingleInput c_in mask (DataTypeOf c_in)
                       (dip__MaximumAndMinimum.filter static_cast new Push Push2 plus_eq)
                       [] [TensorAsSpatialDim] ;;
   defined (dip__MaximumAndMinimum.GetResult plus_eq scanLineFilter))%dip.

End MaximumAndMinimum.

Section SampleStatistics.
Context {Image : Type} `{!ImageOps Image}.
Context {TPI dfloat StatisticsAccumulator : Type} `{!ScanDriver Image TPI}.
Context (static_cast : TPI -> dfloat).
Context (new : StatisticsAccumulator).
Context (Push : StatisticsAccumulator -> dfloat -> StatisticsAccumulator).
Context (plus_eq : StatisticsAccumulator -> StatisticsAccumulator -> StatisticsAccumulator).

Definition SampleStatistics (in_ mask : Image) : M nat StatisticsAccumulator :=
  (DIP_THROW_IF (negb (IsForged in_)) IMAGE_NOT_FORGED ;;;
   DIP_THROW_IF (negb (OVL_REAL (DataTypeOf in_))) DATA_TYPE_NOT_SUPPORTED ;;;
   scanLineFilter <~ ScanSingleInput in_ mask (DataTypeOf in_)
                       (dip__SampleStatistics.filter static_cast new Push plus_eq)
                       [] [TensorAsSpatialDim] ;;
   defined (dip__SampleStatistics.GetResult plus_eq scanLineFilter))%dip.

End SampleStatistics.

Section Covariance.
Context {Image : Type} `{!ImageOps Image}.
Context {TPI dfloat CovarianceAccumulator : Type} `{!ScanDriver2 Image TPI}.
Context (static_cast : TPI -> dfloat).
Context (new : CovarianceAccumulator).
Context (Push : CovarianceAccumulator -> dfloat -> dfloat -> CovarianceAccumulator).
Context (plus_eq : CovarianceAccumulator -> CovarianceAccumulator -> CovarianceAccumulator).

(** A member function of [Image] that throws or returns nothing. *)
Definition checked {St} (e : option Error) : M St unit :=
  match e with
  | Some e => throw e
  | None => ret tt
  end.

Definition Covariance (in1 in2 c_mask : Image) : M nat CovarianceAccumulator :=
  (DIP_THROW_IF (negb (IsForged in1) || negb (IsForged in2)) IMAGE_NOT_FORGED ;;;
   checked (CompareProperties in1 in2) ;;;
   let ovlDataType := SuggestDyadicOperation (DataTypeOf in1) (DataTypeOf in2) in
   mask <~ (if IsForged c_mask then
              checked (CheckIsMask c_mask in1) ;;;
              ret (Some (ExpandSingletonDimensions c_mask in1))
            else ret None) ;;
   DIP_THROW_IF (negb (OVL_REAL ovlDataType)) DATA_TYPE_NOT_SUPPORTED ;;;
   scanLineFilter <~ Scan (scan_lines2 in1 in2 mask ovlDataType [TensorAsSpatialDim])
                       (dip__Covariance.filter static_cast new Push plus_eq) [] ;;
   defined (dip__Covariance.GetResult plus_eq scanLineFilter))%dip.

End Covariance.

Section CenterOfMass.
Context {Image : Type} `{!ImageOps Image}.
Context {TPI dfloat : Type} `{!FloatArith dfloat} `{!ScanDriver Image TPI}.
Context (static_cast : TPI -> dfloat).

Definition CenterOfMass (in_ mask : Image) : M nat (FloatArray dfloat) :=
  (DIP_THROW_IF (negb (IsForged in_)) IMAGE_NOT_FORGED ;;;
   DIP_THROW_IF (negb (IsScalar in_)) IMAGE_NOT_SCALAR ;;;
   DIP_THROW_IF (negb (OVL_NONCOMPLEX (DataTypeOf in_))) DATA_TYPE_NOT_SUPPORTED ;;;
   let nD := N.to_nat (Dimensionality in_) in
   scanLineFilter <~ ScanSingleInput in_ mask (DataTypeOf in_)
                       (dip__CenterOfMass.filter static_cast nD)
                       [] [NeedCoordinates] ;;
   defined (dip__CenterOfMass.GetResult nD scanLineFilter))%dip.

End CenterOfMass.

Section Moments.
Context {Image : Type} `{!ImageOps Image}.
Context {TPI dfloat MomentAccumulator : Type} `{!FloatArith dfloat}.
Context `{!ScanDriver Image TPI}.
Context (static_cast : TPI -> dfloat).
Context (new : nat -> MomentAccumulator).
Context (Push : MomentAccumulator -> FloatArray dfloat -> dfloat -> MomentAccumulator).
Context (plus_eq : MomentAccumulator -> MomentAccumulator -> MomentAccumulator).

Definition Moments (in_ mask : Image) : M nat MomentAccumulator :=
  (DIP_THROW_IF (negb (IsForged in_)) IMAGE_NOT_FORGED ;;;
   DIP_THROW_IF (negb (IsScalar in_)) IMAGE_NOT_SCALAR ;;;
   DIP_THROW_IF (negb (OVL_NONCOMPLEX (DataTypeOf in_))) DATA_TYPE_NOT_SUPPORTED ;;;
   let nD := N.to_nat (Dimensionality in_) in
   scanLineFilter <~ ScanSingleInput in_ mask (DataTypeOf in_)
                       (dip__Moments.filter static_cast new Push plus_eq nD)
                       [] [NeedCoordinates] ;;
   defined (dip__Moments.GetResult plus_eq scanLineFilter))%dip.

End Moments.

(** ** Accumulators, from the specification *)

(** Modelled from the spec: [MinMaxAccumulator] (accumulators.h is not part
    of these sources), section 4.3: it tracks the running minimum and the
    running maximum, [Push( x, y )] processes two samples in one step, and
    the merge is component-wise min-of-mins, max-of-maxes. [ltb] is
    [operator<] of [dfloat], [std_min] and [std_max] are [std::min] and
    [std::max], and the search starts from the most extreme values of the
    type. [Push( x, y )] is the step that makes a loop of pairs worth
    writing: it compares the two samples with each other first, and then
    only the larger one with the running maximum and the smaller one with
    the running minimum, three comparisons for two samples. *)
Module MinMaxAccumulator.
Section Model.
Context {dfloat : Type} (ltb : dfloat -> dfloat -> bool) (lowest max : dfloat).

Record t : Type := { min_ : dfloat; max_ : dfloat }.

Definition std_min (a b : dfloat) : dfloat := if ltb b a then b else a.
Definition std_max (a b : dfloat) : dfloat := if ltb a b then b else a.

Definition new : t := {| min_ := max; max_ := lowest |}.

Definition Push (acc : t) (x : dfloat) : t :=
  {| min_ := std_min (min_ acc) x; max_ := std_max (max_ acc) x |}.

Definition Push2 (acc : t) (x y : dfloat) : t :=
  if ltb y x
  then {| min_ := std_min (min_ acc) y; max_ := std_max (max_ acc) x |}
  else {| min_ := std_min (min_ acc) x; max_ := std_max (max_ acc) y |}.

Definition plus_eq (a b : t) : t :=
  {| min_ := std_min (min_ a) (min_ b); max_ := std_max (max_ a) (max_ b) |}.

End Model.
Arguments t dfloat : clear implicits.
End MinMaxAccumulator.

(** [operator<] of [dfloat] is a strict total order on the values [ordered]:
    numbers, without NaN and without zeros of both signs. The samples of
    the integer types are promoted to such values. *)
Record TotalOrder {dfloat : Type} (ltb : dfloat -> dfloat -> bool)
    (ordered : dfloat -> Prop) : Prop := {
  ltb_trans : forall a b c, ordered a -> ordered b -> ordered c ->
    ltb a b = true -> ltb b c = true -> ltb a c = true;
  ltb_asym : forall a b, ordered a -> ordered b -> ltb a b = true -> ltb b a = false;
  ltb_total : forall a b, ordered a -> ordered b ->
    ltb a b = false -> ltb b a = false -> a = b
}.

(** The minimum and the maximum that an accumulator holds are [ordered]
    values. *)
Definition minmax_ordered {dfloat : Type} (ordered : dfloat -> Prop)
    (acc : MinMaxAccumulator.t dfloat) : Prop :=
  ordered (MinMaxAccumulator.min_ acc) /\ ordered (MinMaxAccumulator.max_ acc).


(** ** A concrete image type *)

(** [dip::dfloat] as an IEEE 754 binary64 number. *)

Definition binary64 : Type := spec_float.

(** [static_cast< dfloat >] of an integer: the nearest binary64 number, with
    the sign of the integer. *)
Definition b64_of_Z (z : Z) : binary64 := binary_normalize 53 1024 z 0 false.

#[export] Instance binary64_arith : FloatArith binary64 := {
  f_zero := S754_zero false;
  f_add := SFadd 53 1024;
  f_mul := SFmul 53 1024;
  f_div := SFdiv 53 1024;
  f_eqb := SFeqb;
  f_of_uint := fun n => b64_of_Z (Z.of_N n)
}.

(** The value of a finite binary64 number, rounded towards zero. *)
Definition Z_of_b64 (x : binary64) : Z :=
  match x with
  | S754_finite s m e =>
      let a := if (0 <=? e)%Z then (Zpos m * 2 ^ e)%Z else (Zpos m / 2 ^ (- e))%Z in
      if s then (- a)%Z else a
  | _ => 0%Z
  end.

(** [dip::sfloat] as an IEEE 754 binary32 number. *)
Record binary32 : Type := B32 { b32_bits : spec_float }.

Definition b32_of_Z (z : Z) : binary32 := B32 (binary_normalize 24 128 z 0 false).

Definition b32_add (x y : binary32) : binary32 :=
  B32 (SFadd 24 128 (b32_bits x) (b32_bits y)).

(** The conversions between the two floating-point types: to the nearest
    binary32 number, and to the binary64 number of the same value. *)
Definition b32_of_b64 (x : binary64) : binary32 :=
  B32 match x with
      | S754_finite s m e =>
          binary_normalize 24 128 (if s then Zneg m else Zpos m) e s
      | _ => x
      end.

Definition b64_of_b32 (x : binary32) : binary64 :=
  match b32_bits x with
  | S754_finite s m e => binary_normalize 53 1024 (if s then Zneg m else Zpos m) e s
  | y => y
  end.

(** A sample of an image whose type is known at run time only. *)
Inductive Sample : Type :=
| IntSample (z : Z)
| FloatSample (x : binary64).

Definition Sample_bin (s : Sample) : bin :=
  match s with
  | IntSample z => negb (z =? 0)%Z
  | FloatSample x => negb (SFeqb x (S754_zero false))
  end.

Definition Sample_int (s : Sample) : Z :=
  match s with
  | IntSample z => z
  | FloatSample x => Z_of_b64 x
  end.

Definition Sample_b64 (s : Sample) : binary64 :=
  match s with
  | IntSample z => b64_of_Z z
  | FloatSample x => x
  end.

Definition Sample_b32 (s : Sample) : binary32 :=
  match s with
  | IntSample z => b32_of_Z z
  | FloatSample x => b32_of_b64 x
  end.

(** An image of at most two dimensions, given by its rows, on which the
    functions of this file can be run. A row holds its pixels one after the
    other and, for each pixel, its [tensorElements] samples one after the
    other; a sample of a complex type is two numbers, its real and its
    imaginary part. A raw image is [raw]. *)
Record RowImage : Type := {
  forged : bool;
  dataType : DataType;
  tensorElements : N;
  ndims : N;
  rows : list (list Sample)
}.

Definition raw : RowImage :=
  {| forged := false; dataType := DT_SFLOAT; tensorElements := 1; ndims := 0;
     rows := [] |}.

(** A forged scalar image of integer samples. *)
Definition image (dt : DataType) (nd : N) (samples : list (list Z)) : RowImage :=
  {| forged := true; dataType := dt; tensorElements := 1; ndims := nd;
     rows := map (map IntSample) samples |}.

Definition same_shape (a b : RowImage) : bool :=
  bool_decide (map length (rows a) = map length (rows b)).

Definition complex_type (dt : DataType) : bool :=
  match dt with DT_SCOMPLEX | DT_DCOMPLEX => true | _ => false end.

(** The numbers that a row holds for each pixel. *)
Definition numbers_per_pixel (img : RowImage) : nat :=
  N.to_nat (tensorElements img) * (if complex_type (dataType img) then 2 else 1).

(** The number of pixels of each row. *)
Definition widths (img : RowImage) : list nat :=
  map (fun row => length row / numbers_per_pixel img) (rows img).

(** Singleton expansion of a row of a mask to [width] pixels: a row of one
    sample is repeated, a row of another size than [width] does not fit. *)
Definition expand_row (width : nat) (row : list Sample) : option (list Sample) :=
  if length row =? width then Some row
  else match row with
       | [m] => Some (replicate width m)
       | _ => None
       end.

Fixpoint expand_each (widths : list nat) (mask : list (list Sample))
    : option (list (list Sample)) :=
  match widths, mask with
  | width :: widths', row :: mask' =>
      row ← expand_row width row;
      rest ← expand_each widths' mask';
      Some (row :: rest)
  | _, _ => Some []
  end.

(** Singleton expansion of the rows of a mask to an image whose rows have
    [widths] pixels: a single row is repeated for every row of the image. *)
Definition expand_rows (widths : list nat) (mask : list (list Sample))
    : option (list (list Sample)) :=
  mask ← (if length mask =? length widths then Some mask
          else match mask with
               | [row] => Some (replicate (length widths) row)
               | _ => None
               end);
  expand_each widths mask.

(** Modelled from the spec: the array and mask boundary (section 6) on a
    [RowImage]. A mask fits when its sizes are the ones of the image or 1
    ([CheckIsMask] with singleton expansion allowed), and
    [ExpandSingletonDimensions] repeats its samples. [SplitComplex] gives the
    real image of twice as many samples; the dimension that it adds is kept
    with the tensor elements, which the scan of [MaximumAndMinimum] turns
    into a dimension as well. *)
#[export] Instance RowImage_ops : ImageOps RowImage := {
  IsForged := forged;
  IsScalar := fun img => (tensorElements img =? 1)%N;
  Dimensionality := ndims;
  DataTypeOf := dataType;
  IsComplex := complex_type;
  SuggestReal := fun dt =>
    match dt with
    | DT_BIN => DT_UINT8 | DT_SCOMPLEX => DT_SFLOAT | DT_DCOMPLEX => DT_DFLOAT
    | _ => dt
    end;
  SuggestFlex := fun dt =>
    match dt with
    | DT_UINT32 | DT_SINT32 | DT_DFLOAT => DT_DFLOAT
    | DT_SCOMPLEX => DT_SCOMPLEX | DT_DCOMPLEX => DT_DCOMPLEX
    | _ => DT_SFLOAT
    end;
  SuggestDyadicOperation := fun dt1 dt2 =>
    let wide := fun dt =>
      match dt with
      | DT_UINT32 | DT_SINT32 | DT_DFLOAT | DT_DCOMPLEX => true
      | _ => false
      end in
    match complex_type dt1 || complex_type dt2, wide dt1 || wide dt2 with
    | true, true => DT_DCOMPLEX
    | true, false => DT_SCOMPLEX
    | false, true => DT_DFLOAT
    | false, false => DT_SFLOAT
    end;
  OVL_REAL := fun dt =>
    match dt with DT_BIN | DT_SCOMPLEX | DT_DCOMPLEX => false | _ => true end;
  OVL_NONCOMPLEX := fun dt =>
    match dt with DT_SCOMPLEX | DT_DCOMPLEX => false | _ => true end;
  OVL_FLEX := fun dt =>
    match dt with
    | DT_SFLOAT | DT_DFLOAT | DT_SCOMPLEX | DT_DCOMPLEX => true | _ => false
    end;
  SplitComplex := fun img =>
    {| forged := forged img;
       dataType := match dataType img with
                   | DT_SCOMPLEX => DT_SFLOAT
                   | DT_DCOMPLEX => DT_DFLOAT
                   | dt => dt
                   end;
       tensorElements := if complex_type (dataType img)
                         then 2 * tensorElements img
                         else tensorElements img;
       ndims := ndims img;
       rows := rows img |};
  CompareProperties := fun a b =>
    if same_shape a b && (tensorElements a =? tensorElements b)%N
    then None else Some SIZES_DONT_MATCH;
  CheckIsMask := fun mask img =>
    match expand_rows (widths img) (rows mask) with
    | Some _ => None
    | None => Some MASK_ERROR
    end;
  ExpandSingletonDimensions := fun mask img =>
    match expand_rows (widths img) (rows mask) with
    | Some expanded =>
        {| forged := forged mask; dataType := dataType mask;
           tensorElements := tensorElements mask; ndims := ndims mask;
           rows := expanded |}
    | None => mask
    end
}.

(** The position of the first sample of row [y]. *)
Definition row_position (nd : N) (y : nat) : UnsignedArray :=
  if (nd <=? 1)%N then [0%N] else [0%N; N.of_nat y].

(** The first [n] groups of [k] elements of a list. *)
Fixpoint chunks {A} (k n : nat) (l : list A) : list (list A) :=
  match n with
  | 0 => []
  | S n' => take k l :: chunks k n' (drop k l)
  end.

Definition wants (o : ScanOption) (opts : list ScanOption) : bool :=
  existsb (fun o' => match o, o' with
                     | NeedCoordinates, NeedCoordinates
                     | TensorAsSpatialDim, TensorAsSpatialDim
                     | AsScalarImage, AsScalarImage => true
                     | _, _ => false
                     end) opts.

(** The lines of the rows [samples] of an image of [nd] dimensions whose
    pixels hold [k] samples each, with the rows [mask] of the mask when
    there is one, all for the thread slot 0. A scalar image is scanned along
    dimension 0, one line per row. With [TensorAsSpatialDim] the samples of
    a pixel are a dimension of their own, the last one, and the one that is
    scanned: one line per pixel, and the mask sample of the pixel for each
    of its samples. Another scan needs scalar pixels. *)
Definition lines_of_rows {T} (k : nat) (nd : N) (opts : list ScanOption)
    (samples : list (list T)) (mask : option (list (list bin)))
    : ScanPlan T :=
  if k =? 1 then
    Returns (1, imap (fun y row =>
                  {| inBuffer := row;
                     maskBuffer := mask ≫= (fun mask => mask !! y);
                     dimension := 0;
                     position := row_position nd y;
                     thread := 0 |}) samples)
  else if wants TensorAsSpatialDim opts then
    Returns (1, concat (imap (fun y row =>
                  imap (fun x pixel =>
                    {| inBuffer := pixel;
                       maskBuffer := mask ≫= (fun mask =>
                                       mask !! y ≫= (fun mrow =>
                                         replicate k <$> mrow !! x));
                       dimension := length (row_position nd y);
                       position := <[0 := N.of_nat x]> (row_position nd y) ++ [0%N];
                       thread := 0 |}) (chunks k (length row / k) row)) samples))
  else Throws IMAGE_NOT_SCALAR.

(** Modelled from the spec: the Scan Driver (section 4.1) on a [RowImage],
    for a line filter that reads samples of type [T]: a mask whose sizes
    cannot be expanded to the ones of the image is refused, and the lines
    are the ones of [lines_of_rows]. The conversion of a complex sample to
    the buffer type is not part of the specification: an image of a complex
    type is scanned after [SplitComplex] only. *)
Definition row_lines {T} (convert : Sample -> T) (in_ mask : RowImage)
    (opts : list ScanOption) : ScanPlan T :=
  match (if forged mask then Some <$> expand_rows (widths in_) (rows mask)
         else Some None) with
  | None => Throws MASK_ERROR
  | Some mask =>
      if complex_type (dataType in_) then Throws DATA_TYPE_NOT_SUPPORTED
      else lines_of_rows (numbers_per_pixel in_) (ndims in_) opts
             (map (map convert) (rows in_))
             (map (map Sample_bin) <$> mask)
  end.

Definition row_driver {T} (convert : Sample -> T) : ScanDriver RowImage T :=
  {| scan_lines := fun in_ mask _ opts => row_lines convert in_ mask opts |}.

#[export] Instance row_driver_bin : ScanDriver RowImage bin :=
  row_driver Sample_bin.
#[export] Instance row_driver_int : ScanDriver RowImage Z :=
  row_driver Sample_int.
#[export] Instance row_driver_b64 : ScanDriver RowImage binary64 :=
  row_driver Sample_b64.

(** The columns of an image given by its rows of [width] samples. *)
Fixpoint transpose {A} (width : nat) (rows : list (list A)) : list (list A) :=
  match rows with
  | [] => replicate width []
  | row :: rows' => zip_with cons row (transpose width rows')
  end.

(** Whether [process] flags dimension [d]; the empty array flags them all. *)
Definition flagged (process : BooleanArray) (d : nat) : bool :=
  match process with
  | [] => true
  | _ => default false (process !! d)
  end.

(** A line filter on a row whose pixels hold [k] samples each: each of the
    [k] tensor elements is a line of its own ([AsScalarImage]). *)
Definition on_elements {T} (k : nat) (lineFilter : list T -> list T)
    (row : list T) : list T :=
  if k =? 1 then lineFilter row
  else let width := length row / k in
       concat (transpose width (map lineFilter (transpose k (chunks k width row)))).

(** One pass of a line filter along dimension [d] (0: the rows, 1: the
    columns) of an image given by its rows, whose pixels hold [k] samples
    each. *)
Definition pass {T} (k : nat) (lineFilter : list T -> list T) (d : nat)
    (rows : list (list T)) : list (list T) :=
  match d with
  | 0 => map (on_elements k lineFilter) rows
  | _ => let width := length (default [] (head rows)) in
         transpose (length rows) (map lineFilter (transpose width rows))
  end.

Definition number_of_lines {T} (k : nat) (d : nat) (rows : list (list T)) : nat :=
  match d with
  | 0 => length rows * k
  | _ => length (default [] (head rows))
  end.

(** Modelled from the spec: the selection step (section 4.2) on a
    [RowImage]: the output image holds the samples of [in1] where [mask] is
    set and the value of the scalar image [in2] elsewhere. *)
Definition row_Select (in1 in2 mask : RowImage) : M (RowImage * nat) unit :=
  fun s =>
    if negb (same_shape mask in1) then (Throws MASK_ERROR, s)
    else
      let other := default (IntSample 0) (head (default [] (head (rows in2)))) in
      let select := fun (x m : Sample) => if Sample_bin m then x else other in
      (Returns tt,
       ({| forged := true; dataType := dataType in1;
           tensorElements := tensorElements in1; ndims := ndims in1;
           rows := zip_with (zip_with select) (rows in1) (rows mask) |}, snd s)).

(** Modelled from the spec: the Separable Driver (section 4.2) on a
    [RowImage], for the line filters on samples of the type [T] that
    [DIP_OVL_NEW_FLEX] instantiates for the buffer type [dt]: one pass of the
    line filter along each flagged dimension, in the order of the
    dimensions, each pass reading what the one before wrote; the samples
    are converted to the buffer type first. A line filter of one type is not
    run on buffers of another type. *)
Definition row_Separable {T} (dt : DataType -> bool) (to_buffer : Sample -> T)
    (of_buffer : T -> Sample) (in_ : RowImage) (dataType _ : DataType)
    (process : BooleanArray) (lineFilter : list T -> list T)
    (_ : list ScanOption) : M (RowImage * nat) unit :=
  fun s =>
    if dt dataType then
      let k := numbers_per_pixel in_ in
      let step := fun (acc : list (list T) * nat) (d : nat) =>
                    if flagged process d
                    then (pass k lineFilter d (fst acc),
                          snd acc + number_of_lines k d (fst acc))
                    else acc in
      let '(out, n) := fold_left step (seq 0 (N.to_nat (ndims in_)))
                         (map (map to_buffer) (rows in_), snd s) in
      (Returns tt,
       ({| forged := true; dataType := dataType;
           tensorElements := tensorElements in_; ndims := ndims in_;
           rows := map (map of_buffer) out |}, n))
    else (Throws DATA_TYPE_NOT_SUPPORTED, s).

(** [CumSumFilter< dfloat >], for the buffer type [DT_DFLOAT]. *)
#[export] Instance row_separable : SeparableDriver RowImage binary64 := {
  ScalarImage := fun z dt =>
    {| forged := true; dataType := dt; tensorElements := 1; ndims := 0;
       rows := [[IntSample z]] |};
  Select := row_Select;
  Separable := row_Separable
                 (fun dt => match dt with DT_DFLOAT => true | _ => false end)
                 Sample_b64 FloatSample
}.

(** [CumSumFilter< sfloat >], for the buffer type [DT_SFLOAT]. *)
#[export] Instance row_separable32 : SeparableDriver RowImage binary32 := {
  ScalarImage := fun z dt =>
    {| forged := true; dataType := dt; tensorElements := 1; ndims := 0;
       rows := [[IntSample z]] |};
  Select := row_Select;
  Separable := row_Separable
                 (fun dt => match dt with DT_SFLOAT => true | _ => false end)
                 Sample_b32 (fun x => FloatSample (b64_of_b32 x))
}.


(** ** Quantities in which the properties are stated *)

(** The number of elements of [l] for which [f] holds. *)
Fixpoint how_many {A} (f : A -> bool) (l : list A) : N :=
  match l with
  | [] => 0
  | x :: l' => (if f x then 1 else 0) + how_many f l'
  end.

Definition N_sum (l : list N) : N := foldr N.add 0%N l.

(** The mask buffer of a line has a sample for each sample of the line. *)
Definition mask_fits {T} (params : ScanLineFilterParameters T) : Prop :=
  match maskBuffer params with
  | Some mask => length (inBuffer params) <= length mask
  | None => True
  end.

(** The same line, scanned without a mask. *)
Definition without_mask {T} (params : ScanLineFilterParameters T)
    : ScanLineFilterParameters T :=
  {| inBuffer := inBuffer params; maskBuffer := None;
     dimension := dimension params; position := position params;
     thread := thread params |}.

(** The mask of a line is there, and all its samples are [b]. *)
Definition mask_is {T} (b : bin) (params : ScanLineFilterParameters T) : Prop :=
  exists mask, maskBuffer params = Some mask /\
               length mask = length (inBuffer params) /\
               Forall (fun m => m = b) mask.

(** Whether a sample of value [x] is counted, [m] being the mask sample at
    its position when the scan has a mask: the value is set, and the mask
    is absent or set. *)
Definition counted (m : option bin) (x : bin) : bool := x && default true m.

(** The number of counted samples of a line. *)
Definition set_samples (params : ScanLineFilterParameters bin) : N :=
  match maskBuffer params with
  | Some mask =>
      how_many (fun p => counted (Some (fst p)) (snd p)) (zip mask (inBuffer params))
  | None => how_many (counted None) (inBuffer params)
  end.

(** What [Count] returns for the lines and the number of threads that the
    scan driver makes of its operands. *)
Definition Count_lines (threads : nat) (lines : list (ScanLineFilterParameters bin))
    : M nat N :=
  (scanLineFilter <~ Scan (Returns (threads, lines)) dip__Count.filter [] ;;
   defined (dip__Count.GetResult scanLineFilter))%dip.

(** A line of one sample [x], with the mask sample [m] when the scan has a
    mask, for thread 0. *)
Definition one_sample_line {T} (x : T) (m : option bin)
    : ScanLineFilterParameters T :=
  {| inBuffer := [x]; maskBuffer := (fun b => [b]) <$> m;
     dimension := 0; position := [0%N]; thread := 0 |}.

(** Modelled from the spec: the Scan Driver (section 4.1) on two
    [RowImage]s of the same shape, the line filter reading a pair of
    samples, one of each image; [mask] is expanded already. *)
Definition row_lines2 {T} (convert : Sample -> T) (in1 in2 : RowImage)
    (mask : option RowImage) (opts : list ScanOption) : ScanPlan (T * T) :=
  lines_of_rows (numbers_per_pixel in1) (ndims in1) opts
    (zip_with zip (map (map convert) (rows in1)) (map (map convert) (rows in2)))
    (map (map Sample_bin) <$> (rows <$> mask)).

#[export] Instance row_driver2_int : ScanDriver2 RowImage Z :=
  {| scan_lines2 := fun in1 in2 mask _ opts => row_lines2 Sample_int in1 in2 mask opts |}.

(** A line without a mask has at least one sample, and its length is a
    [dip::uint]. *)
Definition unmasked_line_has_samples {T} (params : ScanLineFilterParameters T)
    : Prop :=
  maskBuffer params = None ->
  inBuffer params <> [] /\ (N.of_nat (length (inBuffer params)) < uint_modulus)%N.

(** The line without samples and without a mask, for thread 0. *)
Definition empty_line {T} : ScanLineFilterParameters T :=
  {| inBuffer := []; maskBuffer := None; dimension := 0; position := [0%N];
     thread := 0 |}.

(** [MinMaxAccumulator] over binary64 numbers. *)
Definition b64_lowest : binary64 := S754_finite true 9007199254740991 971.
Definition b64_max : binary64 := S754_finite false 9007199254740991 971.

(** A line of a two-dimensional image for the pixel filters: the row at
    height [y], scanned along dimension 0 by thread [t]. *)
Definition row_line {T} (y : N) (samples : list T) (mask : option (list bin))
    (t : nat) : ScanLineFilterParameters T :=
  {| inBuffer := samples; maskBuffer := mask; dimension := 0;
     position := [0%N; y]; thread := t |}.

(** *** The samples that a pixel filter compares *)

Section Candidates.
Context {TPI : Type}.

(** The coordinates of the sample of index [ii] of a line: the ones of the
    first sample of the line, with [ii] added along the dimension of the
    line, as a [dip::uint]. *)
Definition sample_coordinates (params : ScanLineFilterParameters TPI) (ii : N)
    : UnsignedArray :=
  alter (fun c => uint_add c ii) (dimension params) (position params).

(** The line runs along a dimension of its image. *)
Definition dimension_exists (params : ScanLineFilterParameters TPI) : Prop :=
  dimension params < length (position params).

(** The samples of a line without a mask, from index [ii] on, each with its
    coordinates. *)
Fixpoint candidates_unmasked (params : ScanLineFilterParameters TPI) (ii : N)
    (in_ : list TPI) : list (TPI * UnsignedArray) :=
  match in_ with
  | [] => []
  | x :: in' =>
      (x, sample_coordinates params ii) :: candidates_unmasked params (ii + 1) in'
  end.

(** The samples of a line that its mask selects, from index [ii] on. *)
Fixpoint candidates_masked (params : ScanLineFilterParameters TPI) (ii : N)
    (in_ : list TPI) (mask : list bin) : list (TPI * UnsignedArray) :=
  match in_, mask with
  | x :: in', m :: mask' =>
      (if m then [(x, sample_coordinates params ii)] else [])
        ++ candidates_masked params (ii + 1) in' mask'
  | _, _ => []
  end.

Definition candidates (params : ScanLineFilterParameters TPI)
    : list (TPI * UnsignedArray) :=
  match maskBuffer params with
  | Some mask => candidates_masked params 0 (inBuffer params) mask
  | None => candidates_unmasked params 0 (inBuffer params)
  end.

(** The selected samples of a scan in the order in which the result depends
    on them: thread after thread, and for each thread its lines in the order
    in which it filters them. *)
Definition encountered (threads : nat) (lines : list (ScanLineFilterParameters TPI))
    : list (TPI * UnsignedArray) :=
  concat (map (fun t => concat (map candidates
                                  (filter (fun params => thread params = t) lines)))
            (seq 0 threads)).

(** One comparison of a search: [cand] replaces [best] when its value beats
    the one of [best]. *)
Definition pick (beats : TPI -> TPI -> bool) (best cand : TPI * UnsignedArray)
    : TPI * UnsignedArray :=
  if beats (fst cand) (fst best) then cand else best.

(** The per-thread slots of a pixel filter, value and coordinates. *)
Definition slots (this : PixelState TPI) : list (TPI * UnsignedArray) :=
  zip (value_ this) (coord_ this).

(** What the comparisons of a sample type have to satisfy, on the values
    [in_range], for a search that starts from [initial] ([lowest()] with [>]
    and [>=], [max()] with [<] and [<=]): a total preorder, in which no
    value is beyond [initial] and only [initial] is not strictly better than
    it. *)
Record PixelOrder (initial : TPI) (strict weak : TPI -> TPI -> bool)
    (in_range : TPI -> Prop) : Prop := {
  weak_not_strict : forall a b, weak a b = negb (strict b a);
  strict_trans : forall a b c,
    strict a b = true -> strict b c = true -> strict a c = true;
  strict_negtrans : forall a b c,
    strict a b = false -> strict b c = false -> strict a c = false;
  initial_in_range : in_range initial;
  initial_least : forall v, in_range v -> strict initial v = false;
  initial_only : forall v, in_range v -> strict v initial = false -> v = initial
}.

(** Two slots hold the same value and, when that value is strictly better
    than [initial], the same coordinates. *)
Definition same_best (initial : TPI) (strict : TPI -> TPI -> bool)
    (a b : TPI * UnsignedArray) : Prop :=
  fst a = fst b /\ (strict (fst a) initial = true -> snd a = snd b).

End Candidates.

#[export] Instance dimension_exists_dec {TPI : Type}
    (params : ScanLineFilterParameters TPI) : Decision (dimension_exists params) :=
  Nat.lt_dec (dimension params) (length (position params)).

(** The sample of index [ii] of the line has the value [x], and the mask of
    the line, when there is one, selects it. *)
Definition selected_at {T} (params : ScanLineFilterParameters T) (ii : nat) (x : T)
    : Prop :=
  inBuffer params !! ii = Some x
  /\ match maskBuffer params with
     | Some mask => mask !! ii = Some true
     | None => True
     end.

(** [c] is the position in the image of the sample of index [ii] of the
    line: the position of the first sample of the line, with [ii] added, as
    a [dip::uint], along the dimension of the line. *)
Definition position_of {T} (params : ScanLineFilterParameters T) (ii : nat)
    (c : UnsignedArray) : Prop :=
  exists p, position params !! dimension params = Some p
            /\ c = <[dimension params := uint_add p (N.of_nat ii)]> (position params).

(** The values of an integer sample type. *)
Definition integer_range (lo hi : Z) (v : Z) : Prop := (lo <= v <= hi)%Z.

(** The outcome of the search of a pixel filter along one line: the local
    [value] and [coord] of [Filter] when its loop ends. *)
Definition line_best {TPI : Type} (initial : TPI) (strict weak : TPI -> TPI -> bool)
    (first : bool) (params : ScanLineFilterParameters TPI) : TPI * UnsignedArray :=
  fold_left (pick (dip__Pixel.beats strict weak first)) (candidates params)
    (initial, replicate (length (position params)) 0%N).

(** The search along the candidates [cands] of a line, from the slot [s]. On
    a line that runs along a dimension of its image it is the fold of [pick];
    on another line it has an outcome only when no candidate is recorded. *)
Definition line_search {TPI : Type} (strict weak : TPI -> TPI -> bool)
    (first : bool) (params : ScanLineFilterParameters TPI)
    (cands : list (TPI * UnsignedArray)) (s : TPI * UnsignedArray)
    : option (TPI * UnsignedArray) :=
  if decide (dimension_exists params)
  then Some (fold_left (pick (dip__Pixel.beats strict weak first)) cands s)
  else if existsb (fun e => dip__Pixel.beats strict weak first (fst e) (fst s)) cands
       then None
       else Some s.

(** *** The samples that an accumulating filter pushes *)

(** The samples of a line that its mask selects. *)
Fixpoint select_masked {T} (in_ : list T) (mask : list bin) : list T :=
  match in_, mask with
  | x :: in', m :: mask' => (if m then [x] else []) ++ select_masked in' mask'
  | _, _ => []
  end.

Definition selected {T} (params : ScanLineFilterParameters T) : list T :=
  match maskBuffer params with
  | Some mask => select_masked (inBuffer params) mask
  | None => inBuffer params
  end.

(** The selected samples of a scan, thread after thread, and for each thread
    its lines in the order in which it filters them. *)
Definition scanned_samples {T} (threads : nat)
    (lines : list (ScanLineFilterParameters T)) : list T :=
  concat (map (fun t => concat (map selected
                                  (filter (fun params => thread params = t) lines)))
            (seq 0 threads)).

(** The accumulator that has been pushed the samples [l], one after the
    other, from a new one. *)
Definition accumulate {T dfloat A : Type} (static_cast : T -> dfloat) (new : A)
    (Push : A -> dfloat -> A) (l : list T) : A :=
  fold_left (fun vars x => Push vars (static_cast x)) l new.

(** [MinMaxAccumulator] over the integers, for images of an integer type:
    the conversion to [dfloat] is exact and keeps the order. *)
Definition Z_minmax_new (lo hi : Z) : MinMaxAccumulator.t Z :=
  MinMaxAccumulator.new lo hi.


(** *** Quantities for the further properties of [Count] *)

(** The same line, scanned with the complement of its mask. *)
Definition complement_mask {T} (params : ScanLineFilterParameters T)
    : ScanLineFilterParameters T :=
  {| inBuffer := inBuffer params; maskBuffer := map negb <$> maskBuffer params;
     dimension := dimension params; position := position params;
     thread := thread params |}.

(** The line has a mask, with a sample for each sample of the line. *)
Definition has_mask {T} (params : ScanLineFilterParameters T) : Prop :=
  exists mask, maskBuffer params = Some mask
               /\ length (inBuffer params) <= length mask.

(** The number of samples of the lines of a scan. *)
Definition number_of_samples {T} (lines : list (ScanLineFilterParameters T)) : N :=
  N_sum (map (fun params => N.of_nat (length (inBuffer params))) lines).

(** *** Quantities for the further properties of the pixel filters *)

(** The line at the same place without any sample (and without a mask). *)
Definition without_samples {T} (params : ScanLineFilterParameters T)
    : ScanLineFilterParameters T :=
  {| inBuffer := []; maskBuffer := None;
     dimension := dimension params; position := position params;
     thread := thread params |}.

(** The same line, each sample replaced by its image under [f]. *)
Definition map_samples {T U} (f : T -> U) (params : ScanLineFilterParameters T)
    : ScanLineFilterParameters U :=
  {| inBuffer := map f (inBuffer params); maskBuffer := maskBuffer params;
     dimension := dimension params; position := position params;
     thread := thread params |}.

(** The same state of a pixel filter, each value replaced by its image
    under [f]. *)
Definition map_values {T U} (f : T -> U) (this : PixelState T) : PixelState U :=
  {| coord_ := coord_ this; value_ := map f (value_ this); first_ := first_ this |}.

(** The reflection of the values between [lo] and [hi]: it exchanges the
    lowest and the highest value, and reverses the order. *)
Definition mirror (lo hi : Z) (x : Z) : Z := (lo + hi - x)%Z.

(** *** Quantities for the further properties of [CumSumFilter] *)

(** A line in which the samples at the positions that the mask leaves out
    have been replaced by [zero] (the selection step that [CumulativeSum]
    asks for, with the image [Image( 0, dataType )]). *)
Definition zero_where_masked {T} (zero : T) (in_ : list T) (mask : list bin)
    : list T :=
  zip_with (fun x (m : bin) => if m then x else zero) in_ mask.

(** *** An accumulator to run the accumulating filters on *)

(** The accumulator that keeps what it is pushed, in the order of the
    pushes; [+=] appends. With it, the result of a scan shows which samples
    a filter pushes, and in which order. *)
Module Recording.
Definition new {X : Type} : list X := [].
Definition Push {X : Type} (acc : list X) (x : X) : list X := acc ++ [x].
Definition Push_pair {X : Type} (acc : list (X * X)) (x y : X) : list (X * X) :=
  acc ++ [(x, y)].
Definition Push_at {P X : Type} (acc : list (P * X)) (pos : P) (x : X)
    : list (P * X) :=
  acc ++ [(pos, x)].
Definition plus_eq {X : Type} (a b : list X) : list X := a ++ b.
End Recording.

(** The accumulator that has been pushed the pairs [l], one after the
    other, from a new one. *)
Definition accumulate_pairs {T dfloat A : Type} (static_cast : T -> dfloat) (new : A)
    (Push : A -> dfloat -> dfloat -> A) (l : list (T * T)) : A :=
  fold_left (fun vars x => Push vars (static_cast (fst x)) (static_cast (snd x))) l new.

(** *** Quantities for the properties of [dip__Moments] *)

Section MomentLines.
Context {TPI dfloat : Type} `{!FloatArith dfloat}.

(** The coordinates, as [dfloat] values, that [dip__Moments::Filter] holds
    in [pos] when it reads the sample at index [ii] of a line: the position
    of the line, converted, with [1.0] added [ii] times along the scanned
    dimension. *)
Definition float_position (params : ScanLineFilterParameters TPI) (ii : nat)
    : FloatArray dfloat :=
  alter (Nat.iter ii (fun p => f_add p (f_of_uint 1))) (dimension params)
    (map f_of_uint (position params)).

(** The line whose samples are the samples of [params], each with these
    coordinates. *)
Definition moment_line (params : ScanLineFilterParameters TPI)
    : ScanLineFilterParameters (FloatArray dfloat * TPI) :=
  {| inBuffer := imap (fun ii x => (float_position params ii, x)) (inBuffer params);
     maskBuffer := maskBuffer params;
     dimension := dimension params; position := position params;
     thread := thread params |}.

End MomentLines.

(** The accumulator that has been pushed the samples [l], each with its
    coordinates, one after the other, from a new one. *)
Definition accumulate_moments {TPI dfloat A : Type} (static_cast : TPI -> dfloat)
    (new : A) (Push : A -> list dfloat -> dfloat -> A)
    (l : list (list dfloat * TPI)) : A :=
  fold_left (fun vars e => Push vars (fst e) (static_cast (snd e))) l new.


(** *** The samples of a line, without its place in the schedule *)

(** What a line holds, apart from its position and the thread it is routed
    to: its samples and the samples of its mask. *)
Definition line_samples {T} (params : ScanLineFilterParameters T)
    : list T * option (list bin) :=
  (inBuffer params, maskBuffer params).

(** *** What a call of [Filter] may change *)

(** The vector [v'] of per-thread slots is the vector [v] with, at most, the
    slot of [thread] changed. *)
Definition only_slot_changed {X} (thread : nat) (v v' : list X) : Prop :=
  length v' = length v /\ forall t, t <> thread -> v' !! t = v !! t.

(** * Properties *)

(** ** Machine integers *)

Lemma wrap_lt (n : N) : (wrap n < uint_modulus)%N.
Proof. unfold wrap. apply N.mod_lt. discriminate. Qed.

Lemma wrap_small (n : N) : (n < uint_modulus)%N -> wrap n = n.
Proof. intros H. unfold wrap. now apply N.mod_small. Qed.

Lemma wrap_wrap (n : N) : wrap (wrap n) = wrap n.
Proof. apply wrap_small, wrap_lt. Qed.

Lemma wrap_add_l (a b : N) : wrap (wrap a + b) = wrap (a + b).
Proof. unfold wrap. apply N.Div0.add_mod_idemp_l. Qed.

Lemma wrap_add_r (a b : N) : wrap (a + wrap b) = wrap (a + b).
Proof. unfold wrap. apply N.Div0.add_mod_idemp_r. Qed.

Lemma wrap_eq_add (a a' b : N) : wrap a = wrap a' -> wrap (a + b) = wrap (a' + b).
Proof. intros H. rewrite <- (wrap_add_l a), H. apply wrap_add_l. Qed.

(** ** The monad of calls *)

Lemma bind_returns {St A B} (m : M St A) (k : A -> M St B) s a s' :
  m s = (Returns a, s') -> bind m k s = k a s'.
Proof. unfold bind. now intros ->. Qed.

Lemma bind_throws {St A B} (m : M St A) (k : A -> M St B) s e s' :
  m s = (Throws e, s') -> bind m k s = (Throws e, s').
Proof. unfold bind. now intros ->. Qed.

Lemma throw_if_true {St A} (e : Error) (k : M St A) s :
  bind (DIP_THROW_IF true e) (fun _ => k) s = (Throws e, s).
Proof. reflexivity. Qed.

Lemma throw_if_false {St A} (e : Error) (k : M St A) s :
  bind (DIP_THROW_IF false e) (fun _ => k) s = k s.
Proof. reflexivity. Qed.
(** ** Count *)

Lemma count_unmasked_spec (in_ : list bin) (c : N) :
  wrap (dip__Count.count_unmasked in_ c) = wrap (c + how_many (counted None) in_).
Proof.
  revert c. induction in_ as [|x in_ IH]; intros c; simpl.
  - now rewrite N.add_0_r.
  - rewrite IH. destruct x; simpl.
    + unfold uint_succ, uint_add. rewrite wrap_add_l. f_equal. lia.
    + f_equal.
Qed.

Lemma count_masked_spec (in_ mask : list bin) (c : N) :
  length in_ <= length mask ->
  exists r, dip__Count.count_masked in_ mask c = Some r /\
    wrap r = wrap (c + how_many (fun p => counted (Some (fst p)) (snd p)) (zip mask in_)).
Proof.
  revert mask c. induction in_ as [|x in_ IH]; intros mask c Hlen.
  - exists c. split; [reflexivity|]. destruct mask; simpl; now rewrite N.add_0_r.
  - destruct mask as [|m mask]; simpl in Hlen; [lia|].
    destruct (IH mask (if m && x then uint_succ c else c)) as (r & Hr & Hw); [lia|].
    exists r. split; [exact Hr|]. rewrite Hw. simpl.
    unfold counted; simpl. rewrite (andb_comm x m).
    destruct (m && x).
    + unfold uint_succ, uint_add. rewrite wrap_add_l. f_equal. lia.
    + f_equal.
Qed.

Lemma Count_Filter_spec (params : ScanLineFilterParameters bin) (counts_ : list N) (c : N) :
  mask_fits params ->
  counts_ !! thread params = Some c ->
  dip__Count.Filter params counts_ =
    Some (<[thread params := wrap (c + set_samples params)]> counts_).
Proof.
  intros Hfit Hc. unfold dip__Count.Filter, set_samples, mask_fits in *.
  destruct (maskBuffer params) as [mask|].
  - destruct (count_masked_spec (inBuffer params) mask 0 Hfit) as (r & -> & Hw).
    simpl. rewrite Hc. simpl. do 2 f_equal.
    unfold uint_add. rewrite <- wrap_add_r, Hw, wrap_add_r. reflexivity.
  - simpl. rewrite Hc. simpl. do 2 f_equal.
    unfold uint_add. rewrite <- wrap_add_r, count_unmasked_spec, wrap_add_r.
    reflexivity.
Qed.

Lemma N_sum_insert (l : list N) (t : nat) (c x : N) :
  l !! t = Some c -> (N_sum (<[t := x]> l) + c = N_sum l + x)%N.
Proof.
  revert t. induction l as [|y l IH]; intros [|t] H; simplify_eq/=; [lia|].
  specialize (IH t H). unfold N_sum in *. lia.
Qed.

Lemma Count_run_lines (lines : list (ScanLineFilterParameters bin)) :
  forall (counts_ : list N) (n : nat),
    Forall (fun params => thread params < length counts_) lines ->
    Forall mask_fits lines ->
    Forall (fun c => (c < uint_modulus)%N) counts_ ->
    exists counts' : list N,
      run_lines dip__Count.filter lines counts_ n = (Returns counts', n + length lines)
      /\ length counts' = length counts_
      /\ Forall (fun c => (c < uint_modulus)%N) counts'
      /\ (forall t c, counts_ !! t = Some c ->
            counts' !! t =
              Some (wrap (c + N_sum (map set_samples
                                       (filter (fun params => thread params = t) lines)))))
      /\ wrap (N_sum counts') = wrap (N_sum counts_ + N_sum (map set_samples lines)).
Proof.
  induction lines as [|params lines IH]; intros counts_ n Hthr Hfit Hred.
  - exists counts_. simpl. split; [unfold ret; f_equal; lia|].
    split; [reflexivity|]. split; [exact Hred|]. split.
    + intros t c Hc. rewrite Hc, N.add_0_r, wrap_small; [reflexivity|].
      eapply Forall_lookup_1 in Hred; eauto.
    + now rewrite N.add_0_r.
  - inversion Hthr as [|? ? Ht Hthr']; subst. inversion Hfit as [|? ? Hf Hfit']; subst.
    destruct (lookup_lt_is_Some_2 counts_ (thread params) Ht) as [c0 Hc0].
    pose proof (Count_Filter_spec params counts_ c0 Hf Hc0) as HF.
    set (counts1 := <[thread params := wrap (c0 + set_samples params)]> counts_) in *.
    assert (Hlen1 : length counts1 = length counts_) by apply length_insert.
    destruct (IH counts1 (S n)) as (counts' & Hrun & Hlen & Hred' & Hslot & Htot).
    { rewrite Hlen1. exact Hthr'. }
    { exact Hfit'. }
    { apply Forall_insert; [exact Hred|apply wrap_lt]. }
    exists counts'. split.
    { cbn [run_lines]. change (Filter dip__Count.filter params counts_)
        with (dip__Count.Filter params counts_). rewrite HF, Hrun.
      f_equal. simpl. lia. }
    split; [congruence|]. split; [exact Hred'|]. split.
    + intros t c Hc. rewrite filter_cons.
      destruct (decide (thread params = t)) as [<-|Hne].
      * rewrite (Hslot (thread params) (wrap (c0 + set_samples params))).
        2:{ unfold counts1. rewrite list_lookup_insert_eq; [reflexivity|exact Ht]. }
        assert (c = c0) as -> by congruence.
        f_equal. rewrite wrap_add_l. simpl. f_equal. unfold N_sum. simpl. lia.
      * rewrite (Hslot t c); [reflexivity|].
        unfold counts1. rewrite list_lookup_insert_ne; [exact Hc|exact Hne].
    + rewrite Htot. simpl.
      pose proof (N_sum_insert counts_ (thread params) c0
                    (wrap (c0 + set_samples params)) Hc0) as Hins.
      fold counts1 in Hins.
      assert (Heq : wrap (N_sum counts1 + c0) = wrap (N_sum counts_ + (c0 + set_samples params))).
      { rewrite Hins. apply wrap_add_r. }
      unfold N_sum in *. simpl.
      unfold wrap in *.
      apply (f_equal Z.of_N) in Heq. rewrite !N2Z.inj_mod, !N2Z.inj_add in Heq.
      apply N2Z.inj. rewrite !N2Z.inj_mod, !N2Z.inj_add.
      set (a := Z.of_N (foldr N.add 0%N counts1)) in *.
      set (b := Z.of_N (foldr N.add 0%N counts_)) in *.
      set (k := Z.of_N (set_samples params)) in *.
      set (r := Z.of_N (foldr N.add 0%N (map set_samples lines))) in *.
      set (z := Z.of_N c0) in *. set (m := Z.of_N uint_modulus) in *.
      replace (a + r)%Z with ((a + z) + (r - z))%Z by lia.
      replace (b + (k + r))%Z with ((b + (z + k)) + (r - z))%Z by lia.
      rewrite (Z.add_mod (a + z)), (Z.add_mod (b + (z + k))) by (subst m; discriminate).
      now rewrite Heq.
Qed.

Lemma Count_GetResult_sum (counts_ : list N) :
  counts_ <> [] ->
  Forall (fun c => (c < uint_modulus)%N) counts_ ->
  dip__Count.GetResult counts_ = Some (wrap (N_sum counts_)).
Proof.
  destruct counts_ as [|c rest]; [congruence|]. intros _ Hred. simpl. f_equal.
  inversion Hred as [|? ? Hc _]; subst. clear Hred.
  revert c Hc. induction rest as [|x rest IH]; intros c Hc; simpl.
  - unfold N_sum. simpl. now rewrite N.add_0_r, wrap_small.
  - rewrite IH by apply wrap_lt. unfold uint_add. rewrite wrap_add_l.
    f_equal. unfold N_sum. simpl. lia.
Qed.

Lemma how_many_all_false (mask in_ : list bin) :
  Forall (fun m => m = false) mask ->
  how_many (fun p => counted (Some (fst p)) (snd p)) (zip mask in_) = 0%N.
Proof.
  intros H. revert in_. induction H as [|m mask -> _ IH]; intros [|x in_]; simpl; try reflexivity.
  rewrite IH. unfold counted. simpl. now rewrite andb_false_r.
Qed.

Lemma how_many_all_true (mask in_ : list bin) :
  length mask = length in_ ->
  Forall (fun m => m = true) mask ->
  how_many (fun p => counted (Some (fst p)) (snd p)) (zip mask in_) =
  how_many (counted None) in_.
Proof.
  intros Hlen H. revert in_ Hlen.
  induction H as [|m mask -> _ IH]; intros [|x in_] Hlen; simpl in *; try lia.
  rewrite IH by lia. reflexivity.
Qed.

Lemma mask_is_fits {T} (b : bin) (params : ScanLineFilterParameters T) :
  mask_is b params -> mask_fits params.
Proof. intros (mask & Hm & Hlen & _). unfold mask_fits. rewrite Hm. lia. Qed.

Lemma set_samples_mask_false (params : ScanLineFilterParameters bin) :
  mask_is false params -> set_samples params = 0%N.
Proof.
  intros (mask & Hm & _ & Hall). unfold set_samples. rewrite Hm.
  now apply how_many_all_false.
Qed.

Lemma set_samples_mask_true (params : ScanLineFilterParameters bin) :
  mask_is true params -> set_samples params = set_samples (without_mask params).
Proof.
  intros (mask & Hm & Hlen & Hall). unfold set_samples. rewrite Hm. simpl.
  now apply how_many_all_true.
Qed.

Lemma Count_lines_spec (threads : nat) (lines : list (ScanLineFilterParameters bin))
    (n : nat) :
  plan_ok threads lines ->
  Forall mask_fits lines ->
  exists counts_ : list N,
    Scan (Returns (threads, lines)) dip__Count.filter [] n
      = (Returns counts_, n + length lines)
    /\ length counts_ = threads
    /\ (forall t, t < threads ->
          counts_ !! t =
            Some (wrap (N_sum (map set_samples
                                 (filter (fun params => thread params = t) lines)))))
    /\ dip__Count.GetResult counts_ = Some (wrap (N_sum counts_))
    /\ Count_lines threads lines n
         = (Returns (wrap (N_sum (map set_samples lines))), n + length lines).
Proof.
  intros [Hpos Hthr] Hfit.
  assert (Hinit : dip__Count.SetNumberOfThreads threads [] = replicate threads 0%N).
  { unfold dip__Count.SetNumberOfThreads. apply resize_nil. }
  destruct (Count_run_lines lines (replicate threads 0%N) n)
    as (counts' & Hrun & Hlen & Hred & Hslot & Htot).
  { now rewrite length_replicate. }
  { exact Hfit. }
  { apply Forall_replicate. reflexivity. }
  rewrite length_replicate in Hlen.
  assert (Hscan : Scan (Returns (threads, lines)) dip__Count.filter [] n
                  = (Returns counts', n + length lines)).
  { unfold Scan. change (SetNumberOfThreads dip__Count.filter threads [])
      with (dip__Count.SetNumberOfThreads threads []). now rewrite Hinit. }
  assert (Hres : dip__Count.GetResult counts' = Some (wrap (N_sum counts'))).
  { apply Count_GetResult_sum; [|exact Hred].
    intros ->. simpl in Hlen. lia. }
  exists counts'. repeat split; try assumption.
  - intros t Ht. rewrite (Hslot t 0%N); [now rewrite N.add_0_l|].
    now apply lookup_replicate_2.
  - unfold Count_lines. erewrite bind_returns by exact Hscan.
    rewrite Hres. unfold defined, ret. do 2 f_equal.
    rewrite Htot. f_equal.
    assert (N_sum (replicate threads 0%N) = 0%N) as ->; [|reflexivity].
    clear. induction threads; simpl; [reflexivity|]. unfold N_sum in *. simpl. lia.
Qed.

Lemma Count_unfold {Image : Type} `{!ImageOps Image} `{!ScanDriver Image bin}
    (in_ mask : Image) (threads : nat) (lines : list (ScanLineFilterParameters bin)) :
  IsForged in_ = true ->
  IsScalar in_ = true ->
  scan_lines in_ mask DT_BIN [] = Returns (threads, lines) ->
  Count in_ mask = Count_lines threads lines.
Proof.
  intros Hf Hs Hplan. unfold Count, Count_lines, ScanSingleInput.
  rewrite Hf, Hs, Hplan. reflexivity.
Qed.

Lemma Count_one_sample (x : bin) (m : option bin) (c : N) :
  dip__Count.Filter (one_sample_line x m) [c]
  = Some [if counted m x then uint_succ c else uint_add c 0].
Proof. destruct x, m as [[|]|]; reflexivity. Qed.

(** C6, as the claim states it: at a sample that is not set, scanned without
    a mask, "the mask is absent or the mask is true and the value is true"
    holds, and the counter is not incremented. *)
Lemma Count_unmasked_clear_sample_is_not_counted :
  let x := false in
  let m : option bin := None in
  (m = None \/ (m = Some true /\ x = true))
  /\ dip__Count.Filter (one_sample_line x m) [0%N] = Some [0%N]
  /\ dip__Count.Filter (one_sample_line x m) [0%N] <> Some [uint_succ 0]
  /\ Count (image DT_BIN 1 [[0%Z]]) raw 0 = (Returns 0%N, 1).
Proof.
  cbv zeta. split; [now left|]. split; [reflexivity|]. split; [|reflexivity].
  vm_compute. discriminate.
Qed.

(** C6, amended: [Count] increments the unsigned counter of the thread for a
    sample exactly when the value is set and the mask is absent or set
    ([counted]); the counter of a thread is the number of counted samples of
    its lines, the result is the sum of the counters of the threads, which is
    the number of counted samples of all lines (modulo [2^64]); with a mask
    that is all false the result is 0, and with one that is all true it is
    the result of the scan without a mask. *)
Theorem Count_counts_set_samples_that_the_mask_selects
    (threads : nat) (lines : list (ScanLineFilterParameters bin)) (n : nat) :
  plan_ok threads lines ->
  Forall mask_fits lines ->
  (forall (x : bin) (m : option bin) (c : N),
      dip__Count.Filter (one_sample_line x m) [c]
      = Some [if counted m x then uint_succ c else uint_add c 0])
  /\ (exists counts_ : list N,
        Scan (Returns (threads, lines)) dip__Count.filter [] n
          = (Returns counts_, n + length lines)
        /\ length counts_ = threads
        /\ (forall t, t < threads ->
              counts_ !! t =
                Some (wrap (N_sum (map set_samples
                                     (filter (fun params => thread params = t) lines)))))
        /\ dip__Count.GetResult counts_ = Some (wrap (N_sum counts_)))
  /\ Count_lines threads lines n
       = (Returns (wrap (N_sum (map set_samples lines))), n + length lines)
  /\ (Forall (mask_is false) lines ->
        Count_lines threads lines n = (Returns 0%N, n + length lines))
  /\ (Forall (mask_is true) lines ->
        Count_lines threads lines n = Count_lines threads (map without_mask lines) n)
  /\ (forall (Image : Type) (ops : ImageOps Image) (driver : ScanDriver Image bin)
             (in_ mask : Image),
        IsForged in_ = true -> IsScalar in_ = true ->
        scan_lines in_ mask DT_BIN [] = Returns (threads, lines) ->
        Count in_ mask n
          = (Returns (wrap (N_sum (map set_samples lines))), n + length lines)).
Proof.
  intros Hplan Hfit.
  destruct (Count_lines_spec threads lines n Hplan Hfit)
    as (counts_ & Hscan & Hlen & Hslot & Hres & Hcount).
  split; [exact Count_one_sample|].
  split; [exists counts_; auto|].
  split; [exact Hcount|].
  split; [|split].
  - intros Hfalse. rewrite Hcount. do 2 f_equal.
    assert (map set_samples lines = map (fun _ => 0%N) lines) as ->.
    { apply map_ext_Forall. eapply Forall_impl; [exact Hfalse|].
      intros params. apply set_samples_mask_false. }
    clear. induction lines; simpl; [reflexivity|]. unfold N_sum in *. simpl.
    now rewrite N.add_0_l.
  - intros Htrue.
    destruct (Count_lines_spec threads (map without_mask lines) n)
      as (_ & _ & _ & _ & _ & Hcount').
    { destruct Hplan as [Hpos Hthr]. split; [exact Hpos|].
      apply Forall_map. exact Hthr. }
    { apply Forall_map. eapply Forall_impl; [exact Hfit|]. intros; exact I. }
    rewrite Hcount, Hcount', length_map. do 4 f_equal.
    rewrite map_map. apply map_ext_Forall.
    eapply Forall_impl; [exact Htrue|]. intros params.
    apply set_samples_mask_true.
  - intros Image ops driver in_ mask Hf Hs Hlines.
    erewrite Count_unfold by eassumption. exact Hcount.
Qed.

Lemma Count_counts_set_samples_witness :
  Count (image DT_BIN 2 [[1; 0; 1]; [0; 1; 1]]%Z)
        (image DT_BIN 2 [[1; 1; 0]; [1; 1; 1]]%Z) 0
  = (Returns 3%N, 2).
Proof.
  set (in_ := image DT_BIN 2 [[1; 0; 1]; [0; 1; 1]]%Z).
  set (mask := image DT_BIN 2 [[1; 1; 0]; [1; 1; 1]]%Z).
  destruct (scan_lines in_ mask DT_BIN []) as [[threads lines]| |] eqn:Hlines;
    try discriminate.
  injection Hlines as <- <-.
  refine (proj2 (proj2 (proj2 (proj2 (proj2
    (Count_counts_set_samples_that_the_mask_selects 1 _ 0 _ _)))))
    RowImage _ _ in_ mask eq_refl eq_refl eq_refl).
  - split; [lia|]. repeat constructor.
  - repeat constructor.
Defined.

(** ** Precondition violations *)

Section Preconditions.
Context {Image : Type} `{!ImageOps Image}.
Context `{!ScanDriver Image bin}.
Context (TPI : RealType) `{!ScanDriver Image TPI}.
Context {T dfloat : Type} `{!FloatArith dfloat}.
Context `{!ScanDriver Image T} `{!ScanDriver2 Image T}.
Context (static_cast : T -> dfloat).
Context {F : Type} (zero : F) (add : F -> F -> F) `{!SeparableDriver Image F}.
Context {MinMaxAccumulator StatisticsAccumulator : Type}.
Context {CovarianceAccumulator MomentAccumulator : Type}.
Context (mm_new : MinMaxAccumulator).
Context (mm_Push : MinMaxAccumulator -> dfloat -> MinMaxAccumulator).
Context (mm_Push2 : MinMaxAccumulator -> dfloat -> dfloat -> MinMaxAccumulator).
Context (mm_plus_eq : MinMaxAccumulator -> MinMaxAccumulator -> MinMaxAccumulator).
Context (st_new : StatisticsAccumulator).
Context (st_Push : StatisticsAccumulator -> dfloat -> StatisticsAccumulator).
Context (st_plus_eq : StatisticsAccumulator -> StatisticsAccumulator -> StatisticsAccumulator).
Context (cv_new : CovarianceAccumulator).
Context (cv_Push : CovarianceAccumulator -> dfloat -> dfloat -> CovarianceAccumulator).
Context (cv_plus_eq : CovarianceAccumulator -> CovarianceAccumulator -> CovarianceAccumulator).
Context (mo_new : nat -> MomentAccumulator).
Context (mo_Push : MomentAccumulator -> FloatArray dfloat -> dfloat -> MomentAccumulator).
Context (mo_plus_eq : MomentAccumulator -> MomentAccumulator -> MomentAccumulator).

(** C5: every statistics function tests its preconditions before it hands
    any line to a line filter. With an input image that is not forged the
    call throws [IMAGE_NOT_FORGED]; with a forged input image that is not
    scalar, [Count], [MaximumPixel], [MinimumPixel], [CenterOfMass] and
    [Moments] throw [IMAGE_NOT_SCALAR]; with a forged input image of
    dimensionality below 1, [CumulativeSum] throws
    [DIMENSIONALITY_NOT_SUPPORTED]. In each case the count [n] of lines
    scanned is as it was before the call, and so is the output image [out]
    of [CumulativeSum]. *)
Theorem precondition_violations_are_thrown_before_any_line_is_scanned
    (in_ other mask out : Image) (process : BooleanArray) (positionFlag : string)
    (n : nat) :
  (IsForged in_ = false ->
     Count in_ mask n = (Throws IMAGE_NOT_FORGED, n)
     /\ MaximumPixel TPI in_ mask positionFlag n = (Throws IMAGE_NOT_FORGED, n)
     /\ MinimumPixel TPI in_ mask positionFlag n = (Throws IMAGE_NOT_FORGED, n)
     /\ CumulativeSum zero add in_ mask process (out, n)
          = (Throws IMAGE_NOT_FORGED, (out, n))
     /\ MaximumAndMinimum static_cast mm_new mm_Push mm_Push2 mm_plus_eq in_ mask n
          = (Throws IMAGE_NOT_FORGED, n)
     /\ SampleStatistics static_cast st_new st_Push st_plus_eq in_ mask n
          = (Throws IMAGE_NOT_FORGED, n)
     /\ Covariance static_cast cv_new cv_Push cv_plus_eq in_ other mask n
          = (Throws IMAGE_NOT_FORGED, n)
     /\ Covariance static_cast cv_new cv_Push cv_plus_eq other in_ mask n
          = (Throws IMAGE_NOT_FORGED, n)
     /\ CenterOfMass static_cast in_ mask n = (Throws IMAGE_NOT_FORGED, n)
     /\ Moments static_cast mo_new mo_Push mo_plus_eq in_ mask n
          = (Throws IMAGE_NOT_FORGED, n))
  /\ (IsForged in_ = true -> IsScalar in_ = false ->
     Count in_ mask n = (Throws IMAGE_NOT_SCALAR, n)
     /\ MaximumPixel TPI in_ mask positionFlag n = (Throws IMAGE_NOT_SCALAR, n)
     /\ MinimumPixel TPI in_ mask positionFlag n = (Throws IMAGE_NOT_SCALAR, n)
     /\ CenterOfMass static_cast in_ mask n = (Throws IMAGE_NOT_SCALAR, n)
     /\ Moments static_cast mo_new mo_Push mo_plus_eq in_ mask n
          = (Throws IMAGE_NOT_SCALAR, n))
  /\ (IsForged in_ = true -> (Dimensionality in_ < 1)%N ->
     CumulativeSum zero add in_ mask process (out, n)
       = (Throws DIMENSIONALITY_NOT_SUPPORTED, (out, n))).
Proof.
  split; [|split].
  - intros Hf.
    unfold Count, MaximumPixel, MinimumPixel, CumulativeSum, MaximumAndMinimum,
      SampleStatistics, Covariance, CenterOfMass, Moments.
    rewrite Hf. simpl negb. rewrite orb_true_r.
    repeat split; reflexivity.
  - intros Hf Hs.
    unfold Count, MaximumPixel, MinimumPixel, CenterOfMass, Moments.
    rewrite Hf, Hs. repeat split; reflexivity.
  - intros Hf Hd. unfold CumulativeSum. rewrite Hf.
    apply N.ltb_lt in Hd. simpl negb. rewrite throw_if_false, Hd. reflexivity.
Qed.

(** C10: a [positionFlag] that is not ["first"] makes [first] false: the
    call is the one with ["last"], whatever the string is; it runs the line
    filter with [first_ = false] and throws nothing of its own. *)
Theorem positionFlag_other_than_first_selects_the_last
    (in_ mask : Image) (positionFlag : string) :
  positionFlag <> "first" ->
  MaximumPixel TPI in_ mask positionFlag = MaximumPixel TPI in_ mask "last"
  /\ MinimumPixel TPI in_ mask positionFlag = MinimumPixel TPI in_ mask "last"
  /\ (IsForged in_ = true -> IsScalar in_ = true ->
      OVL_REAL (SuggestReal (DataTypeOf in_)) = true ->
      MaximumPixel TPI in_ mask positionFlag
      = (scanLineFilter <~ ScanSingleInput in_ mask (SuggestReal (DataTypeOf in_))
                             (dip__MaxPixel.filter TPI) (dip__Pixel.new false)
                             [NeedCoordinates] ;;
         defined (dip__MaxPixel.GetResult TPI scanLineFilter))%dip
      /\ MinimumPixel TPI in_ mask positionFlag
      = (scanLineFilter <~ ScanSingleInput in_ mask (SuggestReal (DataTypeOf in_))
                             (dip__MinPixel.filter TPI) (dip__Pixel.new false)
                             [NeedCoordinates] ;;
         defined (dip__MinPixel.GetResult TPI scanLineFilter))%dip).
Proof.
  intros Hflag. apply String.eqb_neq in Hflag.
  unfold MaximumPixel, MinimumPixel. rewrite Hflag.
  split; [reflexivity|]. split; [reflexivity|].
  intros -> -> ->. split; reflexivity.
Qed.

End Preconditions.

Lemma precondition_violations_witness :
  Count raw raw 0 = (Throws IMAGE_NOT_FORGED, 0)
  /\ CenterOfMass b64_of_Z
       {| forged := true; dataType := DT_UINT8; tensorElements := 3; ndims := 1;
          rows := [[IntSample 1; IntSample 2; IntSample 3]] |} raw 0
     = (Throws IMAGE_NOT_SCALAR, 0)
  /\ CumulativeSum f_zero f_add (image DT_DFLOAT 0 [[7%Z]]) raw [] (raw, 0)
     = (Throws DIMENSIONALITY_NOT_SUPPORTED, (raw, 0)).
Proof.
  split; [|split].
  - exact (proj1 (proj1
      (precondition_violations_are_thrown_before_any_line_is_scanned
         (Image := RowImage) uint8 (T := Z) (dfloat := binary64) b64_of_Z
         (F := binary64) f_zero f_add
         tt (fun a _ => a) (fun a _ _ => a) (fun a _ => a)
         tt (fun a _ => a) (fun a _ => a)
         tt (fun a _ _ => a) (fun a _ => a)
         (fun _ => tt) (fun a _ _ => a) (fun a _ => a)
         raw raw raw raw [] "first" 0) eq_refl)).
  - set (rgb := {| forged := true; dataType := DT_UINT8; tensorElements := 3;
                   ndims := 1; rows := [[IntSample 1; IntSample 2; IntSample 3]] |}).
    exact (proj1 (proj2 (proj2 (proj2 (proj1 (proj2
      (precondition_violations_are_thrown_before_any_line_is_scanned
         (Image := RowImage) uint8 (T := Z) (dfloat := binary64) b64_of_Z
         (F := binary64) f_zero f_add
         tt (fun a _ => a) (fun a _ _ => a) (fun a _ => a)
         tt (fun a _ => a) (fun a _ => a)
         tt (fun a _ _ => a) (fun a _ => a)
         (fun _ => tt) (fun a _ _ => a) (fun a _ => a)
         rgb raw raw raw [] "first" 0)) eq_refl eq_refl))))).
  - exact (proj2 (proj2
      (precondition_violations_are_thrown_before_any_line_is_scanned
         (Image := RowImage) uint8 (T := Z) (dfloat := binary64) b64_of_Z
         (F := binary64) f_zero f_add
         tt (fun a _ => a) (fun a _ _ => a) (fun a _ => a)
         tt (fun a _ => a) (fun a _ => a)
         tt (fun a _ _ => a) (fun a _ => a)
         (fun _ => tt) (fun a _ _ => a) (fun a _ => a)
         (image DT_DFLOAT 0 [[7%Z]]) raw raw raw [] "first" 0)) eq_refl eq_refl).
Defined.

Lemma positionFlag_witness :
  MaximumPixel uint8 (image DT_UINT8 1 [[3; 5; 5; 2]]%Z) raw "frist" 0
  = MaximumPixel uint8 (image DT_UINT8 1 [[3; 5; 5; 2]]%Z) raw "last" 0.
Proof.
  refine (f_equal (fun f => f 0) (proj1
    (positionFlag_other_than_first_selects_the_last (Image := RowImage) uint8
       (image DT_UINT8 1 [[3; 5; 5; 2]]%Z) raw "frist" _))).
  discriminate.
Defined.

(** ** CumulativeSum *)

Lemma CumSumFilter_loop_spec {TPI : Type} (add : TPI -> TPI -> TPI)
    (in_ : list TPI) (sum : TPI) :
  CumSumFilter.loop add in_ sum
  = map (fun i => fold_left add (take (S i) in_) sum) (seq 0 (length in_)).
Proof.
  revert sum. induction in_ as [|x in_ IH]; intros sum; [reflexivity|].
  cbn [CumSumFilter.loop length seq map]. f_equal.
  rewrite IH, <- seq_shift, map_map. reflexivity.
Qed.

Section CumulativeSumProperties.
Context {Image : Type} `{!ImageOps Image}.
Context {TPI : Type} (zero : TPI) (add : TPI -> TPI -> TPI).
Context `{!SeparableDriver Image TPI}.

(** C3: the line filter of [CumulativeSum] replaces the sample at each
    position [i] of a line by the sum, from [0] on and in the order of the
    line, of the samples at the positions up to and including [i]; so
    [[1,2,3,4]] becomes [[1,3,6,10]] (here in binary64 arithmetic). With a
    mask, [CumulativeSum] first runs the selection step with the value 0,
    then the separable pass on its result; so [[1,2,3,4]] with the mask
    [[true,false,true,true]] becomes [[1,1,4,8]]. *)
Theorem CumulativeSum_is_the_running_sum_along_the_line :
  (forall in_ : list TPI,
      CumSumFilter.Filter zero add in_
      = map (fun i => fold_left add (take (S i) in_) zero) (seq 0 (length in_)))
  /\ CumSumFilter.Filter f_zero f_add (map b64_of_Z [1; 2; 3; 4]%Z)
     = map b64_of_Z [1; 3; 6; 10]%Z
  /\ (forall (in_ mask : Image) (process : BooleanArray),
        IsForged in_ = true ->
        (1 <= Dimensionality in_)%N ->
        OVL_FLEX (SuggestFlex (DataTypeOf in_)) = true ->
        let dataType := SuggestFlex (DataTypeOf in_) in
        let lineFilter := CumSumFilter.Filter zero add in
        CumulativeSum zero add in_ mask process
        = if IsForged mask
          then (Select in_ (ScalarImage 0 dataType) mask ;;;
                out <~ the_out ;;
                Separable out dataType dataType process lineFilter [AsScalarImage])%dip
          else Separable in_ dataType dataType process lineFilter [AsScalarImage])
  /\ (forall out : RowImage,
        CumulativeSum f_zero f_add (image DT_SINT32 1 [[1; 2; 3; 4]]%Z) raw [] (out, 0)
        = (Returns tt,
           ({| forged := true; dataType := DT_DFLOAT; tensorElements := 1; ndims := 1;
               rows := [map FloatSample (map b64_of_Z [1; 3; 6; 10]%Z)] |}, 1)))
  /\ (forall out : RowImage,
        CumulativeSum f_zero f_add (image DT_SINT32 1 [[1; 2; 3; 4]]%Z)
          (image DT_BIN 1 [[1; 0; 1; 1]]%Z) [] (out, 0)
        = (Returns tt,
           ({| forged := true; dataType := DT_DFLOAT; tensorElements := 1; ndims := 1;
               rows := [map FloatSample (map b64_of_Z [1; 1; 4; 8]%Z)] |}, 1)))
  /\ (forall out : RowImage,
        CumulativeSum f_zero f_add (image DT_SINT32 2 [[1; 2]; [3; 4]]%Z) raw
          [false; true] (out, 0)
        = (Returns tt,
           ({| forged := true; dataType := DT_DFLOAT; tensorElements := 1; ndims := 2;
               rows := [map FloatSample (map b64_of_Z [1; 2]%Z);
                        map FloatSample (map b64_of_Z [4; 6]%Z)] |}, 2))).
Proof.
  split; [intros in_; apply CumSumFilter_loop_spec|].
  split; [reflexivity|].
  split.
  - intros in_ mask process Hf Hd Hovl dataType lineFilter.
    apply N.leb_le in Hd. rewrite N.leb_antisym in Hd.
    apply negb_true_iff in Hd.
    subst dataType lineFilter.
    unfold CumulativeSum. rewrite Hf, Hovl, Hd. reflexivity.
  - repeat split; intros out; reflexivity.
Qed.

End CumulativeSumProperties.

Lemma CumulativeSum_witness :
  CumulativeSum f_zero f_add (image DT_SINT32 1 [[1; 2; 3; 4]]%Z)
    (image DT_BIN 1 [[1; 0; 1; 1]]%Z) [] (raw, 0)
  = (Select (image DT_SINT32 1 [[1; 2; 3; 4]]%Z) (ScalarImage 0 DT_DFLOAT)
       (image DT_BIN 1 [[1; 0; 1; 1]]%Z) ;;;
     out <~ the_out ;;
     Separable out DT_DFLOAT DT_DFLOAT [] (CumSumFilter.Filter f_zero f_add)
       [AsScalarImage])%dip (raw, 0).
Proof.
  refine (f_equal (fun f => f (raw, 0))
    (proj1 (proj2 (proj2
       (CumulativeSum_is_the_running_sum_along_the_line (Image := RowImage)
          f_zero f_add)))
       (image DT_SINT32 1 [[1; 2; 3; 4]]%Z) (image DT_BIN 1 [[1; 0; 1; 1]]%Z) []
       eq_refl _ eq_refl)).
  simpl. lia.
Defined.

(** ** MaximumAndMinimum: the loop of pairs *)

Lemma uint_sub_1 (a : N) :
  (1 <= a < uint_modulus)%N -> uint_sub a 1 = (a - 1)%N.
Proof.
  intros [H1 H2]. unfold uint_sub.
  rewrite (wrap_small 1) by reflexivity.
  replace (a + uint_modulus - 1)%N with ((a - 1) + 1 * uint_modulus)%N by lia.
  unfold wrap. rewrite N.Div0.mod_add. apply N.mod_small. lia.
Qed.

Lemma for_masked_spec {T A} (body : A -> T -> A) (in_ : list T) :
  forall (mask : list bin) (vars : A),
    length in_ <= length mask ->
    for_masked body in_ mask vars = Some (fold_left body (select_masked in_ mask) vars).
Proof.
  induction in_ as [|x in_ IH]; intros mask vars Hlen.
  - destruct mask; reflexivity.
  - destruct mask as [|m mask]; [simpl in Hlen; lia|].
    cbn [for_masked select_masked]. simpl in Hlen.
    rewrite IH by lia. destruct m; reflexivity.
Qed.

Section PairsLoop.
Context {TPI dfloat MinMaxAccumulator : Type}.
Context (static_cast : TPI -> dfloat).
Context (new : MinMaxAccumulator).
Context (Push : MinMaxAccumulator -> dfloat -> MinMaxAccumulator).
Context (Push2 : MinMaxAccumulator -> dfloat -> dfloat -> MinMaxAccumulator).
Context (plus_eq : MinMaxAccumulator -> MinMaxAccumulator -> MinMaxAccumulator).

(** The accumulators [good] that the loop goes through and the values [ok]
    that it pushes. *)
Context (good : MinMaxAccumulator -> Prop) (ok : dfloat -> Prop).
Hypothesis good_Push : forall acc x, good acc -> ok x -> good (Push acc x).
Hypothesis Push2_pushes_both :
  forall acc x y, good acc -> ok x -> ok y -> Push2 acc x y = Push (Push acc x) y.

Let push := fun (vars : MinMaxAccumulator) (x : TPI) => Push vars (static_cast x).

Lemma pairs_loop_guarded (in_ : list TPI) :
  in_ <> [] ->
  (N.of_nat (length in_) < uint_modulus)%N ->
  Forall (fun x => ok (static_cast x)) in_ ->
  forall (fuel k : nat) (vars : MinMaxAccumulator),
    good vars ->
    k <= length in_ ->
    length in_ - k < 2 * fuel ->
    ('(ii, vars) ← dip__MaximumAndMinimum.pairs_loop static_cast Push2 fuel in_
                     (N.of_nat (length in_)) (N.of_nat k) vars;
     if (ii <? N.of_nat (length in_))%N
     then x ← in_ !! N.to_nat ii; Some (Push vars (static_cast x))
     else Some vars)
    = Some (fold_left push (drop k in_) vars).
Proof using good_Push Push2_pushes_both.
  intros Hne Hlen Hok.
  assert (Hpos : 1 <= length in_) by (destruct in_; [congruence|simpl; lia]).
  induction fuel as [|fuel IH]; intros k vars Hgood Hk Hfuel; [lia|].
  cbn [dip__MaximumAndMinimum.pairs_loop].
  rewrite uint_sub_1 by lia.
  destruct (N.ltb_spec (N.of_nat k) (N.of_nat (length in_) - 1)) as [Hlt|Hge].
  - assert (Hk2 : k + 2 <= length in_) by lia.
    destruct (lookup_lt_is_Some_2 in_ k) as [v Hv]; [lia|].
    destruct (lookup_lt_is_Some_2 in_ (S k)) as [w Hw]; [lia|].
    assert (Hokv : ok (static_cast v)).
    { apply (proj1 (Forall_forall _ _) Hok). eapply list_elem_of_lookup_2, Hv. }
    assert (Hokw : ok (static_cast w)).
    { apply (proj1 (Forall_forall _ _) Hok). eapply list_elem_of_lookup_2, Hw. }
    rewrite Nat2N.id, Hv. cbn [mbind option_bind].
    replace (N.to_nat (N.of_nat k + 1)) with (S k) by lia.
    rewrite Hw. cbn [mbind option_bind].
    replace (uint_add (N.of_nat k) 2) with (N.of_nat (k + 2)).
    2:{ unfold uint_add. rewrite wrap_small by lia. lia. }
    rewrite Push2_pushes_both by assumption.
    rewrite IH by (try lia; auto).
    f_equal. rewrite (drop_S _ _ _ Hv), (drop_S _ _ _ Hw). cbn [fold_left].
    unfold push. replace (S (S k)) with (k + 2) by lia. reflexivity.
  - cbn [mbind option_bind].
    destruct (N.ltb_spec (N.of_nat k) (N.of_nat (length in_))) as [Hlt|Hge'].
    + assert (Hk1 : S k = length in_) by lia.
      destruct (lookup_lt_is_Some_2 in_ k) as [x Hx]; [lia|].
      rewrite Nat2N.id, Hx. cbn [mbind option_bind]. f_equal.
      rewrite (drop_S _ _ _ Hx), drop_ge by lia. reflexivity.
    + rewrite drop_ge by lia. reflexivity.
Qed.

Lemma scan_unmasked_guarded (in_ : list TPI) :
  good new ->
  in_ <> [] ->
  (N.of_nat (length in_) < uint_modulus)%N ->
  Forall (fun x => ok (static_cast x)) in_ ->
  dip__MaximumAndMinimum.scan_unmasked static_cast new Push Push2 in_
  = Some (dip__MaximumAndMinimum.scan_one_at_a_time static_cast new Push in_).
Proof using good_Push Push2_pushes_both.
  intros Hnew Hne Hlen Hok. unfold dip__MaximumAndMinimum.scan_unmasked.
  change 0%N with (N.of_nat 0).
  rewrite (pairs_loop_guarded in_ Hne Hlen Hok (S (length in_)) 0 new) by (try lia; auto).
  reflexivity.
Qed.

End PairsLoop.

(** The same, when [Push( x, y )] pushes [x] and [y] whatever they are. *)
Lemma scan_unmasked_spec {TPI dfloat MinMaxAccumulator : Type}
    (static_cast : TPI -> dfloat) (new : MinMaxAccumulator)
    (Push : MinMaxAccumulator -> dfloat -> MinMaxAccumulator)
    (Push2 : MinMaxAccumulator -> dfloat -> dfloat -> MinMaxAccumulator)
    (Push2_pushes_both : forall acc x y, Push2 acc x y = Push (Push acc x) y)
    (in_ : list TPI) :
  in_ <> [] ->
  (N.of_nat (length in_) < uint_modulus)%N ->
  dip__MaximumAndMinimum.scan_unmasked static_cast new Push Push2 in_
  = Some (dip__MaximumAndMinimum.scan_one_at_a_time static_cast new Push in_).
Proof.
  intros Hne Hlen.
  apply (scan_unmasked_guarded static_cast new Push Push2
           (fun _ => True) (fun _ => True)); auto.
  apply Forall_true. auto.
Qed.

(** *** [Push( x, y )] of the accumulator pushes [x] and [y] *)

Section MinMaxOrder.
Context {dfloat : Type} (ltb : dfloat -> dfloat -> bool) (ordered : dfloat -> Prop).
Context (order : TotalOrder ltb ordered).


(** With the samples totally ordered, comparing the two samples with each
    other first gives the minimum and the maximum that two single pushes
    give. *)
Lemma MinMax_Push2_is_two_pushes (acc : MinMaxAccumulator.t dfloat) (x y : dfloat) :
  minmax_ordered ordered acc -> ordered x -> ordered y ->
  MinMaxAccumulator.Push2 ltb acc x y
  = MinMaxAccumulator.Push ltb (MinMaxAccumulator.Push ltb acc x) y.
Proof using order.
  intros [Hmin Hmax] Hx Hy. destruct acc as [m M].
  cbn [MinMaxAccumulator.min_ MinMaxAccumulator.max_] in Hmin, Hmax.
  unfold MinMaxAccumulator.Push2, MinMaxAccumulator.Push.
  cbn [MinMaxAccumulator.min_ MinMaxAccumulator.max_].
  unfold MinMaxAccumulator.std_min, MinMaxAccumulator.std_max.
  pose proof (ltb_trans ltb ordered order) as Htrans.
  pose proof (ltb_asym ltb ordered order) as Hasym.
  pose proof (ltb_total ltb ordered order) as Htotal.
  destruct (ltb y x) eqn:Hyx.
  - (* y < x *)
    f_equal.
    + destruct (ltb x m) eqn:Hxm.
      * rewrite Hyx. now rewrite (Htrans y x m Hy Hx Hmin Hyx Hxm).
      * reflexivity.
    + destruct (ltb M x) eqn:HMx.
      * now rewrite (Hasym y x Hy Hx Hyx).
      * destruct (ltb M y) eqn:HMy; [|reflexivity].
        rewrite (Htrans M y x Hmax Hy Hx HMy Hyx) in HMx. discriminate.
  - (* not y < x *)
    f_equal.
    + destruct (ltb x m) eqn:Hxm.
      * now rewrite Hyx.
      * destruct (ltb y m) eqn:Hym; [|reflexivity].
        destruct (ltb x y) eqn:Hxy.
        -- rewrite (Htrans x y m Hx Hy Hmin Hxy Hym) in Hxm. discriminate.
        -- rewrite (Htotal x y Hx Hy Hxy Hyx) in Hxm. congruence.
    + destruct (ltb M x) eqn:HMx.
      * destruct (ltb x y) eqn:Hxy.
        -- now rewrite (Htrans M x y Hmax Hx Hy HMx Hxy).
        -- rewrite <- (Htotal x y Hx Hy Hxy Hyx). now rewrite HMx.
      * reflexivity.
Qed.

End MinMaxOrder.

Lemma Z_ltb_order : TotalOrder Z.ltb (fun _ => True).
Proof.
  split.
  - intros a b c _ _ _. rewrite !Z.ltb_lt. lia.
  - intros a b _ _. rewrite Z.ltb_lt, Z.ltb_ge. lia.
  - intros a b _ _. rewrite !Z.ltb_ge. lia.
Qed.

Lemma MinMax_Push2_Z (acc : MinMaxAccumulator.t Z) (x y : Z) :
  MinMaxAccumulator.Push2 Z.ltb acc x y
  = MinMaxAccumulator.Push Z.ltb (MinMaxAccumulator.Push Z.ltb acc x) y.
Proof.
  apply (MinMax_Push2_is_two_pushes Z.ltb (fun _ => True) Z_ltb_order);
    [split|..]; exact I.
Qed.




(** The loop of pairs is written for lines with a sample, which are the
    lines of an image: on a line of no samples [bufferLength - 1] wraps
    around to [2^64 - 1], and the loop would be entered. *)
Lemma the_bound_of_the_loop_of_pairs_wraps_on_a_line_without_samples :
  let Push := MinMaxAccumulator.Push SFltb in
  let Push2 := MinMaxAccumulator.Push2 SFltb in
  let plus_eq := MinMaxAccumulator.plus_eq SFltb in
  let new := MinMaxAccumulator.new b64_lowest b64_max in
  uint_sub 0 1 = (2 ^ 64 - 1)%N
  /\ dip__MaximumAndMinimum.Filter b64_of_Z new Push Push2 plus_eq empty_line [new]
     = None
  /\ dip__MaximumAndMinimum.Filter_one_at_a_time b64_of_Z new Push plus_eq
       empty_line [new]
     = Some [new].
Proof. cbv zeta. split; [reflexivity|]. split; reflexivity. Qed.

(** ** CenterOfMass *)

Section CenterOfMassFilter.
Context {TPI dfloat : Type} `{!FloatArith dfloat}.
Context (static_cast : TPI -> dfloat).
Context (nD_ : nat).

Lemma update_at_nil {A} (f : A -> A) (jj : nat) : update_at f jj [] = None.
Proof. reflexivity. Qed.

(** The body of the loops indexes [vars], which has no elements. *)
Lemma CenterOfMass_body_nil (pos : UnsignedArray) (x : TPI) :
  dip__CenterOfMass.body static_cast nD_ pos x [] = None.
Proof.
  unfold dip__CenterOfMass.body. destruct nD_ as [|n]; [reflexivity|].
  cbn [dip__CenterOfMass.axes_loop]. destruct (pos !! 0); reflexivity.
Qed.

Lemma CenterOfMass_loop_unmasked_nil (procDim : nat) (in_ : list TPI)
    (pos : UnsignedArray) (vars : FloatArray dfloat) :
  dip__CenterOfMass.loop_unmasked static_cast nD_ procDim in_ pos [] = Some vars ->
  in_ = [] /\ vars = [].
Proof.
  destruct in_ as [|x in_]; cbn [dip__CenterOfMass.loop_unmasked].
  - intros [= <-]. split; reflexivity.
  - rewrite CenterOfMass_body_nil. discriminate.
Qed.

Lemma CenterOfMass_loop_masked_nil (procDim : nat) (in_ : list TPI) (mask : list bin) :
  forall (pos : UnsignedArray) (vars : FloatArray dfloat),
    dip__CenterOfMass.loop_masked static_cast nD_ procDim in_ mask pos [] = Some vars ->
    vars = [].
Proof.
  revert mask. induction in_ as [|x in_ IH]; intros mask pos vars.
  - cbn. now intros [= <-].
  - destruct mask as [|m mask]; [discriminate|].
    cbn [dip__CenterOfMass.loop_masked]. destruct m.
    + rewrite CenterOfMass_body_nil. discriminate.
    + cbn [mbind option_bind]. destruct (update_at uint_succ procDim pos); [|discriminate].
      cbn [mbind option_bind]. apply IH.
Qed.

(** [Filter] has no defined outcome on the slots that [SetNumberOfThreads]
    makes: [vars] is default-constructed, of size 0, and the loops index it
    up to [nD_]; when no sample is selected, [accArray_[ thread ] += vars]
    adds an array of size 0 to one of size [nD_ + 1]. *)
Lemma CenterOfMass_Filter_undefined (params : ScanLineFilterParameters TPI)
    (accArray_ : list (FloatArray dfloat)) :
  Forall (fun acc => length acc = nD_ + 1) accArray_ ->
  dip__CenterOfMass.Filter static_cast nD_ params accArray_ = None.
Proof.
  intros Hslots. unfold dip__CenterOfMass.Filter.
  assert (Hvars : forall vars,
             match maskBuffer params with
             | Some mask => dip__CenterOfMass.loop_masked static_cast nD_
                              (dimension params) (inBuffer params) mask
                              (position params) []
             | None => dip__CenterOfMass.loop_unmasked static_cast nD_
                         (dimension params) (inBuffer params) (position params) []
             end = Some vars -> vars = []).
  { intros vars. destruct (maskBuffer params).
    - apply CenterOfMass_loop_masked_nil.
    - intros H. now apply CenterOfMass_loop_unmasked_nil in H. }
  destruct (match maskBuffer params with Some _ => _ | None => _ end) as [vars|];
    [|reflexivity].
  rewrite (Hvars vars eq_refl). cbn [mbind option_bind].
  destruct (accArray_ !! thread params) as [acc|] eqn:Hacc; [|reflexivity].
  cbn [mbind option_bind]. unfold FloatArray_plus_eq.
  eapply Forall_lookup_1 in Hslots; [|exact Hacc]. cbn beta in Hslots.
  destruct (decide (length acc = length [])) as [Heq|]; [|reflexivity].
  simpl in Heq. lia.
Qed.

Lemma CenterOfMass_SetNumberOfThreads_slots (threads : nat)
    (accArray_ : list (FloatArray dfloat)) :
  Forall (fun acc => length acc = nD_ + 1)
    (dip__CenterOfMass.SetNumberOfThreads nD_ threads accArray_)
  /\ length (dip__CenterOfMass.SetNumberOfThreads nD_ threads accArray_) = threads.
Proof.
  unfold dip__CenterOfMass.SetNumberOfThreads. split.
  - apply Forall_map. apply Forall_true. intros acc. cbn. apply length_resize.
  - now rewrite length_map, length_resize.
Qed.

(** No scan with at least one line has a defined outcome: the first call of
    [Filter] is the last. *)
Lemma CenterOfMass_Scan_undefined (threads : nat)
    (params : ScanLineFilterParameters TPI)
    (lines : list (ScanLineFilterParameters TPI)) (n : nat) :
  Scan (Returns (threads, params :: lines))
    (dip__CenterOfMass.filter static_cast nD_) [] n
  = (Undefined, S n).
Proof.
  unfold Scan, dip__CenterOfMass.filter. cbn [run_lines SetNumberOfThreads Filter].
  rewrite CenterOfMass_Filter_undefined; [reflexivity|].
  apply CenterOfMass_SetNumberOfThreads_slots.
Qed.

End CenterOfMassFilter.

Section CenterOfMassResult.
Context {dfloat : Type} `{!FloatArith dfloat}.
Context (nD_ : nat).

Lemma FloatArray_plus_eq_defined (a b : FloatArray dfloat) :
  length a = length b -> FloatArray_plus_eq a b = Some (zip_with f_add a b).
Proof. intros H. unfold FloatArray_plus_eq. now rewrite decide_True. Qed.

Lemma fold_FloatArray_plus_eq (rest : list (FloatArray dfloat)) :
  forall out : FloatArray dfloat,
    Forall (fun acc => length acc = length out) rest ->
    fold_defined FloatArray_plus_eq rest out
      = Some (fold_left (zip_with f_add) rest out)
    /\ length (fold_left (zip_with f_add) rest out) = length out.
Proof.
  induction rest as [|acc rest IH]; intros out Hlen; [split; reflexivity|].
  inversion Hlen as [|? ? Hacc Hrest]; subst.
  cbn [fold_defined fold_left].
  rewrite FloatArray_plus_eq_defined by congruence. cbn [mbind option_bind].
  assert (Hz : length (zip_with f_add out acc) = length out).
  { rewrite length_zip_with. lia. }
  destruct (IH (zip_with f_add out acc)) as [-> Hl].
  { eapply Forall_impl; [exact Hrest|]. cbn. intros; congruence. }
  split; [reflexivity|congruence].
Qed.

Lemma divide_loop_spec (m : dfloat) (n : nat) :
  forall (jj : nat) (out : FloatArray dfloat),
    jj + n <= nD_ ->
    out !! nD_ = Some m ->
    exists out',
      dip__CenterOfMass.divide_loop nD_ n jj out = Some out'
      /\ length out' = length out
      /\ forall i, out' !! i = if decide (jj <= i < jj + n)
                               then (fun v => f_div v m) <$> out !! i
                               else out !! i.
Proof.
  induction n as [|n IH]; intros jj out Hle Hm.
  - exists out. repeat split. intros i. rewrite decide_False by lia. reflexivity.
  - cbn [dip__CenterOfMass.divide_loop]. rewrite Hm. cbn [mbind option_bind].
    destruct (lookup_lt_is_Some_2 out jj) as [v Hv].
    { apply lookup_lt_Some in Hm. lia. }
    unfold update_at. rewrite Hv. cbn [mbind option_bind].
    destruct (IH (S jj) (<[jj := f_div v m]> out)) as (out' & Hloop & Hlen & Hget).
    { lia. }
    { rewrite list_lookup_insert_ne by lia. exact Hm. }
    exists out'. split; [exact Hloop|]. split; [now rewrite Hlen, length_insert|].
    intros i. rewrite Hget.
    destruct (decide (i = jj)) as [->|Hne].
    + rewrite decide_False by lia. rewrite decide_True by lia.
      rewrite list_lookup_insert_eq by (eapply lookup_lt_Some; eauto).
      now rewrite Hv.
    + rewrite list_lookup_insert_ne by congruence.
      destruct (decide (S jj <= i < S jj + n)); [rewrite decide_True by lia|
                                                 rewrite decide_False by lia];
        reflexivity.
Qed.

Lemma clear_loop_spec (n : nat) :
  forall (jj : nat) (out : FloatArray dfloat),
    jj + n <= length out ->
    exists out',
      dip__CenterOfMass.clear_loop n jj out = Some out'
      /\ length out' = length out
      /\ forall i, out' !! i = if decide (jj <= i < jj + n)
                               then (fun _ => f_zero) <$> out !! i
                               else out !! i.
Proof.
  induction n as [|n IH]; intros jj out Hle.
  - exists out. repeat split. intros i. rewrite decide_False by lia. reflexivity.
  - cbn [dip__CenterOfMass.clear_loop].
    destruct (lookup_lt_is_Some_2 out jj) as [v Hv]; [lia|].
    unfold update_at. rewrite Hv. cbn [mbind option_bind].
    destruct (IH (S jj) (<[jj := f_zero]> out)) as (out' & Hloop & Hlen & Hget).
    { rewrite length_insert. lia. }
    exists out'. split; [exact Hloop|]. split; [now rewrite Hlen, length_insert|].
    intros i. rewrite Hget.
    destruct (decide (i = jj)) as [->|Hne].
    + rewrite decide_False by lia. rewrite decide_True by lia.
      rewrite list_lookup_insert_eq by (eapply lookup_lt_Some; eauto).
      now rewrite Hv.
    + rewrite list_lookup_insert_ne by congruence.
      destruct (decide (S jj <= i < S jj + n)); [rewrite decide_True by lia|
                                                 rewrite decide_False by lia];
        reflexivity.
Qed.

(** X17: on slots that each hold [nD_ + 1] sums, [GetResult] adds the slots
    of the threads component by component, in the order of the threads, and
    returns each of the first [nD_] sums divided by the sum at index [nD_],
    the total mass, or the zero vector when the total mass equals 0; the
    sum at index [nD_] is not part of the result. *)
Lemma CenterOfMass_GetResult_spec (out : FloatArray dfloat)
    (rest : list (FloatArray dfloat)) :
  Forall (fun acc => length acc = nD_ + 1) (out :: rest) ->
  exists mass : dfloat,
    fold_left (zip_with f_add) rest out !! nD_ = Some mass
    /\ dip__CenterOfMass.GetResult nD_ (out :: rest)
       = Some (map (fun v => if negb (f_eqb mass f_zero) then f_div v mass else f_zero)
                 (take nD_ (fold_left (zip_with f_add) rest out))).
Proof.
  intros Hslots. inversion Hslots as [|? ? Hout Hrest]; subst.
  destruct (fold_FloatArray_plus_eq rest out) as [Hfold Hlen].
  { eapply Forall_impl; [exact Hrest|]. cbn. intros; congruence. }
  set (total := fold_left (zip_with f_add) rest out) in *.
  destruct (lookup_lt_is_Some_2 total nD_) as [mass Hmass]; [lia|].
  exists mass. split; [exact Hmass|].
  unfold dip__CenterOfMass.GetResult. rewrite Hfold. cbn [mbind option_bind].
  rewrite Hmass. cbn [mbind option_bind].
  destruct (negb (f_eqb mass f_zero)).
  - destruct (divide_loop_spec mass nD_ 0 total) as (out' & -> & Hl & Hget);
      [lia|exact Hmass|].
    cbn [mbind option_bind]. f_equal. rewrite resize_le by lia.
    apply list_eq. intros i. rewrite list_lookup_fmap.
    destruct (decide (i < nD_)).
    + rewrite !lookup_take_lt by lia. rewrite Hget, decide_True by lia. reflexivity.
    + rewrite !lookup_take_ge by lia. reflexivity.
  - destruct (clear_loop_spec nD_ 0 total) as (out' & -> & Hl & Hget); [lia|].
    cbn [mbind option_bind]. f_equal. rewrite resize_le by lia.
    apply list_eq. intros i. rewrite list_lookup_fmap.
    destruct (decide (i < nD_)).
    + rewrite !lookup_take_lt by lia. rewrite Hget, decide_True by lia. reflexivity.
    + rewrite !lookup_take_ge by lia. reflexivity.
Qed.

End CenterOfMassResult.

(** C4, at an image whose mass lies at one coordinate ([[0, 7, 0]], one
    dimension) and at an all-zero image: the call of [Filter] for the first
    line indexes the array [vars] of size 0, and [CenterOfMass] has no
    defined result, neither the coordinate [[1]] nor the zero vector. *)
Theorem CenterOfMass_has_no_defined_result :
  CenterOfMass b64_of_Z (image DT_UINT8 1 [[0; 7; 0]]%Z) raw 0 = (Undefined, 1)
  /\ CenterOfMass b64_of_Z (image DT_UINT8 1 [[0; 0; 0]]%Z) raw 0 = (Undefined, 1)
  /\ dip__CenterOfMass.Filter (dfloat := binary64) b64_of_Z 1
       {| inBuffer := [0; 7; 0]%Z; maskBuffer := None; dimension := 0;
          position := [0%N]; thread := 0 |}
       (dip__CenterOfMass.SetNumberOfThreads 1 1 [])
     = None
  /\ dip__CenterOfMass.body (dfloat := binary64) b64_of_Z 1 [0%N] 0%Z [] = None.
Proof. repeat split; reflexivity. Qed.

(** C1, for [CenterOfMass], at the samples [[2, 3]] of a line split in the
    groups [[2]] (thread 0) and [[3]] (thread 1): [Filter] builds no
    accumulator, neither for a group nor for the whole line, so there is
    nothing that [+=] could merge. *)
Theorem CenterOfMass_builds_no_accumulator_for_a_group :
  let filter := dip__CenterOfMass.filter (dfloat := binary64) b64_of_Z 1 in
  let line := fun (x : N) (samples : list Z) (t : nat) =>
                {| inBuffer := samples; maskBuffer := None; dimension := 0;
                   position := [x]; thread := t |} in
  Scan (Returns (2, [line 0%N [2%Z] 0; line 1%N [3%Z] 1])) filter [] 0
    = (Undefined, 1)
  /\ Scan (Returns (2, [line 1%N [3%Z] 1])) filter [] 0 = (Undefined, 1)
  /\ Scan (Returns (1, [line 0%N [2; 3]%Z 0])) filter [] 0 = (Undefined, 1).
Proof. repeat split; reflexivity. Qed.

(** ** MaximumPixel, MinimumPixel: examples *)

(** The tie of C2: in [[3,5,5,2]] the first 5 is at position 1 and the last
    one at position 2; for the minimum, in [[5,2,2,3]], the same positions. *)
Lemma MaximumPixel_tie_example :
  MaximumPixel uint8 (image DT_UINT8 1 [[3; 5; 5; 2]]%Z) raw "first" 0
    = (Returns [1%N], 1)
  /\ MaximumPixel uint8 (image DT_UINT8 1 [[3; 5; 5; 2]]%Z) raw "last" 0
    = (Returns [2%N], 1)
  /\ MinimumPixel uint8 (image DT_UINT8 1 [[5; 2; 2; 3]]%Z) raw "first" 0
    = (Returns [1%N], 1)
  /\ MinimumPixel uint8 (image DT_UINT8 1 [[5; 2; 2; 3]]%Z) raw "last" 0
    = (Returns [2%N], 1).
Proof. repeat split; reflexivity. Qed.

(** C2, at an image all of whose samples have the lowest value of the type
    (an all-zero uint8 image): with ["first"] no sample is strictly greater
    than the value the search starts from, nothing is recorded, and
    [MaximumPixel] returns the coordinate array that [SetNumberOfThreads]
    put in the slot, which is empty; the earliest occurrence of the maximum
    is at [[0]] (resp. [[0, 0]]). With ["last"] the same image gives the
    last position. The same holds for [MinimumPixel] at the highest value. *)
Theorem MaximumPixel_first_returns_no_coordinate_at_the_lowest_value :
  MaximumPixel uint8 (image DT_UINT8 1 [[0; 0]]%Z) raw "first" 0 = (Returns [], 1)
  /\ MaximumPixel uint8 (image DT_UINT8 1 [[0; 0]]%Z) raw "last" 0
     = (Returns [1%N], 1)
  /\ MaximumPixel uint8 (image DT_UINT8 2 [[0; 0]; [0; 0]]%Z) raw "first" 0
     = (Returns [], 2)
  /\ MinimumPixel uint8 (image DT_UINT8 1 [[255; 255]]%Z) raw "first" 0
     = (Returns [], 1)
  /\ MinimumPixel uint8 (image DT_UINT8 1 [[255; 255]]%Z) raw "last" 0
     = (Returns [1%N], 1).
Proof. repeat split; reflexivity. Qed.

(** C7, at a slot whose best value is the lowest value of the type, with
    [first_ = false]. The first row [[0, 0]] of a uint8 image leaves the
    last maximum at [[1, 0]]. A second row all of whose samples are masked
    out pushes no sample, and [Filter] merges its untouched value
    [lowest()] with [>=]: the coordinate becomes [[0, 0]]. In [GetResult], a
    slot in which no sample was ever pushed wins over the one that holds
    [[1, 0]] the same way: the result is its empty coordinate array when
    its thread filtered no line, and [[0, 0]] when its thread filtered the
    second row. *)
Theorem a_state_without_samples_is_merged_when_the_best_value_is_the_lowest :
  let TPI := uint8 in
  let row0 := row_line 0%N [0; 0]%Z (Some [true; true]) 0 in
  let row1 := row_line 1%N [0; 0]%Z (Some [false; false]) 0 in
  let new := dip__MaxPixel.SetNumberOfThreads TPI 1 (dip__Pixel.new false) in
  let seen := {| coord_ := [[1%N; 0%N]]; value_ := [0%Z]; first_ := false |} in
  let moved := {| coord_ := [[0%N; 0%N]]; value_ := [0%Z]; first_ := false |} in
  let idle := {| coord_ := [[1%N; 0%N]; []]; value_ := [0%Z; lowest TPI];
                 first_ := false |} in
  dip__MaxPixel.Filter TPI row0 new = Some seen
  /\ dip__MaxPixel.GetResult TPI seen = Some [1%N; 0%N]
  /\ dip__MaxPixel.Filter TPI row1 seen = Some moved
  /\ dip__MaxPixel.GetResult TPI moved = Some [0%N; 0%N]
  /\ dip__MaxPixel.SetNumberOfThreads TPI 2 seen = idle
  /\ dip__MaxPixel.GetResult TPI idle = Some []
  /\ (scanLineFilter <~ Scan (Returns (2, [row0; row_line 1%N [0; 0]%Z
                                                   (Some [false; false]) 1]))
                           (dip__MaxPixel.filter TPI) (dip__Pixel.new false) ;;
      defined (dip__MaxPixel.GetResult TPI scanLineFilter))%dip 0
     = (Returns [0%N; 0%N], 2)
  /\ MaximumPixel uint8 (image DT_UINT8 2 [[0; 0]; [0; 0]]%Z)
       (image DT_BIN 2 [[1; 1]; [0; 0]]%Z) "last" 0
     = (Returns [0%N; 0%N], 2).
Proof. cbv zeta. repeat split; reflexivity. Qed.

(** ** MaximumPixel, MinimumPixel: the search *)

Section PixelSearch.
Context {TPI : Type} (initial : TPI) (strict weak : TPI -> TPI -> bool).
Context (in_range : TPI -> Prop).
Context (order : PixelOrder initial strict weak in_range).
Context (first : bool).

Let beats := dip__Pixel.beats strict weak first.
Let op := pick beats.
Let sim := same_best initial strict.

Lemma beats_trans a b c : beats a b = true -> beats b c = true -> beats a c = true.
Proof using order.
  unfold beats, dip__Pixel.beats. destruct first.
  - apply (strict_trans _ _ _ _ order).
  - rewrite !(weak_not_strict _ _ _ _ order), !negb_true_iff.
    intros H1 H2. apply (strict_negtrans _ _ _ _ order c b a); assumption.
Qed.

Lemma beats_negtrans a b c : beats a b = false -> beats b c = false -> beats a c = false.
Proof using order.
  unfold beats, dip__Pixel.beats. destruct first.
  - apply (strict_negtrans _ _ _ _ order).
  - rewrite !(weak_not_strict _ _ _ _ order), !negb_false_iff.
    intros H1 H2. apply (strict_trans _ _ _ _ order c b a); assumption.
Qed.

Lemma op_assoc a b c : op (op a b) c = op a (op b c).
Proof using order.
  unfold op, pick.
  destruct (beats (fst b) (fst a)) eqn:Hba; destruct (beats (fst c) (fst b)) eqn:Hcb;
    cbn [fst snd]; rewrite ?Hba, ?Hcb; try reflexivity.
  - now rewrite (beats_trans _ _ _ Hcb Hba).
  - destruct (beats (fst c) (fst a)) eqn:Hca; [|reflexivity].
    now rewrite (beats_negtrans _ _ _ Hcb Hba) in Hca.
Qed.

Lemma fold_op_assoc (l : list (TPI * UnsignedArray)) :
  forall s b, op s (fold_left op l b) = fold_left op l (op s b).
Proof using order.
  induction l as [|x l IH]; intros s b; [reflexivity|].
  cbn [fold_left]. now rewrite IH, op_assoc.
Qed.

Lemma sim_refl a : sim a a.
Proof. split; auto. Qed.

Lemma sim_trans a b c : sim a b -> sim b c -> sim a c.
Proof.
  intros [H1 H2] [H3 H4]. split; [congruence|].
  intros H. rewrite H2 by exact H. apply H4. now rewrite <- H1.
Qed.

Lemma op_sim a a' b b' : sim a a' -> sim b b' -> sim (op a b) (op a' b').
Proof.
  intros [Ha Ha'] [Hb Hb']. unfold op, pick. rewrite <- Ha, <- Hb.
  destruct (beats (fst b) (fst a)); split; auto.
Qed.

Lemma fold_op_sim (l l' : list (TPI * UnsignedArray)) :
  Forall2 sim l l' -> forall s s', sim s s' ->
  sim (fold_left op l s) (fold_left op l' s').
Proof.
  induction 1 as [|x x' l l' Hx _ IH]; intros s s' Hs; [exact Hs|].
  cbn [fold_left]. apply IH. now apply op_sim.
Qed.

Lemma fold_op_sim_start (l : list (TPI * UnsignedArray)) s s' :
  sim s s' -> sim (fold_left op l s) (fold_left op l s').
Proof.
  apply fold_op_sim. induction l; constructor; [apply sim_refl|assumption].
Qed.

Lemma op_in_range a b : in_range (fst a) -> in_range (fst b) -> in_range (fst (op a b)).
Proof. intros Ha Hb. unfold op, pick. now destruct (beats (fst b) (fst a)). Qed.

Lemma fold_op_in_range (l : list (TPI * UnsignedArray)) :
  Forall (fun e => in_range (fst e)) l ->
  forall s, in_range (fst s) -> in_range (fst (fold_left op l s)).
Proof.
  induction 1 as [|x l Hx _ IH]; intros s Hs; [exact Hs|].
  cbn [fold_left]. apply IH. now apply op_in_range.
Qed.

(** A slot that holds [initial] is absorbed on the right, up to [sim]. *)
Lemma op_initial_r s j :
  fst j = initial -> in_range (fst s) -> sim (op s j) s.
Proof using order.
  intros Hj Hs. unfold op, pick. rewrite Hj.
  destruct (beats initial (fst s)) eqn:Hb; [|apply sim_refl].
  unfold beats, dip__Pixel.beats in Hb. destruct first.
  - now rewrite (initial_least _ _ _ _ order _ Hs) in Hb.
  - rewrite (weak_not_strict _ _ _ _ order), negb_true_iff in Hb.
    pose proof (initial_only _ _ _ _ order _ Hs Hb) as Hv.
    split; [congruence|]. rewrite Hj.
    rewrite (initial_least _ _ _ _ order _ (initial_in_range _ _ _ _ order)).
    discriminate.
Qed.

(** Merging the outcome of a search that started from [initial] is
    continuing the search, up to [sim]. *)
Lemma op_fold_from_initial (l : list (TPI * UnsignedArray)) s j :
  fst j = initial -> in_range (fst s) ->
  sim (op s (fold_left op l j)) (fold_left op l s).
Proof using order.
  intros Hj Hs. rewrite fold_op_assoc. apply fold_op_sim_start.
  now apply op_initial_r.
Qed.

End PixelSearch.

Lemma update_at_alter {A} (f : A -> A) (jj : nat) (a : list A) :
  jj < length a -> update_at f jj a = Some (alter f jj a).
Proof.
  revert jj. induction a as [|x a IH]; intros [|jj] Hlt; cbn [length] in Hlt;
    try lia; [reflexivity|].
  unfold update_at in *. cbn [lookup list_lookup].
  specialize (IH jj ltac:(lia)).
  change ((x :: a) !! S jj) with (a !! jj).
  destruct (a !! jj) as [y|]; [|discriminate].
  cbn [mbind option_bind] in *. injection IH as IH.
  cbn [alter list_alter insert list_insert]. f_equal.
  change (x :: <[jj := f y]> a = x :: alter f jj a). now rewrite IH.
Qed.

Section PixelFilter.
Context {TPI : Type} (initial : TPI) (strict weak : TPI -> TPI -> bool).

Let beats := dip__Pixel.beats strict weak.

Lemma coord_at_defined (params : ScanLineFilterParameters TPI) (ii : N) :
  dimension_exists params ->
  dip__Pixel.coord_at params ii = Some (sample_coordinates params ii).
Proof.
  unfold dimension_exists, dip__Pixel.coord_at, sample_coordinates.
  apply update_at_alter.
Qed.

Lemma coord_at_undefined (params : ScanLineFilterParameters TPI) (ii : N) :
  ~ dimension_exists params -> dip__Pixel.coord_at params ii = None.
Proof.
  unfold dimension_exists, dip__Pixel.coord_at, update_at. intros Hd.
  rewrite lookup_ge_None_2 by lia. reflexivity.
Qed.

Lemma scan_unmasked_search (first : bool) (params : ScanLineFilterParameters TPI)
    (in_ : list TPI) :
  forall (ii : N) (value : TPI) (coord : UnsignedArray),
    dip__Pixel.scan_unmasked strict weak first params ii in_ value coord
    = line_search strict weak first params (candidates_unmasked params ii in_)
        (value, coord).
Proof.
  unfold line_search.
  induction in_ as [|x in_ IH]; intros ii value coord.
  - cbn. now destruct (decide (dimension_exists params)).
  - cbn [dip__Pixel.scan_unmasked candidates_unmasked fold_left existsb fst].
    unfold pick at 2. cbn [fst snd]. fold (beats first).
    destruct (beats first x value) eqn:Hb.
    + destruct (decide (dimension_exists params)) as [Hd|Hd] eqn:Hdec.
      * rewrite (coord_at_defined _ _ Hd). cbn [mbind option_bind].
        now rewrite IH.
      * now rewrite (coord_at_undefined _ _ Hd).
    + cbn [orb]. apply IH.
Qed.

Lemma scan_masked_search (first : bool) (params : ScanLineFilterParameters TPI)
    (in_ : list TPI) :
  forall (mask : list bin) (ii : N) (value : TPI) (coord : UnsignedArray),
    length in_ <= length mask ->
    dip__Pixel.scan_masked strict weak first params ii in_ mask value coord
    = line_search strict weak first params (candidates_masked params ii in_ mask)
        (value, coord).
Proof.
  unfold line_search.
  induction in_ as [|x in_ IH]; intros mask ii value coord Hlen.
  - destruct mask; cbn; now destruct (decide (dimension_exists params)).
  - destruct mask as [|m mask]; [simpl in Hlen; lia|].
    cbn [dip__Pixel.scan_masked candidates_masked].
    simpl in Hlen. destruct m; cbn [andb app fold_left existsb fst].
    + unfold pick at 2. cbn [fst snd]. fold (beats first).
      destruct (beats first x value) eqn:Hb.
      * destruct (decide (dimension_exists params)) as [Hd|Hd] eqn:Hdec.
        -- rewrite (coord_at_defined _ _ Hd). cbn [mbind option_bind].
           now rewrite IH by lia.
        -- now rewrite (coord_at_undefined _ _ Hd).
      * cbn [orb]. apply IH. lia.
    + apply IH. lia.
Qed.

(** [Filter] is the search along the candidates of the line, followed by
    the merge into the slot of the thread. *)
Lemma Pixel_Filter_search (params : ScanLineFilterParameters TPI)
    (this : PixelState TPI) :
  mask_fits params ->
  dip__Pixel.Filter initial strict weak params this
  = (best ← line_search strict weak (first_ this) params (candidates params)
             (initial, replicate (length (position params)) 0%N);
     v ← value_ this !! thread params;
     if beats (first_ this) (fst best) v
     then _ ← coord_ this !! thread params;
          Some {| coord_ := <[thread params := snd best]> (coord_ this);
                  value_ := <[thread params := fst best]> (value_ this);
                  first_ := first_ this |}
     else Some this).
Proof.
  intros Hfit. unfold dip__Pixel.Filter, candidates, mask_fits in *.
  destruct (maskBuffer params) as [mask|].
  - rewrite scan_masked_search by exact Hfit.
    destruct (line_search _ _ _ _ _ _) as [[value coord]|]; reflexivity.
  - rewrite scan_unmasked_search.
    destruct (line_search _ _ _ _ _ _) as [[value coord]|]; reflexivity.
Qed.

Lemma line_search_defined (first : bool) (params : ScanLineFilterParameters TPI)
    (cands : list (TPI * UnsignedArray)) (s : TPI * UnsignedArray) :
  dimension_exists params ->
  line_search strict weak first params cands s
  = Some (fold_left (pick (beats first)) cands s).
Proof. intros Hd. unfold line_search. now rewrite decide_True by exact Hd. Qed.

Lemma line_search_nothing (first : bool) (params : ScanLineFilterParameters TPI)
    (cands : list (TPI * UnsignedArray)) (s : TPI * UnsignedArray) :
  Forall (fun e => beats first (fst e) (fst s) = false) cands ->
  line_search strict weak first params cands s = Some s.
Proof.
  intros Hnone. unfold line_search.
  assert (Hfold : fold_left (pick (beats first)) cands s = s).
  { induction Hnone as [|e l He _ IH]; [reflexivity|].
    cbn [fold_left]. unfold pick at 2. now rewrite He. }
  assert (Hex : existsb (fun e => beats first (fst e) (fst s)) cands = false).
  { clear Hfold. induction Hnone as [|e l He _ IH]; [reflexivity|].
    cbn [existsb]. now rewrite He. }
  fold (beats first). rewrite Hfold, Hex.
  now destruct (decide (dimension_exists params)).
Qed.

Lemma candidates_in_range (in_range : TPI -> Prop)
    (params : ScanLineFilterParameters TPI) :
  Forall in_range (inBuffer params) ->
  Forall (fun e => in_range (fst e)) (candidates params).
Proof.
  intros H. unfold candidates. destruct (maskBuffer params) as [mask|].
  - generalize 0%N. generalize dependent mask.
    induction H as [|x in_ Hx _ IH]; intros mask ii; [constructor|].
    destruct mask as [|m mask]; [constructor|].
    cbn [candidates_masked]. apply Forall_app. split; [|apply IH].
    destruct m; repeat constructor. exact Hx.
  - generalize 0%N. induction H as [|x in_ Hx _ IH]; intros ii; constructor;
      [exact Hx|apply IH].
Qed.

(** [Filter] merges the outcome of the line into the slot of its thread. *)
Lemma Pixel_Filter_slots (params : ScanLineFilterParameters TPI)
    (this : PixelState TPI) (s : TPI * UnsignedArray) :
  dimension_exists params ->
  mask_fits params ->
  length (value_ this) = length (coord_ this) ->
  slots this !! thread params = Some s ->
  exists this',
    dip__Pixel.Filter initial strict weak params this = Some this'
    /\ first_ this' = first_ this
    /\ length (value_ this') = length (value_ this)
    /\ length (coord_ this') = length (coord_ this)
    /\ slots this' = <[thread params := pick (beats (first_ this)) s
                                          (line_best initial strict weak (first_ this) params)]> (slots this).
Proof.
  intros Hd Hfit Hlen Hs. unfold slots in Hs.
  apply lookup_zip_with_Some in Hs as (v & c & Heq & Hv & Hc). subst s.
  rewrite Pixel_Filter_search by exact Hfit.
  rewrite line_search_defined by exact Hd.
  change (fold_left (pick (beats (first_ this))) (candidates params)
            (initial, replicate (length (position params)) 0%N))
    with (line_best initial strict weak (first_ this) params).
  cbn [mbind option_bind].
  destruct (line_best initial strict weak (first_ this) params) as [value coord] eqn:Hbest.
  cbn [fst snd].
  rewrite Hv. cbn [mbind option_bind].
  unfold pick. cbn [fst snd]. fold (beats (first_ this)).
  destruct (beats (first_ this) value v) eqn:Hb.
  - rewrite Hc. cbn [mbind option_bind]. eexists. split; [reflexivity|].
    cbn [first_ value_ coord_]. rewrite !length_insert.
    split; [reflexivity|]. split; [reflexivity|]. split; [reflexivity|].
    unfold slots. cbn [value_ coord_].
    symmetry. apply insert_zip_with.
  - exists this. split; [reflexivity|]. repeat split.
    unfold slots. symmetry. apply list_insert_id.
    apply lookup_zip_with_Some. eauto.
Qed.

(** The loop of [GetResult] searches the slots the same way. *)
Lemma select_index_spec (first : bool) (value_ : list TPI)
    (coord_ : list UnsignedArray) (n : nat) :
  forall (ii index : nat) (s : TPI * UnsignedArray),
    length value_ = length coord_ ->
    ii + n <= length value_ ->
    zip value_ coord_ !! index = Some s ->
    exists idx,
      dip__Pixel.select_index strict weak first value_ ii n index = Some idx
      /\ zip value_ coord_ !! idx
         = Some (fold_left (pick (beats first)) (take n (drop ii (zip value_ coord_))) s).
Proof.
  induction n as [|n IH]; intros ii index s Hlen Hle Hs.
  - exists index. split; [reflexivity|]. now rewrite take_0.
  - cbn [dip__Pixel.select_index].
    destruct (lookup_lt_is_Some_2 (zip value_ coord_) ii) as [[vi ci] Hi].
    { rewrite length_zip. lia. }
    pose proof Hi as Hi'. pose proof Hs as Hs'.
    apply lookup_zip_with_Some in Hi' as (? & ? & [= <- <-] & Hvi & Hci).
    destruct s as [vx cx].
    apply lookup_zip_with_Some in Hs' as (? & ? & [= <- <-] & Hvx & Hcx).
    rewrite Hvi, Hvx. cbn [mbind option_bind].
    rewrite (drop_S _ _ _ Hi). cbn [take fold_left].
    unfold pick at 2. cbn [fst snd]. fold (beats first).
    destruct (beats first vi vx).
    + destruct (IH (S ii) ii (vi, ci)) as (idx & Hsel & Hidx); [lia|lia|exact Hi|].
      exists idx. split; assumption.
    + destruct (IH (S ii) index (vx, cx)) as (idx & Hsel & Hidx); [lia|lia|exact Hs|].
      exists idx. split; assumption.
Qed.

Lemma Pixel_GetResult_slots (this : PixelState TPI) (s : TPI * UnsignedArray)
    (rest : list (TPI * UnsignedArray)) :
  length (value_ this) = length (coord_ this) ->
  slots this = s :: rest ->
  dip__Pixel.GetResult strict weak this
  = Some (snd (fold_left (pick (beats (first_ this))) rest s)).
Proof.
  intros Hlen Hslots. unfold dip__Pixel.GetResult.
  assert (Hl : length (slots this) = length (value_ this)).
  { unfold slots. rewrite length_zip. lia. }
  destruct (select_index_spec (first_ this) (value_ this) (coord_ this)
              (length (coord_ this) - 1) 1 0 s) as (idx & -> & Hidx).
  { exact Hlen. }
  { rewrite Hslots in Hl. simpl in Hl. lia. }
  { fold (slots this). now rewrite Hslots. }
  cbn [mbind option_bind]. fold (slots this) in Hidx. rewrite Hslots in Hidx.
  cbn [drop] in Hidx. rewrite drop_0 in Hidx.
  rewrite take_ge in Hidx.
  2:{ rewrite Hslots in Hl. simpl in Hl. lia. }
  rewrite <- Hslots in Hidx. unfold slots in Hidx.
  apply lookup_zip_with_Some in Hidx as (v & c & Heq & _ & Hc).
  rewrite Hc. f_equal. rewrite Heq. reflexivity.
Qed.

End PixelFilter.

Lemma Forall_list_filter {A} (P : A -> Prop) (Q : A -> Prop) `{!forall x, Decision (Q x)}
    (l : list A) :
  Forall P l -> Forall P (filter Q l).
Proof.
  rewrite !Forall_forall. intros HP x Hx. apply list_elem_of_filter in Hx.
  apply HP, Hx.
Qed.

Section PixelScan.
Context {TPI : Type} (initial : TPI) (strict weak : TPI -> TPI -> bool).
Context (in_range : TPI -> Prop).
Context (order : PixelOrder initial strict weak in_range).
Context (first : bool).

Let beats := dip__Pixel.beats strict weak first.
Let op := pick beats.
Let sim := same_best initial strict.
Let merge_line := fun (s : TPI * UnsignedArray) (params : ScanLineFilterParameters TPI) =>
                    op s (line_best initial strict weak first params).
Let samples_in_range := fun params : ScanLineFilterParameters TPI =>
                          Forall in_range (inBuffer params).

(** The slots after a sequence of lines: each slot has merged the lines of
    its thread, in their order. *)
Lemma Pixel_run_lines (lines : list (ScanLineFilterParameters TPI)) :
  forall (this : PixelState TPI) (n : nat),
    first_ this = first ->
    length (value_ this) = length (coord_ this) ->
    Forall (fun params => thread params < length (value_ this)) lines ->
    Forall dimension_exists lines ->
    Forall mask_fits lines ->
    exists this',
      run_lines (dip__Pixel.filter initial strict weak) lines this n
        = (Returns this', n + length lines)
      /\ first_ this' = first
      /\ length (value_ this') = length (value_ this)
      /\ length (coord_ this') = length (coord_ this)
      /\ forall t s, slots this !! t = Some s ->
           slots this' !! t
           = Some (fold_left merge_line
                     (filter (fun params => thread params = t) lines) s).
Proof.
  induction lines as [|params lines IH]; intros this n Hfirst Hlen Hthr Hdim Hfit.
  - exists this. split; [cbn; unfold ret; f_equal; lia|]. repeat split; auto.
  - inversion Hthr as [|? ? Ht Hthr']; subst. inversion Hfit as [|? ? Hf Hfit']; subst.
    inversion Hdim as [|? ? Hd Hdim']; subst.
    destruct (lookup_lt_is_Some_2 (slots this) (thread params)) as [s0 Hs0].
    { unfold slots. rewrite length_zip. lia. }
    destruct (Pixel_Filter_slots initial strict weak params this s0 Hd Hf Hlen Hs0)
      as (this1 & HF & Hfirst1 & Hlv & Hlc & Hslots1).
    destruct (IH this1 (S n)) as (this' & Hrun & Hfirst' & Hlv' & Hlc' & Hslot').
    { congruence. } { congruence. } { now rewrite Hlv. } { exact Hdim'. } { exact Hfit'. }
    exists this'. split.
    { cbn [run_lines]. unfold dip__Pixel.filter at 1. cbn [Filter].
      rewrite HF, Hrun. f_equal. simpl. lia. }
    split; [exact Hfirst'|]. split; [congruence|]. split; [congruence|].
    intros t s Hs. rewrite filter_cons.
    destruct (decide (thread params = t)) as [<-|Hne].
    + cbn [fold_left]. apply Hslot'. rewrite Hslots1.
      rewrite list_lookup_insert_eq by (eapply lookup_lt_Some; eauto).
      assert (s = s0) as -> by congruence. reflexivity.
    + apply Hslot'. rewrite Hslots1, list_lookup_insert_ne by exact Hne. exact Hs.
Qed.

(** Merging line after line is searching all the samples of the lines. *)
Lemma merge_lines_sim (lines : list (ScanLineFilterParameters TPI)) :
  Forall samples_in_range lines ->
  forall s s', sim s s' -> in_range (fst s) ->
    sim (fold_left merge_line lines s)
        (fold_left op (concat (map candidates lines)) s')
    /\ in_range (fst (fold_left merge_line lines s)).
Proof using order.
  induction 1 as [|params lines Hp _ IH]; intros s s' Hs Hr; [split; assumption|].
  cbn [fold_left map concat]. rewrite fold_left_app.
  assert (Hc : Forall (fun e => in_range (fst e)) (candidates params))
    by now apply candidates_in_range.
  apply IH.
  - eapply sim_trans.
    + apply (op_fold_from_initial initial strict weak in_range order first);
        [reflexivity|exact Hr].
    + now apply fold_op_sim_start.
  - apply op_in_range; [exact Hr|]. unfold line_best.
    apply fold_op_in_range; [exact Hc|].
    apply (initial_in_range _ _ _ _ order).
Qed.

(** Merging the slots of the threads is searching all their samples. *)
Lemma merge_slots_sim (Es : list (list (TPI * UnsignedArray))) :
  Forall (Forall (fun e => in_range (fst e))) Es ->
  forall s, in_range (fst s) ->
    sim (fold_left op (map (fun E => fold_left op E (initial, [])) Es) s)
        (fold_left op (concat Es) s).
Proof using order.
  induction 1 as [|E Es HE _ IH]; intros s Hr; [apply sim_refl|].
  cbn [fold_left map concat]. rewrite fold_left_app.
  eapply sim_trans.
  - apply fold_op_sim_start.
    apply (op_fold_from_initial initial strict weak in_range order first);
      [reflexivity|exact Hr].
  - apply IH. now apply fold_op_in_range.
Qed.

End PixelScan.

Section PixelResult.
Context {TPI : Type} (initial : TPI) (strict weak : TPI -> TPI -> bool).
Context (in_range : TPI -> Prop).
Context (order : PixelOrder initial strict weak in_range).
Context (first : bool).

Let beats := dip__Pixel.beats strict weak first.
Let op := pick beats.
Let sim := same_best initial strict.

(** A search either keeps the slot it started from, which no sample beats,
    or ends at an occurrence that beats all the samples before it and that
    none of the samples after it beats. *)
Lemma fold_op_occurrence (l : list (TPI * UnsignedArray)) :
  forall s,
    let r := fold_left op l s in
    (r = s /\ Forall (fun e => beats (fst e) (fst s) = false) l)
    \/ (exists pre post,
          l = pre ++ r :: post
          /\ beats (fst r) (fst s) = true
          /\ Forall (fun e => beats (fst r) (fst e) = true) pre
          /\ Forall (fun e => beats (fst e) (fst r) = false) post).
Proof using order.
  induction l as [|x l IH]; intros s; cbn zeta.
  - left. split; [reflexivity|constructor].
  - cbn [fold_left].
    assert (Hop : op s x = if beats (fst x) (fst s) then x else s) by reflexivity.
    rewrite Hop. clear Hop.
    destruct (beats (fst x) (fst s)) eqn:Hx.
    + right. destruct (IH x) as [[Hr Hall]|(pre & post & Hl & Hb & Hpre & Hpost)].
      * exists [], l. rewrite Hr. repeat split; auto.
      * exists (x :: pre), post. split; [now rewrite Hl at 1|].
        split; [eapply (beats_trans initial strict weak in_range order first); eauto|].
        split; [constructor; assumption|assumption].
    + destruct (IH s) as [[Hr Hall]|(pre & post & Hl & Hb & Hpre & Hpost)].
      * left. split; [exact Hr|constructor; assumption].
      * right. exists (x :: pre), post. split; [now rewrite Hl at 1|].
        split; [exact Hb|]. split; [|assumption]. constructor; [|assumption].
        destruct (beats (fst (fold_left op l s)) (fst x)) eqn:Hrx; [reflexivity|].
        pose proof (beats_negtrans initial strict weak in_range order first
                      _ _ _ Hrx Hx) as Hn.
        unfold beats in *. rewrite Hn in Hb. discriminate.
Qed.

Lemma slots_SetNumberOfThreads (threads : nat) :
  let this := dip__Pixel.SetNumberOfThreads initial threads (dip__Pixel.new first) in
  first_ this = first
  /\ length (value_ this) = threads
  /\ length (coord_ this) = threads
  /\ value_ this = replicate threads initial
  /\ forall t, t < threads -> slots this !! t = Some (initial, []).
Proof.
  cbn zeta. unfold dip__Pixel.SetNumberOfThreads, dip__Pixel.new, slots.
  cbn [first_ value_ coord_]. rewrite !resize_nil, !length_replicate.
  repeat split. intros t Ht. apply lookup_zip_with_Some.
  exists initial, []. split; [reflexivity|].
  split; now apply lookup_replicate_2.
Qed.

(** The result of a scan, for both [dip__MaxPixel] and [dip__MinPixel]: the
    scan returns, [GetResult] returns a coordinate array, and when some
    selected sample is strictly better than the value the search starts
    from, that array holds the coordinates of an occurrence, in the order
    [encountered], of the best value [M]: with [first_] the one that is
    strictly better than all the samples before it and that no sample after
    it is strictly better than (the earliest occurrence), without [first_]
    the one that is at least as good as all the samples before it and
    strictly better than all the samples after it (the latest occurrence). *)
Theorem Pixel_scan_finds_the_earliest_or_the_latest_occurrence
    (threads : nat) (lines : list (ScanLineFilterParameters TPI)) (n : nat) :
  plan_ok threads lines ->
  Forall dimension_exists lines ->
  Forall mask_fits lines ->
  Forall (fun params => Forall in_range (inBuffer params)) lines ->
  exists this c,
    Scan (Returns (threads, lines)) (dip__Pixel.filter initial strict weak)
      (dip__Pixel.new first) n
      = (Returns this, n + length lines)
    /\ dip__Pixel.GetResult strict weak this = Some c
    /\ (Exists (fun e => strict (fst e) initial = true) (encountered threads lines) ->
        exists M pre post,
          encountered threads lines = pre ++ (M, c) :: post
          /\ Forall (fun e => beats M (fst e) = true) pre
          /\ Forall (fun e => beats (fst e) M = false) post).
Proof using order.
  intros [Hpos Hthr] Hdim Hfit Hrange.
  destruct (slots_SetNumberOfThreads threads) as (Hfirst0 & Hlv0 & Hlc0 & _ & Hslots0).
  set (this0 := dip__Pixel.SetNumberOfThreads initial threads (dip__Pixel.new first)) in *.
  destruct (Pixel_run_lines initial strict weak first lines this0 n)
    as (this & Hrun & Hfirst & Hlv & Hlc & Hslot); auto; try congruence.
  { now rewrite Hlv0. }
  set (u := (initial, @nil N)).
  set (E := fun t => concat (map candidates
                               (filter (fun params => thread params = t) lines))).
  set (r := fun t => fold_left op (E t) u).
  assert (HE : forall t, Forall (fun e => in_range (fst e)) (E t)).
  { intros t. unfold E. apply Forall_concat, Forall_map.
    apply Forall_list_filter. eapply Forall_impl; [exact Hrange|].
    intros params Hp. now apply candidates_in_range. }
  assert (Hu : in_range (fst u)) by apply (initial_in_range _ _ _ _ order).
  assert (Hsim : Forall2 sim (slots this) (map r (seq 0 threads))).
  { apply Forall2_same_length_lookup. split.
    - unfold slots. rewrite length_zip, length_map, length_seq. lia.
    - intros t s s' Hs Hs'. rewrite list_lookup_fmap in Hs'.
      assert (Ht : t < threads).
      { apply lookup_lt_Some in Hs. unfold slots in Hs. rewrite length_zip in Hs. lia. }
      rewrite lookup_seq_lt in Hs' by exact Ht. cbn in Hs'. injection Hs' as <-.
      rewrite (Hslot t u (Hslots0 t Ht)) in Hs. injection Hs as <-.
      apply (merge_lines_sim initial strict weak in_range order first).
      + apply Forall_list_filter. exact Hrange.
      + apply sim_refl.
      + exact Hu. }
  destruct threads as [|k]; [lia|].
  cbn [seq map] in Hsim.
  inversion Hsim as [|s0 r0 rest rs Hs0 Hrest Heq Heq']. clear Hsim.
  subst r0 rs. rewrite <- seq_shift, map_map in Hrest.
  assert (Hres : dip__Pixel.GetResult strict weak this
                 = Some (snd (fold_left op rest s0))).
  { unfold op, beats. rewrite <- Hfirst.
    apply Pixel_GetResult_slots; [congruence|now symmetry]. }
  clear Heq.
  assert (Hfinal : sim (fold_left op rest s0)
                       (fold_left op (encountered (S k) lines) u)).
  { eapply sim_trans.
    - apply (fold_op_sim initial strict weak first _ _ Hrest _ _ Hs0).
    - replace (map (fun x => r (S x)) (seq 0 k))
        with (map (fun E => fold_left op E u) (map (fun t => E (S t)) (seq 0 k)))
        by now rewrite map_map.
      eapply sim_trans.
      + apply (merge_slots_sim initial strict weak in_range order first).
        * apply Forall_map. apply Forall_true. intros t. apply HE.
        * apply fold_op_in_range; [apply HE|exact Hu].
      + unfold r. rewrite <- fold_left_app.
        unfold encountered. cbn [seq map concat]. rewrite <- seq_shift, map_map.
        apply sim_refl. }
  exists this, (snd (fold_left op rest s0)).
  split; [exact Hrun|]. split; [exact Hres|].
  intros Hex. destruct Hfinal as [Hv Hc].
  set (best := fold_left op (encountered (S k) lines) u) in *.
  assert (Hall : Forall (fun e => in_range (fst e)) (encountered (S k) lines)).
  { unfold encountered. apply Forall_concat, Forall_map, Forall_true. intros t. apply HE. }
  pose proof (fold_op_occurrence (encountered (S k) lines) u) as Hocc.
  cbn zeta in Hocc. fold best in Hocc.
  destruct Hocc as [[Hr Hnone]|(pre & post & Hl & Hb & Hpre & Hpost)].
  - exfalso. apply Exists_exists in Hex as (e & He & Hse).
    rewrite Forall_forall in Hnone, Hall. specialize (Hnone e He).
    specialize (Hall e He).
    unfold beats, dip__Pixel.beats in Hnone. cbn [fst u] in Hnone. destruct first.
    + congruence.
    + rewrite (weak_not_strict _ _ _ _ order), negb_false_iff in Hnone.
      rewrite (initial_least _ _ _ _ order _ Hall) in Hnone. discriminate.
  - assert (Hbest : strict (fst best) initial = true).
    { apply Exists_exists in Hex as (e & He & Hse).
      destruct (strict (fst best) initial) eqn:Hbi; [reflexivity|exfalso].
      rewrite Hl in He. apply elem_of_app in He as [He|He].
      - rewrite Forall_forall in Hpre. specialize (Hpre e He).
        assert (Heb : strict (fst e) (fst best) = false).
        { unfold beats, dip__Pixel.beats in Hpre. destruct first.
          - destruct (strict (fst e) (fst best)) eqn:Heb; [|reflexivity].
            pose proof (strict_trans _ _ _ _ order _ _ _ Heb Hpre) as Hee.
            pose proof (strict_negtrans _ _ _ _ order _ _ _ Hbi
                          (initial_least _ _ _ _ order _
                             (proj1 (Forall_forall _ _) Hall e
                                ltac:(rewrite Hl; apply elem_of_app; now left)))) as Hbe.
            congruence.
          - now rewrite (weak_not_strict _ _ _ _ order), negb_true_iff in Hpre. }
        rewrite (strict_negtrans _ _ _ _ order _ _ _ Heb Hbi) in Hse. discriminate.
      - apply elem_of_cons in He as [->|He]; [congruence|].
        rewrite Forall_forall in Hpost. specialize (Hpost e He).
        assert (Heb : strict (fst e) (fst best) = false).
        { unfold beats, dip__Pixel.beats in Hpost. destruct first; [exact Hpost|].
          rewrite (weak_not_strict _ _ _ _ order), negb_false_iff in Hpost.
          destruct (strict (fst e) (fst best)) eqn:Heb; [|reflexivity].
          pose proof (strict_trans _ _ _ _ order _ _ _ Heb Hpost) as Hee.
          pose proof (strict_negtrans _ _ _ _ order _ _ _ Hbi
                        (initial_least _ _ _ _ order _
                           (proj1 (Forall_forall _ _) Hall e
                              ltac:(rewrite Hl; apply elem_of_app; right;
                                    now apply elem_of_cons; right)))) as Hbe.
          congruence. }
        rewrite (strict_negtrans _ _ _ _ order _ _ _ Heb Hbi) in Hse. discriminate. }
    rewrite <- Hv in Hbest. specialize (Hc Hbest).
    exists (fst best), pre, post. rewrite Hc. rewrite <- surjective_pairing.
    repeat split; assumption.
Qed.

End PixelResult.

(** ** MaximumPixel, MinimumPixel: where a candidate comes from *)

Lemma sample_coordinates_position {TPI : Type}
    (params : ScanLineFilterParameters TPI) (ii : nat) :
  dimension_exists params ->
  position_of params ii (sample_coordinates params (N.of_nat ii)).
Proof.
  intros Hd. destruct (lookup_lt_is_Some_2 _ _ Hd) as [p Hp].
  exists p. split; [exact Hp|].
  pose proof (update_at_alter (fun c => uint_add c (N.of_nat ii)) _ _ Hd) as Hu.
  unfold update_at in Hu. rewrite Hp in Hu. cbn [mbind option_bind] in Hu.
  injection Hu as Hu. unfold sample_coordinates. now rewrite <- Hu.
Qed.

Lemma candidates_unmasked_origin {TPI : Type} (params : ScanLineFilterParameters TPI)
    (in_ : list TPI) (e : TPI * UnsignedArray) :
  forall k : nat,
    e ∈ candidates_unmasked params (N.of_nat k) in_ ->
    exists ii, in_ !! ii = Some (fst e)
               /\ snd e = sample_coordinates params (N.of_nat (k + ii)).
Proof.
  induction in_ as [|x in_ IH]; intros k He; cbn [candidates_unmasked] in He.
  - now apply elem_of_nil in He.
  - apply elem_of_cons in He as [->|He].
    + exists 0. split; [reflexivity|]. cbn [snd]. now rewrite Nat.add_0_r.
    + replace (N.of_nat k + 1)%N with (N.of_nat (S k)) in He by lia.
      destruct (IH (S k) He) as (ii & Hx & Hc). exists (S ii).
      split; [exact Hx|]. rewrite Hc. do 2 f_equal. lia.
Qed.

Lemma candidates_masked_origin {TPI : Type} (params : ScanLineFilterParameters TPI)
    (in_ : list TPI) (e : TPI * UnsignedArray) :
  forall (mask : list bin) (k : nat),
    e ∈ candidates_masked params (N.of_nat k) in_ mask ->
    exists ii, in_ !! ii = Some (fst e) /\ mask !! ii = Some true
               /\ snd e = sample_coordinates params (N.of_nat (k + ii)).
Proof.
  induction in_ as [|x in_ IH]; intros mask k He; cbn [candidates_masked] in He.
  - now apply elem_of_nil in He.
  - destruct mask as [|m mask]; [now apply elem_of_nil in He|].
    apply elem_of_app in He as [He|He].
    + destruct m; [|now apply elem_of_nil in He].
      apply list_elem_of_singleton in He as ->.
      exists 0. split; [reflexivity|]. split; [reflexivity|].
      cbn [snd]. now rewrite Nat.add_0_r.
    + replace (N.of_nat k + 1)%N with (N.of_nat (S k)) in He by lia.
      destruct (IH mask (S k) He) as (ii & Hx & Hm & Hc). exists (S ii).
      split; [exact Hx|]. split; [exact Hm|]. rewrite Hc. do 2 f_equal. lia.
Qed.

(** A candidate of a scan is a selected sample of one of its lines, with
    the position of that sample. *)
Lemma encountered_origin {TPI : Type} (threads : nat)
    (lines : list (ScanLineFilterParameters TPI)) (e : TPI * UnsignedArray) :
  Forall dimension_exists lines ->
  e ∈ encountered threads lines ->
  exists params ii,
    params ∈ lines /\ selected_at params ii (fst e) /\ position_of params ii (snd e).
Proof.
  intros Hdim He. unfold encountered in He.
  apply list_elem_of_In, in_concat in He as (E & HE & He).
  apply in_map_iff in HE as (t & <- & _).
  apply in_concat in He as (C & HC & He).
  apply in_map_iff in HC as (params & <- & Hp).
  apply list_elem_of_In, list_elem_of_filter in Hp as [_ Hp].
  apply list_elem_of_In in He.
  assert (Hd : dimension_exists params).
  { rewrite Forall_forall in Hdim. now apply Hdim. }
  exists params. unfold candidates in He. unfold selected_at.
  destruct (maskBuffer params) as [mask|].
  - destruct (candidates_masked_origin params _ e mask 0 He) as (ii & Hx & Hm & Hc).
    exists ii. split; [exact Hp|]. split; [split; assumption|].
    rewrite Hc. now apply sample_coordinates_position.
  - destruct (candidates_unmasked_origin params _ e 0 He) as (ii & Hx & Hc).
    exists ii. split; [exact Hp|]. split; [split; [assumption|exact I]|].
    rewrite Hc. now apply sample_coordinates_position.
Qed.

(** ** MaximumPixel, MinimumPixel on the integer sample types *)

Lemma integer_max_order (lo hi : Z) :
  (lo <= hi)%Z -> PixelOrder lo Z.gtb Z.geb (integer_range lo hi).
Proof.
  intros Hlh. unfold integer_range. split.
  - intros a b. rewrite Z.geb_leb, Z.gtb_ltb. apply Z.leb_antisym.
  - intros a b c. rewrite !Z.gtb_ltb, !Z.ltb_lt. lia.
  - intros a b c. rewrite !Z.gtb_ltb, !Z.ltb_ge. lia.
  - lia.
  - intros v Hv. rewrite Z.gtb_ltb, Z.ltb_ge. lia.
  - intros v Hv. rewrite Z.gtb_ltb, Z.ltb_ge. lia.
Qed.

Lemma integer_min_order (lo hi : Z) :
  (lo <= hi)%Z -> PixelOrder hi Z.ltb Z.leb (integer_range lo hi).
Proof.
  intros Hlh. unfold integer_range. split.
  - intros a b. apply Z.leb_antisym.
  - intros a b c. rewrite !Z.ltb_lt. lia.
  - intros a b c. rewrite !Z.ltb_ge. lia.
  - lia.
  - intros v Hv. rewrite Z.ltb_ge. lia.
  - intros v Hv. rewrite Z.ltb_ge. lia.
Qed.

(** X4 (what C2 states, where it holds): on an image of an integer type
    whose lines run along a dimension of the image, and in which some
    selected sample is above the lowest value of the type, the scan returns and
    [dip__MaxPixel::GetResult] returns the position [c] of a selected sample
    that holds the maximum [M]: there is a line [params] and an index [ii]
    such that the sample [ii] of the line is [M], the mask selects it, and
    [c] is the position of the line with [ii] added along its dimension. In
    the order [encountered] it is, with [first_], the occurrence before which
    all the samples are below [M] (the earliest one) and, without [first_],
    the one after which all the samples are below [M] (the latest one). The
    same holds for [dip__MinPixel] and the minimum, when some selected sample
    is below the highest value of the type. *)
Theorem MaxPixel_and_MinPixel_find_the_earliest_or_the_latest_occurrence
    (lo hi : Z) (first : bool) (threads : nat)
    (lines : list (ScanLineFilterParameters Z)) (n : nat) :
  (lo <= hi)%Z ->
  plan_ok threads lines ->
  Forall dimension_exists lines ->
  Forall mask_fits lines ->
  Forall (fun params => Forall (integer_range lo hi) (inBuffer params)) lines ->
  let TPI := integer_type lo hi in
  (exists this c,
      Scan (Returns (threads, lines)) (dip__MaxPixel.filter TPI) (dip__Pixel.new first) n
        = (Returns this, n + length lines)
      /\ dip__MaxPixel.GetResult TPI this = Some c
      /\ (Exists (fun e => (lo < fst e)%Z) (encountered threads lines) ->
          exists M pre post,
            encountered threads lines = pre ++ (M, c) :: post
            /\ (exists params ii,
                  params ∈ lines /\ selected_at params ii M
                  /\ position_of params ii c)
            /\ Forall (fun e => (fst e <= M)%Z) (pre ++ post)
            /\ if first then Forall (fun e => (fst e < M)%Z) pre
               else Forall (fun e => (fst e < M)%Z) post))
  /\ (exists this c,
      Scan (Returns (threads, lines)) (dip__MinPixel.filter TPI) (dip__Pixel.new first) n
        = (Returns this, n + length lines)
      /\ dip__MinPixel.GetResult TPI this = Some c
      /\ (Exists (fun e => (fst e < hi)%Z) (encountered threads lines) ->
          exists M pre post,
            encountered threads lines = pre ++ (M, c) :: post
            /\ (exists params ii,
                  params ∈ lines /\ selected_at params ii M
                  /\ position_of params ii c)
            /\ Forall (fun e => (M <= fst e)%Z) (pre ++ post)
            /\ if first then Forall (fun e => (M < fst e)%Z) pre
               else Forall (fun e => (M < fst e)%Z) post)).
Proof.
  intros Hlh Hplan Hdim Hfit Hrange TPI.
  assert (Horigin : forall M c pre post,
             encountered threads lines = pre ++ (M, c) :: post ->
             exists params ii,
               params ∈ lines /\ selected_at params ii M /\ position_of params ii c).
  { intros M c pre post Hl.
    apply (encountered_origin threads lines (M, c) Hdim).
    rewrite Hl. apply elem_of_app. right. now left. }
  split.
  - destruct (Pixel_scan_finds_the_earliest_or_the_latest_occurrence
                lo Z.gtb Z.geb (integer_range lo hi) (integer_max_order lo hi Hlh)
                first threads lines n Hplan Hdim Hfit Hrange)
      as (this & c & Hscan & Hres & Hocc).
    exists this, c. split; [exact Hscan|]. split; [exact Hres|].
    intros Hex. destruct Hocc as (M & pre & post & Hl & Hpre & Hpost).
    { eapply Exists_impl; [exact Hex|]. intros e He. cbn. now apply Z.gtb_lt. }
    exists M, pre, post. split; [exact Hl|]. split; [exact (Horigin _ _ _ _ Hl)|].
    unfold dip__Pixel.beats in Hpre, Hpost. destruct first.
    + split; [apply Forall_app; split|].
      * eapply Forall_impl; [exact Hpre|]. intros e. cbn. rewrite Z.gtb_ltb, Z.ltb_lt. lia.
      * eapply Forall_impl; [exact Hpost|]. intros e. cbn. rewrite Z.gtb_ltb, Z.ltb_ge. lia.
      * eapply Forall_impl; [exact Hpre|]. intros e. cbn. rewrite Z.gtb_ltb, Z.ltb_lt. lia.
    + split; [apply Forall_app; split|].
      * eapply Forall_impl; [exact Hpre|]. intros e. cbn. rewrite Z.geb_leb, Z.leb_le. lia.
      * eapply Forall_impl; [exact Hpost|]. intros e. cbn. rewrite Z.geb_leb, Z.leb_gt. lia.
      * eapply Forall_impl; [exact Hpost|]. intros e. cbn. rewrite Z.geb_leb, Z.leb_gt. lia.
  - destruct (Pixel_scan_finds_the_earliest_or_the_latest_occurrence
                hi Z.ltb Z.leb (integer_range lo hi) (integer_min_order lo hi Hlh)
                first threads lines n Hplan Hdim Hfit Hrange)
      as (this & c & Hscan & Hres & Hocc).
    exists this, c. split; [exact Hscan|]. split; [exact Hres|].
    intros Hex. destruct Hocc as (M & pre & post & Hl & Hpre & Hpost).
    { eapply Exists_impl; [exact Hex|]. intros e He. cbn. now apply Z.ltb_lt. }
    exists M, pre, post. split; [exact Hl|]. split; [exact (Horigin _ _ _ _ Hl)|].
    unfold dip__Pixel.beats in Hpre, Hpost. destruct first.
    + split; [apply Forall_app; split|].
      * eapply Forall_impl; [exact Hpre|]. intros e. cbn. rewrite Z.ltb_lt. lia.
      * eapply Forall_impl; [exact Hpost|]. intros e. cbn. rewrite Z.ltb_ge. lia.
      * eapply Forall_impl; [exact Hpre|]. intros e. cbn. rewrite Z.ltb_lt. lia.
    + split; [apply Forall_app; split|].
      * eapply Forall_impl; [exact Hpre|]. intros e. cbn. rewrite Z.leb_le. lia.
      * eapply Forall_impl; [exact Hpost|]. intros e. cbn. rewrite Z.leb_gt. lia.
      * eapply Forall_impl; [exact Hpost|]. intros e. cbn. rewrite Z.leb_gt. lia.
Qed.

(** Two threads, a line each; the maximum 5 occurs on both lines, and with
    [first_] the scan returns the position of the occurrence on the line of
    thread 0. *)
Lemma MaxPixel_finds_the_occurrence_witness :
  exists this,
    Scan (Returns (2, [row_line 0%N [3; 5]%Z None 0; row_line 1%N [5; 2]%Z None 1]))
      (dip__MaxPixel.filter uint8) (dip__Pixel.new true) 0
      = (Returns this, 2)
    /\ dip__MaxPixel.GetResult uint8 this = Some [1%N; 0%N]
    /\ selected_at (row_line 0%N [3; 5]%Z None 0) 1 5%Z
    /\ position_of (row_line 0%N [3; 5]%Z None 0) 1 [1%N; 0%N].
Proof.
  destruct (proj1 (MaxPixel_and_MinPixel_find_the_earliest_or_the_latest_occurrence
              0 255 true 2
              [row_line 0%N [3; 5]%Z None 0; row_line 1%N [5; 2]%Z None 1] 0
              ltac:(lia)
              ltac:(split; [lia|repeat constructor])
              ltac:(unfold dimension_exists; repeat constructor)
              ltac:(repeat constructor)
              ltac:(unfold integer_range; repeat constructor; lia)))
    as (this & c & Hscan & Hres & Hocc).
  destruct Hocc as (M & pre & post & Hl & _ & Hle & Hlt).
  { apply Exists_cons_hd. simpl. lia. }
  assert (Hc : c = [1%N; 0%N]); [|subst c].
  { change (encountered 2 [row_line 0%N [3; 5]%Z None 0; row_line 1%N [5; 2]%Z None 1])
      with [(3%Z, [0%N; 0%N]); (5%Z, [1%N; 0%N]); (5%Z, [0%N; 1%N]); (2%Z, [1%N; 1%N])]
      in Hl.
    destruct pre as [|e0 [|e1 [|e2 [|e3 pre]]]]; cbn [app] in Hl, Hle;
      try (destruct pre; discriminate Hl);
      injection Hl as; subst;
      repeat match goal with
             | H : Forall _ (_ :: _) |- _ => apply Forall_cons in H as [? H]
             end;
      cbn [fst] in *; try lia; reflexivity. }
  exists this. split; [exact Hscan|]. split; [exact Hres|].
  split; [split; [reflexivity|exact I]|].
  exists 0%N. split; reflexivity.
Defined.

(** ** MaximumPixel, MinimumPixel: states without samples *)

Section PixelIdentity.
Context {TPI : Type} (initial : TPI) (strict weak : TPI -> TPI -> bool).

(** X8 (what C7 states, where it holds). [SetNumberOfThreads] puts the value
    the search starts from ([lowest()] for the maximum, [max()] for the
    minimum) in the slot of every thread. With [first_], merging a state in
    which no sample was pushed changes nothing, as long as the value
    [initial] is not strictly better than the best value [v] held so far:
    [Filter] for a line none of whose samples is selected returns the
    filter as it was, and a slot at the end of the vectors that still holds
    [initial] does not change what [GetResult] returns. *)
Theorem with_first_a_state_without_samples_is_an_identity :
  (forall (threads : nat) (first : bool),
      value_ (dip__Pixel.SetNumberOfThreads initial threads (dip__Pixel.new first))
      = replicate threads initial
      /\ coord_ (dip__Pixel.SetNumberOfThreads initial threads (dip__Pixel.new first))
         = replicate threads [])
  /\ (forall (params : ScanLineFilterParameters TPI) (this : PixelState TPI) (v : TPI),
        first_ this = true ->
        mask_fits params ->
        candidates params = [] ->
        value_ this !! thread params = Some v ->
        strict initial v = false ->
        dip__Pixel.Filter initial strict weak params this = Some this)
  /\ (forall (this : PixelState TPI) (coord : UnsignedArray),
        first_ this = true ->
        length (value_ this) = length (coord_ this) ->
        value_ this <> [] ->
        Forall (fun v => strict initial v = false) (value_ this) ->
        dip__Pixel.GetResult strict weak
          {| coord_ := coord_ this ++ [coord]; value_ := value_ this ++ [initial];
             first_ := true |}
        = dip__Pixel.GetResult strict weak this).
Proof.
  split; [|split].
  - intros threads first. unfold dip__Pixel.SetNumberOfThreads, dip__Pixel.new.
    cbn [value_ coord_]. now rewrite !resize_nil.
  - intros params this v Hfirst Hfit Hnone Hv Hleast.
    rewrite (Pixel_Filter_search initial strict weak) by exact Hfit.
    rewrite Hnone, line_search_nothing by constructor.
    cbn [mbind option_bind fst snd]. rewrite Hv. cbn [mbind option_bind].
    rewrite Hfirst. cbn [dip__Pixel.beats]. now rewrite Hleast.
  - intros this coord Hfirst Hlen Hne Hleast.
    destruct (slots this) as [|s rest] eqn:Hslots.
    { unfold slots in Hslots. apply (f_equal length) in Hslots.
      rewrite length_zip in Hslots. destruct (value_ this); [congruence|].
      cbn [length] in *. lia. }
    rewrite (Pixel_GetResult_slots strict weak this s rest Hlen Hslots).
    rewrite (Pixel_GetResult_slots strict weak _ s (rest ++ [(initial, coord)])).
    + cbn [first_]. rewrite Hfirst, fold_left_app. cbn [fold_left].
      unfold pick at 1. cbn [fst snd dip__Pixel.beats].
      set (best := fold_left _ rest s).
      assert (Hin : fst best ∈ value_ this).
      { assert (Hb : best ∈ slots this).
        { rewrite Hslots. subst best. clear. revert s.
          induction rest as [|x rest IH]; intros s; [now left|].
          cbn [fold_left]. unfold pick at 2.
          destruct (dip__Pixel.beats strict weak true (fst x) (fst s)).
          - right. apply IH.
          - specialize (IH s). apply elem_of_cons in IH as [->|IH];
              [now left|right; now right]. }
        unfold slots in Hb. apply list_elem_of_lookup in Hb as [i Hi].
        apply lookup_zip_with_Some in Hi as (v & c & -> & Hv & _).
        apply list_elem_of_lookup. eauto. }
      rewrite Forall_forall in Hleast. now rewrite (Hleast _ Hin).
    + cbn [value_ coord_]. rewrite !length_app. simpl. lia.
    + unfold slots in *. cbn [value_ coord_].
      rewrite zip_with_app by exact Hlen. now rewrite Hslots.
Qed.

End PixelIdentity.

(** ** Accumulators: merging the threads *)

Section MergeLaw.
Context {T dfloat A : Type}.
Context (static_cast : T -> dfloat).
Context (new : A) (Push : A -> dfloat -> A) (plus_eq : A -> A -> A).

Let acc := accumulate static_cast new Push.

(** Modelled from the spec: the invariant of the accumulators (section 3):
    combining with [+=] two accumulators built over two groups of samples
    yields the accumulator built over the samples of both. The accumulators
    themselves (accumulators.h) are not part of these sources. *)
Hypothesis merge_law : forall l1 l2, plus_eq (acc l1) (acc l2) = acc (l1 ++ l2).

Lemma accumulating_Filter_spec (params : ScanLineFilterParameters T)
    (accArray_ : list A) (l : list T) :
  mask_fits params ->
  accArray_ !! thread params = Some (acc l) ->
  dip__SampleStatistics.Filter static_cast new Push plus_eq params accArray_
  = Some (<[thread params := acc (l ++ selected params)]> accArray_).
Proof using merge_law.
  intros Hfit Hslot. unfold dip__SampleStatistics.Filter, merge_into_slot.
  assert (Hvars : match maskBuffer params with
                  | Some mask =>
                      for_masked (fun vars x => Push vars (static_cast x))
                        (inBuffer params) mask new
                  | None =>
                      Some (for_unmasked (fun vars x => Push vars (static_cast x))
                              (inBuffer params) new)
                  end = Some (acc (selected params))).
  { unfold selected, mask_fits in *. destruct (maskBuffer params) as [mask|].
    - now rewrite for_masked_spec.
    - reflexivity. }
  rewrite Hvars. cbn [mbind option_bind]. rewrite Hslot. cbn [mbind option_bind].
  now rewrite merge_law.
Qed.

Lemma accumulating_run_lines (lines : list (ScanLineFilterParameters T)) :
  forall (accArray_ : list A) (ls : list (list T)) (n : nat),
    accArray_ = map acc ls ->
    Forall (fun params => thread params < length ls) lines ->
    Forall mask_fits lines ->
    run_lines (dip__SampleStatistics.filter static_cast new Push plus_eq) lines
      accArray_ n
    = (Returns (map acc (imap (fun t l =>
                  l ++ concat (map selected
                                 (filter (fun params => thread params = t) lines)))
                ls)),
       n + length lines).
Proof using merge_law.
  induction lines as [|params lines IH]; intros accArray_ ls n -> Hthr Hfit.
  - cbn. unfold ret. f_equal; [|lia]. do 2 f_equal.
    apply list_eq. intros t. rewrite list_lookup_imap.
    destruct (ls !! t); cbn; [now rewrite app_nil_r|reflexivity].
  - inversion Hthr as [|? ? Ht Hthr']; subst. inversion Hfit as [|? ? Hf Hfit']; subst.
    destruct (lookup_lt_is_Some_2 ls (thread params) Ht) as [l Hl].
    cbn [run_lines]. unfold dip__SampleStatistics.filter at 1. cbn [Filter].
    rewrite (accumulating_Filter_spec params (map acc ls) l Hf).
    2:{ rewrite list_lookup_fmap, Hl. reflexivity. }
    rewrite <- (list_fmap_insert acc).
    rewrite (IH _ (<[thread params := l ++ selected params]> ls) (S n) eq_refl).
    2:{ now rewrite length_insert. }
    2:{ exact Hfit'. }
    f_equal; [|simpl; lia]. do 2 f_equal.
    apply list_eq. intros t. rewrite !list_lookup_imap, filter_cons.
    destruct (decide (thread params = t)) as [<-|Hne].
    + rewrite list_lookup_insert_eq by exact Ht. rewrite Hl.
      cbn [fmap option_fmap option_map map concat]. now rewrite <- app_assoc.
    + rewrite list_lookup_insert_ne by congruence. reflexivity.
Qed.

Lemma merge_slots_spec (ls : list (list T)) :
  ls <> [] -> merge_slots plus_eq (map acc ls) = Some (acc (concat ls)).
Proof using merge_law.
  destruct ls as [|l ls]; [congruence|]. intros _. cbn [map merge_slots concat].
  f_equal. revert l. induction ls as [|l' ls IH]; intros l; cbn [map fold_left concat].
  - now rewrite app_nil_r.
  - rewrite merge_law, IH. now rewrite app_assoc.
Qed.

(** X11 (what C1 states, for the filters of [SampleStatistics] and, with
    pairs of samples, of [Covariance]): if the accumulator keeps the
    invariant of section 3, then however the lines are distributed over the
    threads, the scan returns and [GetResult] is the accumulator that has
    been pushed all the selected samples in one pass. *)
Theorem merged_accumulators_are_the_accumulator_of_one_pass
    (threads : nat) (lines : list (ScanLineFilterParameters T)) (n : nat) :
  plan_ok threads lines ->
  Forall mask_fits lines ->
  exists accArray_,
    Scan (Returns (threads, lines))
      (dip__SampleStatistics.filter static_cast new Push plus_eq) [] n
      = (Returns accArray_, n + length lines)
    /\ dip__SampleStatistics.GetResult plus_eq accArray_
       = Some (acc (scanned_samples threads lines)).
Proof using merge_law.
  intros [Hpos Hthr] Hfit. eexists. split.
  - unfold Scan. unfold dip__SampleStatistics.filter at 2. cbn [SetNumberOfThreads].
    unfold dip__SampleStatistics.SetNumberOfThreads. rewrite resize_nil.
    apply (accumulating_run_lines lines _ (replicate threads [])).
    + now rewrite fmap_replicate.
    + now rewrite length_replicate.
    + exact Hfit.
  - unfold dip__SampleStatistics.GetResult. rewrite merge_slots_spec.
    + do 2 f_equal. unfold scanned_samples. f_equal.
      apply list_eq. intros t. rewrite list_lookup_imap, !list_lookup_fmap.
      destruct (decide (t < threads)) as [Ht|Ht].
      * rewrite lookup_replicate_2, lookup_seq_lt by exact Ht. reflexivity.
      * rewrite (proj1 (lookup_replicate_None _ _ _)), lookup_seq_ge by lia.
        reflexivity.
    + intros Himap. apply (f_equal length) in Himap.
      rewrite length_imap, length_replicate in Himap. simpl in Himap. lia.
Qed.

End MergeLaw.

(** The filter of [Covariance] is the accumulating filter for pairs of
    samples, and the one-sample-at-a-time filter of [MaximumAndMinimum] is
    the accumulating filter: the theorem above applies to them as it is. *)
Lemma Covariance_Filter_is_accumulating {TPI dfloat A : Type}
    (static_cast : TPI -> dfloat) (new : A) (Push : A -> dfloat -> dfloat -> A)
    (plus_eq : A -> A -> A) :
  dip__Covariance.filter static_cast new Push plus_eq
  = dip__SampleStatistics.filter
      (fun x : TPI * TPI => (static_cast (fst x), static_cast (snd x)))
      new (fun vars (x : dfloat * dfloat) => Push vars (fst x) (snd x)) plus_eq.
Proof. reflexivity. Qed.

Lemma MaximumAndMinimum_one_at_a_time_is_accumulating {TPI dfloat A : Type}
    (static_cast : TPI -> dfloat) (new : A) (Push : A -> dfloat -> A)
    (plus_eq : A -> A -> A) :
  dip__MaximumAndMinimum.filter_one_at_a_time static_cast new Push plus_eq
  = dip__SampleStatistics.filter static_cast new Push plus_eq.
Proof. reflexivity. Qed.

(** The accumulator of the minimum and the maximum keeps the invariant, on
    integer samples. *)
Lemma fold_min_from (l : list Z) (hi a : Z) :
  (a <= hi)%Z ->
  fold_left (MinMaxAccumulator.std_min Z.ltb) l a
  = Z.min a (fold_left (MinMaxAccumulator.std_min Z.ltb) l hi).
Proof.
  revert hi a. induction l as [|x l IH]; intros hi a Ha; cbn [fold_left]; [lia|].
  assert (Hmin : forall u v, MinMaxAccumulator.std_min Z.ltb u v = Z.min u v).
  { intros u v. unfold MinMaxAccumulator.std_min. destruct (Z.ltb_spec v u); lia. }
  rewrite !Hmin.
  rewrite (IH hi (Z.min a x)) by lia. rewrite (IH hi (Z.min hi x)) by lia. lia.
Qed.

Lemma fold_max_from (l : list Z) (lo a : Z) :
  (lo <= a)%Z ->
  fold_left (MinMaxAccumulator.std_max Z.ltb) l a
  = Z.max a (fold_left (MinMaxAccumulator.std_max Z.ltb) l lo).
Proof.
  revert lo a. induction l as [|x l IH]; intros lo a Ha; cbn [fold_left]; [lia|].
  assert (Hmax : forall u v, MinMaxAccumulator.std_max Z.ltb u v = Z.max u v).
  { intros u v. unfold MinMaxAccumulator.std_max. destruct (Z.ltb_spec u v); lia. }
  rewrite !Hmax.
  rewrite (IH lo (Z.max a x)) by lia. rewrite (IH lo (Z.max lo x)) by lia. lia.
Qed.

Lemma accumulate_minmax (lo hi : Z) (l : list Z) :
  accumulate id (Z_minmax_new lo hi) (MinMaxAccumulator.Push Z.ltb) l
  = {| MinMaxAccumulator.min_ := fold_left (MinMaxAccumulator.std_min Z.ltb) l hi;
       MinMaxAccumulator.max_ := fold_left (MinMaxAccumulator.std_max Z.ltb) l lo |}.
Proof.
  unfold accumulate, Z_minmax_new, MinMaxAccumulator.new.
  revert lo hi. induction l as [|x l IH]; intros lo hi; [reflexivity|].
  cbn [fold_left]. unfold MinMaxAccumulator.Push at 2.
  cbn [MinMaxAccumulator.min_ MinMaxAccumulator.max_ id]. apply IH.
Qed.

Lemma fold_min_le (l : list Z) (a : Z) :
  (fold_left (MinMaxAccumulator.std_min Z.ltb) l a <= a)%Z.
Proof.
  revert a. induction l as [|x l IH]; intros a; cbn [fold_left]; [lia|].
  specialize (IH (MinMaxAccumulator.std_min Z.ltb a x)).
  unfold MinMaxAccumulator.std_min in *. destruct (Z.ltb_spec x a); lia.
Qed.

Lemma fold_max_ge (l : list Z) (a : Z) :
  (a <= fold_left (MinMaxAccumulator.std_max Z.ltb) l a)%Z.
Proof.
  revert a. induction l as [|x l IH]; intros a; cbn [fold_left]; [lia|].
  specialize (IH (MinMaxAccumulator.std_max Z.ltb a x)).
  unfold MinMaxAccumulator.std_max in *. destruct (Z.ltb_spec a x); lia.
Qed.

Lemma minmax_merge_law (lo hi : Z) (l1 l2 : list Z) :
  MinMaxAccumulator.plus_eq Z.ltb
    (accumulate id (Z_minmax_new lo hi) (MinMaxAccumulator.Push Z.ltb) l1)
    (accumulate id (Z_minmax_new lo hi) (MinMaxAccumulator.Push Z.ltb) l2)
  = accumulate id (Z_minmax_new lo hi) (MinMaxAccumulator.Push Z.ltb) (l1 ++ l2).
Proof.
  rewrite !accumulate_minmax, !fold_left_app. unfold MinMaxAccumulator.plus_eq.
  cbn [MinMaxAccumulator.min_ MinMaxAccumulator.max_].
  rewrite (fold_min_from l2 hi (fold_left _ l1 hi)) by apply fold_min_le.
  rewrite (fold_max_from l2 lo (fold_left _ l1 lo)) by apply fold_max_ge.
  f_equal.
  - unfold MinMaxAccumulator.std_min at 1.
    destruct (Z.ltb_spec (fold_left (MinMaxAccumulator.std_min Z.ltb) l2 hi)
                (fold_left (MinMaxAccumulator.std_min Z.ltb) l1 hi)); lia.
  - unfold MinMaxAccumulator.std_max at 1.
    destruct (Z.ltb_spec (fold_left (MinMaxAccumulator.std_max Z.ltb) l1 lo)
                (fold_left (MinMaxAccumulator.std_max Z.ltb) l2 lo)); lia.
Qed.

Lemma merged_accumulators_witness :
  exists accArray_,
    Scan (Returns (2, [row_line 0%N [3; 5]%Z None 0; row_line 1%N [5; 2]%Z None 1]))
      (dip__SampleStatistics.filter id (Z_minmax_new (-128) 127)
         (MinMaxAccumulator.Push Z.ltb) (MinMaxAccumulator.plus_eq Z.ltb)) [] 0
      = (Returns accArray_, 2)
    /\ dip__SampleStatistics.GetResult (MinMaxAccumulator.plus_eq Z.ltb) accArray_
       = Some {| MinMaxAccumulator.min_ := 2%Z; MinMaxAccumulator.max_ := 5%Z |}.
Proof.
  exact (merged_accumulators_are_the_accumulator_of_one_pass id
           (Z_minmax_new (-128) 127) (MinMaxAccumulator.Push Z.ltb)
           (MinMaxAccumulator.plus_eq Z.ltb) (minmax_merge_law (-128) 127) 2
           [row_line 0%N [3; 5]%Z None 0; row_line 1%N [5; 2]%Z None 1] 0
           ltac:(split; [lia|repeat constructor]) ltac:(repeat constructor)).
Defined.

Lemma N_sum_app (l1 l2 : list N) : N_sum (l1 ++ l2) = (N_sum l1 + N_sum l2)%N.
Proof.
  unfold N_sum. induction l1 as [|x l1 IH]; cbn [app foldr]; [reflexivity|].
  rewrite IH. lia.
Qed.

(** X3 (what C1 states, for [Count]): the counts of two groups of lines,
    added as [GetResult] adds the counters, are the count of all the lines. *)
Theorem Count_of_two_groups_is_the_count_of_all
    (threads1 threads2 threads : nat)
    (lines1 lines2 : list (ScanLineFilterParameters bin)) (n : nat) :
  plan_ok threads1 lines1 ->
  plan_ok threads2 lines2 ->
  plan_ok threads (lines1 ++ lines2) ->
  Forall mask_fits (lines1 ++ lines2) ->
  exists r1 r2,
    Count_lines threads1 lines1 n = (Returns r1, n + length lines1)
    /\ Count_lines threads2 lines2 n = (Returns r2, n + length lines2)
    /\ Count_lines threads (lines1 ++ lines2) n
       = (Returns (uint_add r1 r2), n + length (lines1 ++ lines2)).
Proof.
  intros Hp1 Hp2 Hp Hfit. apply Forall_app in Hfit as H12. destruct H12 as [Hf1 Hf2].
  destruct (Count_lines_spec threads1 lines1 n Hp1 Hf1) as (_ & _ & _ & _ & _ & H1).
  destruct (Count_lines_spec threads2 lines2 n Hp2 Hf2) as (_ & _ & _ & _ & _ & H2).
  destruct (Count_lines_spec threads _ n Hp Hfit) as (_ & _ & _ & _ & _ & H).
  eexists _, _. split; [exact H1|]. split; [exact H2|].
  rewrite H. do 2 f_equal. unfold uint_add. rewrite wrap_add_l, wrap_add_r.
  f_equal. now rewrite map_app, N_sum_app.
Qed.

(** ** Count: further properties *)

Lemma how_many_le {A} (f : A -> bool) (l : list A) :
  (how_many f l <= N.of_nat (length l))%N.
Proof.
  induction l as [|x l IH]; cbn [how_many length]; [lia|].
  destruct (f x); lia.
Qed.

Lemma set_samples_le (params : ScanLineFilterParameters bin) :
  (set_samples params <= N.of_nat (length (inBuffer params)))%N.
Proof.
  unfold set_samples. destruct (maskBuffer params) as [mask|].
  - etransitivity; [apply how_many_le|]. rewrite length_zip. lia.
  - apply how_many_le.
Qed.

Lemma N_sum_map_le {A} (f g : A -> N) (l : list A) :
  (forall x, (f x <= g x)%N) -> (N_sum (map f l) <= N_sum (map g l))%N.
Proof.
  intros H. unfold N_sum. induction l as [|x l IH]; cbn [map foldr]; [lia|].
  specialize (H x). lia.
Qed.

Lemma wrap_le (n : N) : (wrap n <= n)%N.
Proof. unfold wrap. apply N.Div0.mod_le. Qed.

Lemma set_samples_clear (params : ScanLineFilterParameters bin) :
  Forall (fun x => x = false) (inBuffer params) -> set_samples params = 0%N.
Proof.
  unfold set_samples. generalize (inBuffer params) as in_. intros in_ Hp.
  destruct (maskBuffer params) as [mask|].
  - revert mask. induction Hp as [|x in_ -> _ IH]; intros [|m mask];
      try reflexivity.
    cbn [zip zip_with how_many fst snd]. unfold zip in IH. rewrite IH.
    unfold counted. reflexivity.
  - induction Hp as [|x in_ -> _ IH]; [reflexivity|].
    cbn [how_many]. now rewrite IH.
Qed.

(** X1: [Count] never returns more than the number of samples it was given:
    the scan returns, and the result is at most the number of counted
    samples, which is at most the number of samples of the lines. An image
    none of whose samples is set counts 0. *)
Theorem Count_is_at_most_the_number_of_samples
    (threads : nat) (lines : list (ScanLineFilterParameters bin)) (n : nat) :
  plan_ok threads lines ->
  Forall mask_fits lines ->
  exists r : N,
    Count_lines threads lines n = (Returns r, n + length lines)
    /\ (r <= N_sum (map set_samples lines) <= number_of_samples lines)%N
    /\ (Forall (fun params => Forall (fun x => x = false) (inBuffer params)) lines ->
        r = 0%N).
Proof.
  intros Hplan Hfit.
  destruct (Count_lines_spec threads lines n Hplan Hfit) as (_ & _ & _ & _ & _ & H).
  eexists. split; [exact H|]. split; [split|].
  - apply wrap_le.
  - apply N_sum_map_le, set_samples_le.
  - intros Hclear.
    assert (map set_samples lines = map (fun _ => 0%N) lines) as ->.
    { apply map_ext_Forall. eapply Forall_impl; [exact Hclear|].
      intros params Hp. cbn beta. now apply set_samples_clear. }
    clear. induction lines as [|params lines IH]; [reflexivity|].
    unfold N_sum in *. cbn [map foldr]. rewrite N.add_0_l. exact IH.
Qed.

Lemma Count_is_at_most_the_number_of_samples_witness :
  exists r : N,
    Count_lines 2 [row_line 0%N [true; false; true] None 0;
                   row_line 1%N [true; true; false] (Some [false; true; true]) 1] 0
      = (Returns r, 0 + 2)
    /\ (r <= 3 <= 6)%N.
Proof.
  destruct (Count_is_at_most_the_number_of_samples 2
              [row_line 0%N [true; false; true] None 0;
               row_line 1%N [true; true; false] (Some [false; true; true]) 1] 0)
    as (r & Hr & Hle & _).
  - split; [lia|repeat constructor].
  - repeat constructor.
  - exists r. split; [exact Hr|exact Hle].
Defined.

Lemma how_many_complement (mask in_ : list bin) :
  length in_ <= length mask ->
  (how_many (fun p => counted (Some (fst p)) (snd p)) (zip mask in_)
   + how_many (fun p => counted (Some (fst p)) (snd p)) (zip (map negb mask) in_)
   = how_many (counted None) in_)%N.
Proof.
  revert mask. induction in_ as [|x in_ IH]; intros [|m mask] Hlen;
    cbn [length] in Hlen; try reflexivity; try lia.
  specialize (IH mask ltac:(lia)).
  unfold counted in *. simpl in *. destruct x, m; simpl; lia.
Qed.

Lemma set_samples_complement (params : ScanLineFilterParameters bin) :
  has_mask params ->
  (set_samples params + set_samples (complement_mask params)
   = set_samples (without_mask params))%N.
Proof.
  intros (mask & Hm & Hlen). unfold set_samples, complement_mask.
  cbn [maskBuffer inBuffer without_mask]. rewrite Hm.
  cbn [fmap option_fmap option_map]. now apply how_many_complement.
Qed.

Lemma N_sum_map_add {A} (f g h : A -> N) (l : list A) :
  Forall (fun x => (f x + g x = h x)%N) l ->
  (N_sum (map f l) + N_sum (map g l) = N_sum (map h l))%N.
Proof.
  unfold N_sum. induction 1 as [|x l Hx _ IH]; cbn [map foldr]; lia.
Qed.

(** X2: a mask and its complement split the count: for lines that all have
    a mask, the count with the mask plus the count with the complement of
    the mask (added as [dip::uint] values) is the count without a mask. *)
Theorem Count_with_a_mask_and_with_its_complement
    (threads : nat) (lines : list (ScanLineFilterParameters bin)) (n : nat) :
  plan_ok threads lines ->
  Forall has_mask lines ->
  exists r1 r2 : N,
    Count_lines threads lines n = (Returns r1, n + length lines)
    /\ Count_lines threads (map complement_mask lines) n
       = (Returns r2, n + length lines)
    /\ Count_lines threads (map without_mask lines) n
       = (Returns (uint_add r1 r2), n + length lines).
Proof.
  intros [Hpos Hthr] Hmask.
  assert (Hfit : Forall mask_fits lines).
  { eapply Forall_impl; [exact Hmask|]. intros params (mask & Hm & Hlen).
    unfold mask_fits. now rewrite Hm. }
  assert (Hfit' : Forall mask_fits (map complement_mask lines)).
  { apply Forall_map. eapply Forall_impl; [exact Hmask|].
    intros params (mask & Hm & Hlen). unfold mask_fits, complement_mask.
    cbn [maskBuffer inBuffer]. rewrite Hm. cbn. now rewrite length_map. }
  assert (Hfit'' : Forall mask_fits (map without_mask lines)).
  { apply Forall_map, Forall_true. intros params. exact I. }
  destruct (Count_lines_spec threads lines n (conj Hpos Hthr) Hfit)
    as (_ & _ & _ & _ & _ & H1).
  destruct (Count_lines_spec threads (map complement_mask lines) n)
    as (_ & _ & _ & _ & _ & H2); [split; [exact Hpos|now apply Forall_map]|exact Hfit'|].
  destruct (Count_lines_spec threads (map without_mask lines) n)
    as (_ & _ & _ & _ & _ & H3); [split; [exact Hpos|now apply Forall_map]|exact Hfit''|].
  rewrite length_map in H2, H3.
  eexists _, _. split; [exact H1|]. split; [exact H2|].
  rewrite H3. do 2 f_equal. unfold uint_add. rewrite wrap_add_l, wrap_add_r.
  f_equal. rewrite !map_map. symmetry. apply N_sum_map_add.
  eapply Forall_impl; [exact Hmask|]. intros params. apply set_samples_complement.
Qed.

Lemma Count_with_a_mask_and_with_its_complement_witness :
  exists r1 r2 : N,
    Count_lines 1 [row_line 0%N [true; true; false] (Some [false; true; true]) 0] 0
      = (Returns r1, 0 + 1)
    /\ Count_lines 1 [row_line 0%N [true; true; false] (Some [true; false; false]) 0] 0
       = (Returns r2, 0 + 1)
    /\ Count_lines 1 [row_line 0%N [true; true; false] None 0] 0
       = (Returns (uint_add r1 r2), 0 + 1).
Proof.
  refine (Count_with_a_mask_and_with_its_complement 1
            [row_line 0%N [true; true; false] (Some [false; true; true]) 0] 0 _ _).
  - split; [lia|repeat constructor].
  - repeat constructor. eexists. split; [reflexivity|]. simpl. lia.
Defined.

Lemma Count_of_two_groups_witness :
  exists r1 r2 : N,
    Count_lines 1 [row_line 0%N [true; false; true] None 0] 0 = (Returns r1, 0 + 1)
    /\ Count_lines 1 [row_line 1%N [true; true; false] (Some [false; true; true]) 0] 0
       = (Returns r2, 0 + 1)
    /\ Count_lines 2 [row_line 0%N [true; false; true] None 0;
                      row_line 1%N [true; true; false] (Some [false; true; true]) 0] 0
       = (Returns (uint_add r1 r2), 0 + 2).
Proof.
  refine (Count_of_two_groups_is_the_count_of_all 1 1 2
            [row_line 0%N [true; false; true] None 0]
            [row_line 1%N [true; true; false] (Some [false; true; true]) 0] 0 _ _ _ _).
  - split; [lia|repeat constructor].
  - split; [lia|repeat constructor].
  - split; [lia|repeat constructor].
  - repeat constructor.
Defined.

(** ** MaximumPixel, MinimumPixel: further properties *)

Lemma MaxPixel_with_first_witness :
  let this := {| coord_ := [[1%N; 0%N]]; value_ := [5%Z]; first_ := true |} in
  dip__MaxPixel.Filter uint8 (row_line 1%N [7; 9]%Z (Some [false; false]) 0) this
    = Some this
  /\ dip__MaxPixel.GetResult uint8
       {| coord_ := [[1%N; 0%N]] ++ [[]]; value_ := [5%Z] ++ [lowest uint8];
          first_ := true |}
     = dip__MaxPixel.GetResult uint8 this.
Proof.
  cbv zeta.
  pose proof (with_first_a_state_without_samples_is_an_identity
                (lowest uint8) (gt uint8) (ge uint8)) as (_ & HF & HG).
  split.
  - apply (HF (row_line 1%N [7; 9]%Z (Some [false; false]) 0) _ 5%Z);
      [reflexivity|unfold mask_fits; simpl; lia|reflexivity|reflexivity|reflexivity].
  - apply (HG {| coord_ := [[1%N; 0%N]]; value_ := [5%Z]; first_ := true |} []);
      [reflexivity|reflexivity|discriminate|repeat constructor].
Defined.

Section PixelMasks.
Context {TPI : Type} (initial : TPI) (strict weak : TPI -> TPI -> bool).

Lemma candidates_masked_all_true (params : ScanLineFilterParameters TPI)
    (in_ : list TPI) :
  forall (mask : list bin) (ii : N),
    length mask = length in_ ->
    Forall (fun m => m = true) mask ->
    candidates_masked params ii in_ mask = candidates_unmasked params ii in_.
Proof.
  induction in_ as [|x in_ IH]; intros [|m mask] ii Hlen Hall;
    cbn [length] in Hlen; try reflexivity; try lia.
  inversion Hall as [|? ? -> Hall']; subst.
  cbn [candidates_masked candidates_unmasked app]. f_equal. apply IH; [lia|exact Hall'].
Qed.

Lemma candidates_masked_all_false (params : ScanLineFilterParameters TPI)
    (in_ : list TPI) :
  forall (mask : list bin) (ii : N),
    Forall (fun m => m = false) mask ->
    candidates_masked params ii in_ mask = [].
Proof.
  induction in_ as [|x in_ IH]; intros [|m mask] ii Hall; try reflexivity.
  inversion Hall as [|? ? -> Hall']; subst.
  cbn [candidates_masked app]. now apply IH.
Qed.

Lemma candidates_unmasked_params (params params' : ScanLineFilterParameters TPI)
    (in_ : list TPI) :
  dimension params' = dimension params ->
  position params' = position params ->
  forall ii, candidates_unmasked params' ii in_ = candidates_unmasked params ii in_.
Proof.
  intros Hd Hp. induction in_ as [|x in_ IH]; intros ii; [reflexivity|].
  cbn [candidates_unmasked]. rewrite IH. unfold sample_coordinates.
  now rewrite Hd, Hp.
Qed.

(** The outcome of the search along a line depends on the line through its
    selected samples and their coordinates only. *)
Lemma Pixel_Filter_candidates (params params' : ScanLineFilterParameters TPI)
    (this : PixelState TPI) :
  mask_fits params -> mask_fits params' ->
  candidates params' = candidates params ->
  dimension params' = dimension params ->
  length (position params') = length (position params) ->
  thread params' = thread params ->
  dip__Pixel.Filter initial strict weak params' this
  = dip__Pixel.Filter initial strict weak params this.
Proof.
  intros Hfit Hfit' Hc Hd Hl Ht.
  rewrite !(Pixel_Filter_search initial strict weak) by assumption.
  unfold line_search.
  destruct (decide (dimension_exists params')) as [H'|H'],
           (decide (dimension_exists params)) as [H|H];
    unfold dimension_exists in *; rewrite ?Hc, ?Hl, ?Ht; try reflexivity;
    exfalso; lia.
Qed.

End PixelMasks.

(** X5: for [dip__MaxPixel] and [dip__MinPixel], a mask all of whose samples
    are set changes nothing: [Filter] does to its member variables what it
    does for the same line without a mask. A mask none of whose samples is
    set makes [Filter] do what it does for a line without samples, whatever
    the samples are. *)
Theorem MaxPixel_and_MinPixel_with_a_mask_that_is_all_true_or_all_false
    (TPI : RealType) (params : ScanLineFilterParameters TPI)
    (this : PixelState TPI) :
  (mask_is true params ->
     dip__MaxPixel.Filter TPI params this
       = dip__MaxPixel.Filter TPI (without_mask params) this
     /\ dip__MinPixel.Filter TPI params this
       = dip__MinPixel.Filter TPI (without_mask params) this)
  /\ (mask_is false params ->
     dip__MaxPixel.Filter TPI params this
       = dip__MaxPixel.Filter TPI (without_samples params) this
     /\ dip__MinPixel.Filter TPI params this
       = dip__MinPixel.Filter TPI (without_samples params) this).
Proof.
  split.
  - intros (mask & Hm & Hlen & Hall).
    assert (Hc : candidates (without_mask params) = candidates params).
    { unfold candidates. cbn [without_mask maskBuffer inBuffer]. rewrite Hm.
      rewrite candidates_masked_all_true by assumption.
      now apply candidates_unmasked_params. }
    assert (Hfit : mask_fits params).
    { unfold mask_fits. rewrite Hm. lia. }
    split; symmetry; apply Pixel_Filter_candidates; try assumption;
      try reflexivity; exact I.
  - intros (mask & Hm & Hlen & Hall).
    assert (Hc : candidates (without_samples params) = candidates params).
    { unfold candidates. cbn [without_samples maskBuffer inBuffer]. rewrite Hm.
      now rewrite candidates_masked_all_false. }
    assert (Hfit : mask_fits params).
    { unfold mask_fits. rewrite Hm. lia. }
    split; symmetry; apply Pixel_Filter_candidates; try assumption;
      try reflexivity; exact I.
Qed.

Lemma MaxPixel_and_MinPixel_with_a_mask_witness :
  let this := dip__MaxPixel.SetNumberOfThreads uint8 1 (dip__Pixel.new false) in
  dip__MaxPixel.Filter uint8 (row_line 0%N [3; 5; 5; 2]%Z
                                (Some [true; true; true; true]) 0) this
    = dip__MaxPixel.Filter uint8 (row_line 0%N [3; 5; 5; 2]%Z None 0) this
  /\ dip__MinPixel.Filter uint8 (row_line 0%N [3; 5; 5; 2]%Z
                                   (Some [false; false; false; false]) 0) this
    = dip__MinPixel.Filter uint8 (row_line 0%N [] None 0) this.
Proof.
  cbv zeta. split.
  - refine (proj1 (proj1 (MaxPixel_and_MinPixel_with_a_mask_that_is_all_true_or_all_false
              uint8 (row_line 0%N [3; 5; 5; 2]%Z (Some [true; true; true; true]) 0) _) _)).
    eexists. split; [reflexivity|]. split; [reflexivity|repeat constructor].
  - refine (proj2 (proj2 (MaxPixel_and_MinPixel_with_a_mask_that_is_all_true_or_all_false
              uint8 (row_line 0%N [3; 5; 5; 2]%Z (Some [false; false; false; false]) 0) _) _)).
    eexists. split; [reflexivity|]. split; [reflexivity|repeat constructor].
Defined.

Section PixelNothingBetter.
Context {TPI : Type} (initial : TPI) (strict weak : TPI -> TPI -> bool).
Hypothesis initial_irrefl : strict initial initial = false.

Lemma fold_pick_nothing_better (l : list (TPI * UnsignedArray)) (s : TPI * UnsignedArray) :
  Forall (fun e => strict (fst e) (fst s) = false) l ->
  fold_left (pick (dip__Pixel.beats strict weak true)) l s = s.
Proof.
  induction 1 as [|e l He _ IH]; [reflexivity|].
  cbn [fold_left]. unfold pick at 2. cbn [dip__Pixel.beats]. now rewrite He.
Qed.

Lemma Pixel_Filter_nothing_better (params : ScanLineFilterParameters TPI)
    (this : PixelState TPI) :
  first_ this = true ->
  mask_fits params ->
  Forall (fun e => strict (fst e) initial = false) (candidates params) ->
  value_ this !! thread params = Some initial ->
  dip__Pixel.Filter initial strict weak params this = Some this.
Proof using initial_irrefl.
  intros Hfirst Hfit Hnone Hv.
  rewrite (Pixel_Filter_search initial strict weak) by exact Hfit.
  rewrite line_search_nothing by (rewrite Hfirst; exact Hnone).
  cbn [mbind option_bind fst snd]. rewrite Hv. cbn [mbind option_bind].
  rewrite Hfirst. cbn [dip__Pixel.beats]. now rewrite initial_irrefl.
Qed.

Lemma Pixel_run_lines_nothing_better (lines : list (ScanLineFilterParameters TPI))
    (this : PixelState TPI) :
  first_ this = true ->
  Forall (fun params => value_ this !! thread params = Some initial) lines ->
  Forall mask_fits lines ->
  Forall (fun params => Forall (fun e => strict (fst e) initial = false)
                          (candidates params)) lines ->
  forall n, run_lines (dip__Pixel.filter initial strict weak) lines this n
            = (Returns this, n + length lines).
Proof using initial_irrefl.
  intros Hfirst Hv Hfit Hnone. induction lines as [|params lines IH]; intros n.
  - cbn. unfold ret. f_equal. lia.
  - inversion Hv; inversion Hfit; inversion Hnone; subst.
    cbn [run_lines]. unfold dip__Pixel.filter at 1. cbn [Filter].
    rewrite Pixel_Filter_nothing_better by assumption.
    rewrite IH by assumption. f_equal. simpl. lia.
Qed.

Lemma snd_fold_pick_nil (beats : TPI -> TPI -> bool)
    (l : list (TPI * UnsignedArray)) (s : TPI * UnsignedArray) :
  snd s = [] -> Forall (fun e => snd e = []) l ->
  snd (fold_left (pick beats) l s) = [].
Proof.
  intros Hs Hl. revert s Hs. induction Hl as [|e l He _ IH]; intros s Hs; [exact Hs|].
  cbn [fold_left]. apply IH. unfold pick. now destruct (beats (fst e) (fst s)).
Qed.

Lemma Pixel_scan_nothing_better (threads : nat)
    (lines : list (ScanLineFilterParameters TPI)) (n : nat) :
  plan_ok threads lines ->
  Forall mask_fits lines ->
  Forall (fun params => Forall (fun e => strict (fst e) initial = false)
                          (candidates params)) lines ->
  (scanLineFilter <~ Scan (Returns (threads, lines))
                       (dip__Pixel.filter initial strict weak) (dip__Pixel.new true) ;;
   defined (dip__Pixel.GetResult strict weak scanLineFilter))%dip n
  = (Returns [], n + length lines).
Proof using initial_irrefl.
  intros [Hpos Hthr] Hfit Hnone.
  set (this := dip__Pixel.SetNumberOfThreads initial threads (dip__Pixel.new true)).
  assert (Hval : value_ this = replicate threads initial).
  { unfold this, dip__Pixel.SetNumberOfThreads, dip__Pixel.new. cbn [value_].
    now rewrite resize_nil. }
  assert (Hcoord : coord_ this = replicate threads []).
  { unfold this, dip__Pixel.SetNumberOfThreads, dip__Pixel.new. cbn [coord_].
    now rewrite resize_nil. }
  erewrite bind_returns.
  2:{ unfold Scan. unfold dip__Pixel.filter at 2. cbn [SetNumberOfThreads].
      fold this. apply Pixel_run_lines_nothing_better; try assumption; [reflexivity|].
      eapply Forall_impl; [exact Hthr|]. intros params Ht. cbn beta.
      rewrite Hval. now apply lookup_replicate_2. }
  destruct threads as [|k]; [lia|].
  rewrite (Pixel_GetResult_slots strict weak this (initial, [])
             (replicate k (initial, []))).
  - rewrite snd_fold_pick_nil; [reflexivity|reflexivity|].
    apply Forall_replicate. reflexivity.
  - rewrite Hval, Hcoord. now rewrite !length_replicate.
  - unfold slots. rewrite Hval, Hcoord. cbn [replicate zip zip_with].
    f_equal. now rewrite zip_with_replicate.
Qed.

End PixelNothingBetter.

(** X6: with ["first"], when no sample that the mask selects is above the
    lowest value of the sample type (an image that is constant at that
    value, or one whose mask selects nothing), [MaximumPixel] scans all the
    lines and returns the empty coordinate array that [SetNumberOfThreads]
    put in the slots: the strict comparison never records a position.
    Likewise [MinimumPixel] when no selected sample is below the highest
    value. *)
Theorem MaximumPixel_first_returns_no_coordinates_when_no_sample_beats_the_start
    {Image : Type} `{!ImageOps Image} (lo hi : Z)
    `{!ScanDriver Image (integer_type lo hi)}
    (in_ mask : Image) (threads : nat)
    (lines : list (ScanLineFilterParameters (integer_type lo hi))) (n : nat) :
  IsForged in_ = true ->
  IsScalar in_ = true ->
  OVL_REAL (SuggestReal (DataTypeOf in_)) = true ->
  scan_lines in_ mask (SuggestReal (DataTypeOf in_)) [NeedCoordinates]
    = Returns (threads, lines) ->
  plan_ok threads lines ->
  Forall mask_fits lines ->
  (Forall (fun params => Forall (fun e => (fst e <= lo)%Z) (candidates params)) lines ->
     MaximumPixel (integer_type lo hi) in_ mask "first" n
     = (Returns [], n + length lines))
  /\ (Forall (fun params => Forall (fun e => (hi <= fst e)%Z) (candidates params)) lines ->
     MinimumPixel (integer_type lo hi) in_ mask "first" n
     = (Returns [], n + length lines)).
Proof.
  intros Hf Hs Hovl Hplan Hok Hfit. split; intros Hnone.
  - unfold MaximumPixel, ScanSingleInput. rewrite Hf, Hs, Hovl, Hplan.
    cbn [negb]. rewrite !throw_if_false. cbn [String.eqb Ascii.eqb Bool.eqb].
    apply (Pixel_scan_nothing_better lo Z.gtb Z.geb); try assumption.
    + rewrite Z.gtb_ltb. apply Z.ltb_irrefl.
    + eapply Forall_impl; [exact Hnone|]. intros params Hp.
      eapply Forall_impl; [exact Hp|]. intros e He. cbn beta.
      rewrite Z.gtb_ltb. apply Z.ltb_ge. exact He.
  - unfold MinimumPixel, ScanSingleInput. rewrite Hf, Hs, Hovl, Hplan.
    cbn [negb]. rewrite !throw_if_false. cbn [String.eqb Ascii.eqb Bool.eqb].
    apply (Pixel_scan_nothing_better hi Z.ltb Z.leb); try assumption.
    + apply Z.ltb_irrefl.
    + eapply Forall_impl; [exact Hnone|]. intros params Hp.
      eapply Forall_impl; [exact Hp|]. intros e He. cbn beta.
      apply Z.ltb_ge. exact He.
Qed.

Lemma MaximumPixel_first_returns_no_coordinates_witness :
  MaximumPixel uint8 (image DT_UINT8 2 [[4; 9]; [7; 1]]%Z)
    (image DT_BIN 2 [[0; 0]; [0; 0]]%Z) "first" 0
  = (Returns [], 0 + 2).
Proof.
  refine (proj1 (MaximumPixel_first_returns_no_coordinates_when_no_sample_beats_the_start
            (Image := RowImage) 0 255
            (image DT_UINT8 2 [[4; 9]; [7; 1]]%Z) (image DT_BIN 2 [[0; 0]; [0; 0]]%Z)
            1 _ 0 eq_refl eq_refl eq_refl eq_refl _ _) _).
  - split; [lia|repeat constructor].
  - repeat constructor.
  - repeat constructor.
Defined.

Section PixelMap.
Context {T U : Type} (f : T -> U).
Context (initial : T) (strict weak : T -> T -> bool).
Context (initial' : U) (strict' weak' : U -> U -> bool).
Hypothesis f_initial : f initial = initial'.
Hypothesis f_strict : forall a b, strict' (f a) (f b) = strict a b.
Hypothesis f_weak : forall a b, weak' (f a) (f b) = weak a b.

Lemma beats_map (first : bool) (a b : T) :
  dip__Pixel.beats strict' weak' first (f a) (f b)
  = dip__Pixel.beats strict weak first a b.
Proof using f_strict f_weak. destruct first; cbn [dip__Pixel.beats]; auto. Qed.

Lemma scan_unmasked_map (first : bool) (params : ScanLineFilterParameters T)
    (in_ : list T) :
  forall (ii : N) (value : T) (coord : UnsignedArray),
    dip__Pixel.scan_unmasked strict' weak' first (map_samples f params) ii
      (map f in_) (f value) coord
    = prod_map f id <$> dip__Pixel.scan_unmasked strict weak first params ii in_
                          value coord.
Proof using f_strict f_weak.
  induction in_ as [|x in_ IH]; intros ii value coord; [reflexivity|].
  cbn [map dip__Pixel.scan_unmasked]. rewrite beats_map.
  destruct (dip__Pixel.beats strict weak first x value); [|apply IH].
  change (dip__Pixel.coord_at (map_samples f params) ii)
    with (dip__Pixel.coord_at params ii).
  destruct (dip__Pixel.coord_at params ii); [apply IH|reflexivity].
Qed.

Lemma scan_masked_map (first : bool) (params : ScanLineFilterParameters T)
    (in_ : list T) :
  forall (mask : list bin) (ii : N) (value : T) (coord : UnsignedArray),
    dip__Pixel.scan_masked strict' weak' first (map_samples f params) ii
      (map f in_) mask (f value) coord
    = prod_map f id <$> dip__Pixel.scan_masked strict weak first params ii in_ mask
                          value coord.
Proof using f_strict f_weak.
  induction in_ as [|x in_ IH]; intros [|m mask] ii value coord; try reflexivity.
  cbn [map dip__Pixel.scan_masked]. rewrite beats_map.
  destruct (m && dip__Pixel.beats strict weak first x value); [|apply IH].
  change (dip__Pixel.coord_at (map_samples f params) ii)
    with (dip__Pixel.coord_at params ii).
  destruct (dip__Pixel.coord_at params ii); [apply IH|reflexivity].
Qed.

Lemma Pixel_Filter_map (params : ScanLineFilterParameters T) (this : PixelState T) :
  dip__Pixel.Filter initial' strict' weak' (map_samples f params) (map_values f this)
  = map_values f <$> dip__Pixel.Filter initial strict weak params this.
Proof using f_initial f_strict f_weak.
  unfold dip__Pixel.Filter.
  cbn [map_samples map_values maskBuffer inBuffer position thread first_ value_ coord_].
  rewrite <- f_initial.
  assert (Hscan :
    match maskBuffer params with
    | Some mask =>
        dip__Pixel.scan_masked strict' weak' (first_ this) (map_samples f params) 0
          (map f (inBuffer params)) mask (f initial)
          (replicate (length (position params)) 0%N)
    | None =>
        dip__Pixel.scan_unmasked strict' weak' (first_ this)
          (map_samples f params) 0 (map f (inBuffer params)) (f initial)
          (replicate (length (position params)) 0%N)
    end
    = prod_map f id <$>
      match maskBuffer params with
      | Some mask =>
          dip__Pixel.scan_masked strict weak (first_ this) params 0
            (inBuffer params) mask initial (replicate (length (position params)) 0%N)
      | None =>
          dip__Pixel.scan_unmasked strict weak (first_ this) params 0
            (inBuffer params) initial (replicate (length (position params)) 0%N)
      end).
  { destruct (maskBuffer params) as [mask|].
    - apply scan_masked_map.
    - apply scan_unmasked_map. }
  rewrite Hscan. clear Hscan.
  destruct (match maskBuffer params with Some _ => _ | None => _ end)
    as [[value coord]|]; [|reflexivity].
  cbn [fmap option_fmap option_map prod_map fst snd mbind option_bind id].
  rewrite list_lookup_fmap.
  destruct (value_ this !! thread params) as [v|]; [|reflexivity].
  cbn [fmap option_fmap option_map mbind option_bind]. rewrite beats_map.
  destruct (dip__Pixel.beats strict weak (first_ this) value v); [|reflexivity].
  destruct (coord_ this !! thread params); [|reflexivity].
  cbn [fmap option_fmap option_map mbind option_bind]. f_equal.
  unfold map_values. cbn [coord_ value_ first_]. f_equal.
  symmetry. apply list_fmap_insert.
Qed.

Lemma select_index_map (first : bool) (value_ : list T) (n : nat) :
  forall ii index : nat,
    dip__Pixel.select_index strict' weak' first (map f value_) ii n index
    = dip__Pixel.select_index strict weak first value_ ii n index.
Proof using f_strict f_weak.
  induction n as [|n IH]; intros ii index; [reflexivity|].
  cbn [dip__Pixel.select_index]. rewrite !list_lookup_fmap.
  destruct (value_ !! ii) as [vi|]; [|reflexivity].
  destruct (value_ !! index) as [vx|]; [|reflexivity].
  cbn [fmap option_fmap option_map mbind option_bind].
  rewrite beats_map. apply IH.
Qed.

Lemma Pixel_GetResult_map (this : PixelState T) :
  dip__Pixel.GetResult strict' weak' (map_values f this)
  = dip__Pixel.GetResult strict weak this.
Proof using f_strict f_weak.
  unfold dip__Pixel.GetResult. cbn [map_values first_ value_ coord_].
  now rewrite select_index_map.
Qed.

Lemma Pixel_SetNumberOfThreads_map (threads : nat) (this : PixelState T) :
  dip__Pixel.SetNumberOfThreads initial' threads (map_values f this)
  = map_values f (dip__Pixel.SetNumberOfThreads initial threads this).
Proof using f_initial.
  unfold dip__Pixel.SetNumberOfThreads, map_values. cbn [coord_ value_ first_].
  f_equal. rewrite <- f_initial.
  exact (eq_sym (fmap_resize f threads initial (value_ this))).
Qed.

Lemma Pixel_run_lines_map (lines : list (ScanLineFilterParameters T)) :
  forall (this : PixelState T) (n : nat),
    run_lines (dip__Pixel.filter initial' strict' weak') (map (map_samples f) lines)
      (map_values f this) n
    = match run_lines (dip__Pixel.filter initial strict weak) lines this n with
      | (Returns this', m) => (Returns (map_values f this'), m)
      | (Throws e, m) => (Throws e, m)
      | (Undefined, m) => (Undefined, m)
      end.
Proof using f_initial f_strict f_weak.
  induction lines as [|params lines IH]; intros this n; [reflexivity|].
  cbn [map run_lines]. unfold dip__Pixel.filter at 1 3. cbn [Filter].
  rewrite Pixel_Filter_map.
  destruct (dip__Pixel.Filter initial strict weak params this) as [this'|];
    [|reflexivity].
  cbn [fmap option_fmap option_map]. apply IH.
Qed.

Lemma Pixel_scan_map (threads : nat) (lines : list (ScanLineFilterParameters T))
    (first : bool) (n : nat) :
  (scanLineFilter <~ Scan (Returns (threads, map (map_samples f) lines))
                       (dip__Pixel.filter initial' strict' weak') (dip__Pixel.new first) ;;
   defined (dip__Pixel.GetResult strict' weak' scanLineFilter))%dip n
  = (scanLineFilter <~ Scan (Returns (threads, lines))
                         (dip__Pixel.filter initial strict weak) (dip__Pixel.new first) ;;
     defined (dip__Pixel.GetResult strict weak scanLineFilter))%dip n.
Proof using f_initial f_strict f_weak.
  unfold bind, Scan. unfold dip__Pixel.filter at 2 4. cbn [SetNumberOfThreads].
  replace (dip__Pixel.SetNumberOfThreads initial' threads (dip__Pixel.new first))
    with (map_values f (dip__Pixel.SetNumberOfThreads initial threads
                          (dip__Pixel.new first)))
    by (rewrite <- Pixel_SetNumberOfThreads_map; reflexivity).
  rewrite Pixel_run_lines_map.
  destruct (run_lines _ lines _ n) as [[this'| |] m]; try reflexivity.
  now rewrite Pixel_GetResult_map.
Qed.

End PixelMap.

Lemma mirror_involutive (lo hi x : Z) : mirror lo hi (mirror lo hi x) = x.
Proof. unfold mirror. lia. Qed.

(** X7: [dip__MinPixel] is [dip__MaxPixel] on the mirrored samples. The
    reflection [mirror] of the values of an integer type exchanges its
    lowest and its highest value and reverses the order; on the mirrored
    line and the mirrored member variables, [dip__MinPixel::Filter] does
    what [dip__MaxPixel::Filter] does on the line and the member variables
    (it is undefined when the other is), [GetResult] returns the same
    coordinates, and so does a whole scan followed by [GetResult]. *)
Theorem MinPixel_is_MaxPixel_on_the_mirrored_samples (lo hi : Z) :
  let TPI := integer_type lo hi in
  (mirror lo hi lo = hi /\ mirror lo hi hi = lo
   /\ forall x, mirror lo hi (mirror lo hi x) = x)
  /\ (forall (params : ScanLineFilterParameters TPI) (this : PixelState TPI),
        dip__MinPixel.Filter TPI (map_samples (mirror lo hi) params)
          (map_values (mirror lo hi) this)
        = map_values (mirror lo hi) <$> dip__MaxPixel.Filter TPI params this)
  /\ (forall this : PixelState TPI,
        dip__MinPixel.GetResult TPI (map_values (mirror lo hi) this)
        = dip__MaxPixel.GetResult TPI this)
  /\ (forall (threads : nat) (lines : list (ScanLineFilterParameters TPI))
             (first : bool) (n : nat),
        (scanLineFilter <~ Scan (Returns (threads, map (map_samples (mirror lo hi)) lines))
                             (dip__MinPixel.filter TPI) (dip__Pixel.new first) ;;
         defined (dip__MinPixel.GetResult TPI scanLineFilter))%dip n
        = (scanLineFilter <~ Scan (Returns (threads, lines))
                               (dip__MaxPixel.filter TPI) (dip__Pixel.new first) ;;
           defined (dip__MaxPixel.GetResult TPI scanLineFilter))%dip n).
Proof.
  cbn zeta.
  assert (Hs : forall a b, Z.ltb (mirror lo hi a) (mirror lo hi b) = Z.gtb a b).
  { intros a b. unfold mirror. rewrite Z.gtb_ltb.
    destruct (Z.ltb_spec (lo + hi - a) (lo + hi - b)), (Z.ltb_spec b a); lia. }
  assert (Hw : forall a b, Z.leb (mirror lo hi a) (mirror lo hi b) = Z.geb a b).
  { intros a b. unfold mirror. rewrite Z.geb_leb.
    destruct (Z.leb_spec (lo + hi - a) (lo + hi - b)), (Z.leb_spec b a); lia. }
  assert (Hi : mirror lo hi lo = hi) by (unfold mirror; lia).
  split; [|split; [|split]].
  - split; [exact Hi|]. split; [unfold mirror; lia|apply mirror_involutive].
  - intros params this.
    apply (Pixel_Filter_map (mirror lo hi) lo Z.gtb Z.geb hi Z.ltb Z.leb Hi Hs Hw).
  - intros this.
    apply (Pixel_GetResult_map (mirror lo hi) Z.gtb Z.geb Z.ltb Z.leb Hs Hw).
  - intros threads lines first n.
    apply (Pixel_scan_map (mirror lo hi) lo Z.gtb Z.geb hi Z.ltb Z.leb Hi Hs Hw).
Qed.

(** ** CumulativeSum: further properties *)

Lemma CumSumFilter_loop_app {TPI : Type} (add : TPI -> TPI -> TPI) (l1 l2 : list TPI) :
  forall sum,
    CumSumFilter.loop add (l1 ++ l2) sum
    = CumSumFilter.loop add l1 sum ++ CumSumFilter.loop add l2 (fold_left add l1 sum).
Proof.
  induction l1 as [|x l1 IH]; intros sum; [reflexivity|].
  cbn [app CumSumFilter.loop fold_left]. f_equal. apply IH.
Qed.

Lemma CumSumFilter_loop_length {TPI : Type} (add : TPI -> TPI -> TPI) (in_ : list TPI) :
  forall sum, length (CumSumFilter.loop add in_ sum) = length in_.
Proof.
  induction in_ as [|x in_ IH]; intros sum; [reflexivity|].
  cbn [CumSumFilter.loop length]. now rewrite IH.
Qed.

(** X9: the line filter of [CumulativeSum] keeps the length of the line; it
    is causal (the first [k] output samples are the output for the first [k]
    input samples, whatever follows them); the output for two lines put end
    to end is the output for the first one followed by the running sums of
    the second one that start from the total of the first; and the last
    output sample is the sum of the whole line. *)
Theorem CumSumFilter_is_causal_and_composes {TPI : Type} (zero : TPI)
    (add : TPI -> TPI -> TPI) :
  (forall in_ : list TPI, length (CumSumFilter.Filter zero add in_) = length in_)
  /\ (forall (in_ : list TPI) (k : nat),
        take k (CumSumFilter.Filter zero add in_)
        = CumSumFilter.Filter zero add (take k in_))
  /\ (forall l1 l2 : list TPI,
        CumSumFilter.Filter zero add (l1 ++ l2)
        = CumSumFilter.Filter zero add l1
          ++ CumSumFilter.loop add l2 (fold_left add l1 zero))
  /\ (forall (in_ : list TPI) (x : TPI),
        last (CumSumFilter.Filter zero add (in_ ++ [x]))
        = Some (fold_left add (in_ ++ [x]) zero)).
Proof.
  unfold CumSumFilter.Filter. split; [|split; [|split]].
  - intros in_. apply CumSumFilter_loop_length.
  - intros in_ k. destruct (decide (k <= length in_)) as [Hk|Hk].
    + rewrite <- (take_drop k in_) at 1.
      rewrite CumSumFilter_loop_app, take_app_le.
      * apply take_ge. rewrite CumSumFilter_loop_length, length_take. lia.
      * rewrite CumSumFilter_loop_length, length_take. lia.
    + rewrite !take_ge; [reflexivity|lia|rewrite CumSumFilter_loop_length; lia].
  - intros l1 l2. apply CumSumFilter_loop_app.
  - intros in_ x. rewrite CumSumFilter_loop_app. cbn [CumSumFilter.loop].
    rewrite last_snoc, fold_left_app. reflexivity.
Qed.

Lemma CumSumFilter_loop_zero_where_masked {TPI : Type} (zero : TPI)
    (add : TPI -> TPI -> TPI) (in_ : list TPI) :
  forall (mask : list bin) (sum : TPI) (i : nat),
    length mask = length in_ ->
    Forall (fun s => add s zero = s)
      (sum :: CumSumFilter.loop add (select_masked in_ mask) sum) ->
    i < length in_ ->
    CumSumFilter.loop add (zero_where_masked zero in_ mask) sum !! i
    = Some (fold_left add (select_masked (take (S i) in_) (take (S i) mask)) sum).
Proof.
  induction in_ as [|x in_ IH]; intros [|m mask] sum i Hlen Hid Hi;
    cbn [length] in *; try lia.
  unfold zero_where_masked in *. cbn [zip_with CumSumFilter.loop].
  inversion Hid as [|? ? Hsum Hrest]; subst.
  destruct m.
  - cbn [select_masked app CumSumFilter.loop] in Hrest.
    destruct i as [|j]; [destruct in_, mask; reflexivity|].
    cbn [lookup list_lookup take select_masked app fold_left].
    change ((x :: in_) !! S j) with (in_ !! j).
    rewrite <- IH; [reflexivity|lia|exact Hrest|lia].
  - rewrite Hsum. cbn [select_masked app] in Hrest.
    destruct i as [|j]; [destruct in_, mask; reflexivity|].
    cbn [take select_masked app]. 
    rewrite <- IH; [reflexivity|lia|constructor; [exact Hsum|exact Hrest]|lia].
Qed.

(** X10: why the selection step with 0 makes the masked cumulative sum. On
    a line in which the samples that the mask leaves out have been replaced
    by [zero], each output sample of the line filter is the sum of the
    selected samples up to and including its position, provided adding
    [zero] changes none of the running sums of the selected samples (in
    floating point it changes [-0.0]). *)
Theorem CumSumFilter_sums_the_selected_samples {TPI : Type} (zero : TPI)
    (add : TPI -> TPI -> TPI) (in_ : list TPI) (mask : list bin) (i : nat) :
  length mask = length in_ ->
  Forall (fun s => add s zero = s)
    (zero :: CumSumFilter.Filter zero add (select_masked in_ mask)) ->
  i < length in_ ->
  CumSumFilter.Filter zero add (zero_where_masked zero in_ mask) !! i
  = Some (fold_left add (select_masked (take (S i) in_) (take (S i) mask)) zero).
Proof. apply CumSumFilter_loop_zero_where_masked. Qed.

Lemma CumSumFilter_sums_the_selected_samples_witness :
  CumSumFilter.Filter f_zero f_add
    (zero_where_masked f_zero (map b64_of_Z [1; 2; 3; 4]%Z) [true; false; true; true])
    !! 2
  = Some (fold_left f_add (map b64_of_Z [1; 3]%Z) f_zero).
Proof.
  refine (CumSumFilter_sums_the_selected_samples f_zero f_add
            (map b64_of_Z [1; 2; 3; 4]%Z) [true; false; true; true] 2 _ _ _).
  - reflexivity.
  - repeat constructor.
  - simpl. lia.
Defined.

(** ** Accumulators: further properties *)

Section AccumulatingScan.
Context {T dfloat A : Type}.
Context (static_cast : T -> dfloat).
Context (new : A) (Push : A -> dfloat -> A) (plus_eq : A -> A -> A).

Let acc := accumulate static_cast new Push.

Hypothesis merge_law : forall l1 l2, plus_eq (acc l1) (acc l2) = acc (l1 ++ l2).

(** A scan with the accumulating filter, followed by [GetResult]. *)
Lemma accumulating_scan_result (threads : nat)
    (lines : list (ScanLineFilterParameters T)) (n : nat) :
  plan_ok threads lines ->
  Forall mask_fits lines ->
  (scanLineFilter <~ Scan (Returns (threads, lines))
                       (dip__SampleStatistics.filter static_cast new Push plus_eq) [] ;;
   defined (dip__SampleStatistics.GetResult plus_eq scanLineFilter))%dip n
  = (Returns (acc (scanned_samples threads lines)), n + length lines).
Proof using merge_law.
  intros [Hpos Hthr] Hfit.
  erewrite bind_returns.
  2:{ unfold Scan. unfold dip__SampleStatistics.filter at 2. cbn [SetNumberOfThreads].
      unfold dip__SampleStatistics.SetNumberOfThreads. rewrite resize_nil.
      apply (accumulating_run_lines static_cast new Push plus_eq merge_law
               lines _ (replicate threads [])).
      - now rewrite fmap_replicate.
      - now rewrite length_replicate.
      - exact Hfit. }
  unfold dip__SampleStatistics.GetResult.
  rewrite (merge_slots_spec static_cast new Push plus_eq merge_law).
  - unfold defined, ret. do 3 f_equal. unfold scanned_samples. f_equal.
    apply list_eq. intros t. rewrite list_lookup_imap, !list_lookup_fmap.
    destruct (decide (t < threads)) as [Ht|Ht].
    + rewrite lookup_replicate_2, lookup_seq_lt by exact Ht. reflexivity.
    + rewrite (proj1 (lookup_replicate_None _ _ _)), lookup_seq_ge by lia.
      reflexivity.
  - intros Himap. apply (f_equal length) in Himap.
    rewrite length_imap, length_replicate in Himap. simpl in Himap. lia.
Qed.

End AccumulatingScan.

Lemma for_masked_all_true {T A} (body : A -> T -> A) (in_ : list T) :
  forall (mask : list bin) (vars : A),
    length mask = length in_ ->
    Forall (fun m => m = true) mask ->
    for_masked body in_ mask vars = Some (for_unmasked body in_ vars).
Proof.
  unfold for_unmasked.
  induction in_ as [|x in_ IH]; intros [|m mask] vars Hlen Hall;
    cbn [length] in Hlen; try reflexivity; try lia.
  inversion Hall as [|? ? -> Hall']; subst.
  cbn [for_masked fold_left]. apply IH; [lia|exact Hall'].
Qed.

Lemma for_masked_all_false {T A} (body : A -> T -> A) (in_ : list T) :
  forall (mask : list bin) (vars : A),
    length mask = length in_ ->
    Forall (fun m => m = false) mask ->
    for_masked body in_ mask vars = Some vars.
Proof.
  induction in_ as [|x in_ IH]; intros [|m mask] vars Hlen Hall;
    cbn [length] in Hlen; try reflexivity; try lia.
  inversion Hall as [|? ? -> Hall']; subst.
  cbn [for_masked]. apply IH; [lia|exact Hall'].
Qed.

(** X12: for the filters of [SampleStatistics] and [Covariance], a mask all
    of whose samples are set changes nothing: [Filter] does what it does
    for the same line without a mask. With a mask none of whose samples is
    set, [Filter] pushes nothing and adds a new, empty accumulator to the
    slot of the thread, as for a line without samples. *)
Theorem SampleStatistics_and_Covariance_with_a_mask_that_is_all_true_or_all_false
    {TPI dfloat S C : Type} (static_cast : TPI -> dfloat)
    (s_new : S) (s_Push : S -> dfloat -> S) (s_plus_eq : S -> S -> S)
    (c_new : C) (c_Push : C -> dfloat -> dfloat -> C) (c_plus_eq : C -> C -> C) :
  (forall (params : ScanLineFilterParameters TPI) (accArray_ : list S),
      (mask_is true params ->
         dip__SampleStatistics.Filter static_cast s_new s_Push s_plus_eq params accArray_
         = dip__SampleStatistics.Filter static_cast s_new s_Push s_plus_eq
             (without_mask params) accArray_)
      /\ (mask_is false params ->
         dip__SampleStatistics.Filter static_cast s_new s_Push s_plus_eq params accArray_
         = dip__SampleStatistics.Filter static_cast s_new s_Push s_plus_eq
             (without_samples params) accArray_
         /\ dip__SampleStatistics.Filter static_cast s_new s_Push s_plus_eq params accArray_
            = merge_into_slot s_plus_eq accArray_ (thread params) s_new))
  /\ (forall (params : ScanLineFilterParameters (TPI * TPI)) (accArray_ : list C),
      (mask_is true params ->
         dip__Covariance.Filter static_cast c_new c_Push c_plus_eq params accArray_
         = dip__Covariance.Filter static_cast c_new c_Push c_plus_eq
             (without_mask params) accArray_)
      /\ (mask_is false params ->
         dip__Covariance.Filter static_cast c_new c_Push c_plus_eq params accArray_
         = dip__Covariance.Filter static_cast c_new c_Push c_plus_eq
             (without_samples params) accArray_
         /\ dip__Covariance.Filter static_cast c_new c_Push c_plus_eq params accArray_
            = merge_into_slot c_plus_eq accArray_ (thread params) c_new)).
Proof.
  split; intros params accArray_; split; intros (mask & Hm & Hlen & Hall).
  - unfold dip__SampleStatistics.Filter. cbn [without_mask maskBuffer inBuffer thread].
    rewrite Hm. now rewrite for_masked_all_true.
  - unfold dip__SampleStatistics.Filter.
    cbn [without_samples maskBuffer inBuffer thread]. rewrite Hm.
    rewrite for_masked_all_false by assumption. split; reflexivity.
  - unfold dip__Covariance.Filter. cbn [without_mask maskBuffer inBuffer thread].
    rewrite Hm. now rewrite for_masked_all_true.
  - unfold dip__Covariance.Filter.
    cbn [without_samples maskBuffer inBuffer thread]. rewrite Hm.
    rewrite for_masked_all_false by assumption. split; reflexivity.
Qed.

Lemma SampleStatistics_and_Covariance_with_a_mask_witness :
  dip__SampleStatistics.Filter id Recording.new Recording.Push Recording.plus_eq
    (row_line 0%N [3; 5; 2]%Z (Some [true; true; true]) 0) [[7%Z]]
  = dip__SampleStatistics.Filter id Recording.new Recording.Push Recording.plus_eq
      (row_line 0%N [3; 5; 2]%Z None 0) [[7%Z]]
  /\ dip__Covariance.Filter id Recording.new Recording.Push_pair Recording.plus_eq
       (row_line 0%N [(3, 1); (5, 4)]%Z (Some [false; false]) 0) [[(7, 7)%Z]]
     = merge_into_slot Recording.plus_eq [[(7, 7)%Z]] 0 Recording.new.
Proof.
  pose proof (SampleStatistics_and_Covariance_with_a_mask_that_is_all_true_or_all_false
                (TPI := Z) id Recording.new Recording.Push Recording.plus_eq
                Recording.new Recording.Push_pair Recording.plus_eq) as [HS HC].
  split.
  - apply (proj1 (HS (row_line 0%N [3; 5; 2]%Z (Some [true; true; true]) 0) [[7%Z]])).
    eexists. split; [reflexivity|]. split; [reflexivity|repeat constructor].
  - apply (proj2 (HC (row_line 0%N [(3, 1); (5, 4)]%Z (Some [false; false]) 0)
                    [[(7, 7)%Z]])).
    eexists. split; [reflexivity|]. split; [reflexivity|repeat constructor].
Defined.

Section MaximumAndMinimumMasks.
Context {TPI dfloat MinMaxAccumulator : Type}.
Context (static_cast : TPI -> dfloat).
Context (new : MinMaxAccumulator).
Context (Push : MinMaxAccumulator -> dfloat -> MinMaxAccumulator).
Context (Push2 : MinMaxAccumulator -> dfloat -> dfloat -> MinMaxAccumulator).
Context (plus_eq : MinMaxAccumulator -> MinMaxAccumulator -> MinMaxAccumulator).

(** Modelled from the spec: [Push( x, y )] processes the two samples [x] and
    [y] (section 4.3). *)
Hypothesis Push2_pushes_both : forall acc x y, Push2 acc x y = Push (Push acc x) y.

Lemma MaximumAndMinimum_Filter_is_one_at_a_time
    (params : ScanLineFilterParameters TPI) (accArray_ : list MinMaxAccumulator) :
  unmasked_line_has_samples params ->
  dip__MaximumAndMinimum.Filter static_cast new Push Push2 plus_eq params accArray_
  = dip__SampleStatistics.Filter static_cast new Push plus_eq params accArray_.
Proof using Push2_pushes_both.
  intros Hline.
  unfold dip__MaximumAndMinimum.Filter, dip__SampleStatistics.Filter.
  unfold unmasked_line_has_samples in Hline.
  destruct (maskBuffer params); [reflexivity|].
  destruct (Hline eq_refl) as [Hne Hlen].
  now rewrite (scan_unmasked_spec static_cast new Push Push2 Push2_pushes_both).
Qed.

Lemma MaximumAndMinimum_run_lines_one_at_a_time
    (lines : list (ScanLineFilterParameters TPI)) :
  Forall unmasked_line_has_samples lines ->
  forall (accArray_ : list MinMaxAccumulator) (n : nat),
    run_lines (dip__MaximumAndMinimum.filter static_cast new Push Push2 plus_eq)
      lines accArray_ n
    = run_lines (dip__SampleStatistics.filter static_cast new Push plus_eq)
        lines accArray_ n.
Proof using Push2_pushes_both.
  induction 1 as [|params lines Hp _ IH]; intros accArray_ n; [reflexivity|].
  cbn [run_lines]. unfold dip__MaximumAndMinimum.filter at 1.
  unfold dip__SampleStatistics.filter at 1. cbn [Filter].
  rewrite (MaximumAndMinimum_Filter_is_one_at_a_time params accArray_ Hp).
  destruct (dip__SampleStatistics.Filter _ _ _ _ params accArray_);
    [apply IH|reflexivity].
Qed.

(** X13: for the filter of [MaximumAndMinimum], whose loop without a mask
    takes the samples two by two, a mask all of whose samples are set
    changes nothing on a line that has samples; with a mask none of whose
    samples is set, [Filter] adds a new accumulator to the slot of the
    thread. *)
Theorem MaximumAndMinimum_with_a_mask_that_is_all_true_or_all_false
    (params : ScanLineFilterParameters TPI) (accArray_ : list MinMaxAccumulator) :
  (mask_is true params ->
   inBuffer params <> [] ->
   (N.of_nat (length (inBuffer params)) < uint_modulus)%N ->
     dip__MaximumAndMinimum.Filter static_cast new Push Push2 plus_eq params accArray_
     = dip__MaximumAndMinimum.Filter static_cast new Push Push2 plus_eq
         (without_mask params) accArray_)
  /\ (mask_is false params ->
     dip__MaximumAndMinimum.Filter static_cast new Push Push2 plus_eq params accArray_
     = merge_into_slot plus_eq accArray_ (thread params) new).
Proof using Push2_pushes_both.
  split.
  - intros (mask & Hm & Hlen & Hall) Hne Hmod.
    rewrite (MaximumAndMinimum_Filter_is_one_at_a_time (without_mask params)).
    2:{ intros _. cbn [without_mask inBuffer]. split; assumption. }
    rewrite (MaximumAndMinimum_Filter_is_one_at_a_time params).
    2:{ intros Hnone. rewrite Hm in Hnone. discriminate. }
    unfold dip__SampleStatistics.Filter. cbn [without_mask maskBuffer inBuffer thread].
    rewrite Hm. now rewrite for_masked_all_true.
  - intros (mask & Hm & Hlen & Hall).
    unfold dip__MaximumAndMinimum.Filter. rewrite Hm.
    now rewrite for_masked_all_false.
Qed.

End MaximumAndMinimumMasks.

Lemma MaximumAndMinimum_with_a_mask_witness :
  let new := Z_minmax_new (-128) 127 in
  let Push := MinMaxAccumulator.Push Z.ltb in
  let Push2 := MinMaxAccumulator.Push2 Z.ltb in
  let plus_eq := MinMaxAccumulator.plus_eq Z.ltb in
  dip__MaximumAndMinimum.Filter id new Push Push2 plus_eq
    (row_line 0%N [3; 5; 2]%Z (Some [true; true; true]) 0) [new]
  = dip__MaximumAndMinimum.Filter id new Push Push2 plus_eq
      (row_line 0%N [3; 5; 2]%Z None 0) [new].
Proof.
  cbv zeta.
  refine (proj1 (MaximumAndMinimum_with_a_mask_that_is_all_true_or_all_false
            id (Z_minmax_new (-128) 127) (MinMaxAccumulator.Push Z.ltb)
            (MinMaxAccumulator.Push2 Z.ltb) (MinMaxAccumulator.plus_eq Z.ltb)
            MinMax_Push2_Z
            (row_line 0%N [3; 5; 2]%Z (Some [true; true; true]) 0) _) _ _ _).
  - eexists. split; [reflexivity|]. split; [reflexivity|repeat constructor].
  - discriminate.
  - reflexivity.
Defined.

Lemma Recording_accumulate {T : Type} (l : list T) :
  accumulate id Recording.new Recording.Push l = l.
Proof.
  unfold accumulate, Recording.new, Recording.Push.
  assert (H : forall a : list T,
             fold_left (fun vars x => vars ++ [id x]) l a = a ++ l).
  { induction l as [|x l IH]; intros a; cbn [fold_left]; [now rewrite app_nil_r|].
    rewrite IH, <- app_assoc. reflexivity. }
  apply (H []).
Qed.

Lemma Recording_merge_law {T : Type} (l1 l2 : list T) :
  Recording.plus_eq (accumulate id Recording.new Recording.Push l1)
    (accumulate id Recording.new Recording.Push l2)
  = accumulate id Recording.new Recording.Push (l1 ++ l2).
Proof. now rewrite !Recording_accumulate. Qed.

Lemma Recording_accumulate_pairs {T : Type} (l : list (T * T)) :
  accumulate_pairs id Recording.new Recording.Push_pair l = l.
Proof.
  unfold accumulate_pairs, Recording.new, Recording.Push_pair.
  assert (H : forall a : list (T * T),
             fold_left (fun vars x => vars ++ [(id (fst x), id (snd x))]) l a = a ++ l).
  { induction l as [|[x y] l IH]; intros a; cbn [fold_left]; [now rewrite app_nil_r|].
    rewrite IH, <- app_assoc. reflexivity. }
  apply (H []).
Qed.

Lemma Recording_merge_law_pairs {T : Type} (l1 l2 : list (T * T)) :
  Recording.plus_eq (accumulate_pairs id Recording.new Recording.Push_pair l1)
    (accumulate_pairs id Recording.new Recording.Push_pair l2)
  = accumulate_pairs id Recording.new Recording.Push_pair (l1 ++ l2).
Proof. now rewrite !Recording_accumulate_pairs. Qed.

Section MaximumAndMinimumResult.
Context {Image : Type} `{!ImageOps Image}.
Context {TPI dfloat MinMaxAccumulator : Type} `{!ScanDriver Image TPI}.
Context (static_cast : TPI -> dfloat).
Context (new : MinMaxAccumulator).
Context (Push : MinMaxAccumulator -> dfloat -> MinMaxAccumulator).
Context (Push2 : MinMaxAccumulator -> dfloat -> dfloat -> MinMaxAccumulator).
Context (plus_eq : MinMaxAccumulator -> MinMaxAccumulator -> MinMaxAccumulator).

Let acc := accumulate static_cast new Push.

(** Modelled from the spec: [Push( x, y )] processes the two samples [x] and
    [y] (section 4.3), and the accumulator keeps the invariant of section 3
    (accumulators.h is not part of these sources). *)
Hypothesis Push2_pushes_both : forall acc x y, Push2 acc x y = Push (Push acc x) y.
Hypothesis merge_law : forall l1 l2, plus_eq (acc l1) (acc l2) = acc (l1 ++ l2).

(** X14: [MaximumAndMinimum] on a forged image whose type the overload
    accepts (a complex image is split first) returns the accumulator that
    has been pushed every sample that the mask selects, once, whatever the
    number of threads and the distribution of the lines over them, the
    samples in the order thread after thread, line after line; each line is
    handed to the filter once. *)
Theorem MaximumAndMinimum_returns_the_accumulator_of_the_selected_samples
    (in_ mask : Image) (threads : nat) (lines : list (ScanLineFilterParameters TPI))
    (n : nat) :
  let c_in := if IsComplex (DataTypeOf in_) then SplitComplex in_ else in_ in
  IsForged in_ = true ->
  OVL_NONCOMPLEX (DataTypeOf c_in) = true ->
  scan_lines c_in mask (DataTypeOf c_in) [TensorAsSpatialDim] = Returns (threads, lines) ->
  plan_ok threads lines ->
  Forall mask_fits lines ->
  Forall unmasked_line_has_samples lines ->
  MaximumAndMinimum static_cast new Push Push2 plus_eq in_ mask n
  = (Returns (acc (scanned_samples threads lines)), n + length lines).
Proof using Push2_pushes_both merge_law.
  intros c_in Hf Hovl Hplan Hok Hfit Hlines.
  unfold MaximumAndMinimum. rewrite Hf. cbn [negb]. rewrite throw_if_false.
  fold c_in. rewrite Hovl. cbn [negb]. rewrite throw_if_false.
  unfold ScanSingleInput. rewrite Hplan.
  etransitivity;
    [|exact (accumulating_scan_result static_cast new Push plus_eq merge_law
               threads lines n Hok Hfit)].
  unfold bind, Scan.
  unfold dip__MaximumAndMinimum.filter at 2. unfold dip__SampleStatistics.filter at 2.
  cbn [SetNumberOfThreads].
  rewrite (MaximumAndMinimum_run_lines_one_at_a_time static_cast new Push Push2 plus_eq
             Push2_pushes_both lines Hlines).
  reflexivity.
Qed.

End MaximumAndMinimumResult.

Lemma MaximumAndMinimum_returns_the_accumulator_witness :
  MaximumAndMinimum id (Z_minmax_new (-128) 127) (MinMaxAccumulator.Push Z.ltb)
    (MinMaxAccumulator.Push2 Z.ltb) (MinMaxAccumulator.plus_eq Z.ltb)
    (image DT_SINT8 2 [[3; -5; 4]; [9; 2; 7]]%Z)
    (image DT_BIN 2 [[1; 1; 1]; [0; 1; 1]]%Z) 0
  = (Returns {| MinMaxAccumulator.min_ := (-5)%Z; MinMaxAccumulator.max_ := 7%Z |},
     0 + 2).
Proof.
  refine (MaximumAndMinimum_returns_the_accumulator_of_the_selected_samples
            (Image := RowImage) id (Z_minmax_new (-128) 127)
            (MinMaxAccumulator.Push Z.ltb) (MinMaxAccumulator.Push2 Z.ltb)
            (MinMaxAccumulator.plus_eq Z.ltb) MinMax_Push2_Z
            (minmax_merge_law (-128) 127)
            (image DT_SINT8 2 [[3; -5; 4]; [9; 2; 7]]%Z)
            (image DT_BIN 2 [[1; 1; 1]; [0; 1; 1]]%Z) 1 _ 0
            eq_refl eq_refl eq_refl _ _ _).
  - split; [lia|repeat constructor].
  - repeat constructor.
  - repeat constructor; discriminate.
Defined.

Section CovarianceResult.
Context {Image : Type} `{!ImageOps Image}.
Context {TPI dfloat CovarianceAccumulator : Type} `{!ScanDriver2 Image TPI}.
Context (static_cast : TPI -> dfloat).
Context (new : CovarianceAccumulator).
Context (Push : CovarianceAccumulator -> dfloat -> dfloat -> CovarianceAccumulator).
Context (plus_eq : CovarianceAccumulator -> CovarianceAccumulator -> CovarianceAccumulator).

Let acc := accumulate_pairs static_cast new Push.

(** Modelled from the spec: the accumulator keeps the invariant of section
    3 (accumulators.h is not part of these sources). *)
Hypothesis merge_law : forall l1 l2, plus_eq (acc l1) (acc l2) = acc (l1 ++ l2).

(** X15: [Covariance] on two forged images that [CompareProperties]
    accepts, with no mask or with a mask that [CheckIsMask] accepts, and of
    types for which the overload exists, returns the accumulator that has
    been pushed every pair of samples (one of each image, at the same
    position) that the mask selects, once, whatever the number of threads
    and the distribution of the lines over them. The mask that the scan
    receives is the mask after the expansion of its singleton dimensions. *)
Theorem Covariance_returns_the_accumulator_of_the_selected_pairs
    (in1 in2 c_mask : Image) (threads : nat)
    (lines : list (ScanLineFilterParameters (TPI * TPI))) (n : nat) :
  IsForged in1 = true ->
  IsForged in2 = true ->
  CompareProperties in1 in2 = None ->
  (IsForged c_mask = true -> CheckIsMask c_mask in1 = None) ->
  OVL_REAL (SuggestDyadicOperation (DataTypeOf in1) (DataTypeOf in2)) = true ->
  scan_lines2 in1 in2
    (if IsForged c_mask then Some (ExpandSingletonDimensions c_mask in1) else None)
    (SuggestDyadicOperation (DataTypeOf in1) (DataTypeOf in2)) [TensorAsSpatialDim]
    = Returns (threads, lines) ->
  plan_ok threads lines ->
  Forall mask_fits lines ->
  Covariance static_cast new Push plus_eq in1 in2 c_mask n
  = (Returns (acc (scanned_samples threads lines)), n + length lines).
Proof using merge_law.
  intros Hf1 Hf2 Hcmp Hmask Hovl Hplan Hok Hfit.
  unfold Covariance. rewrite Hf1, Hf2. cbn [negb orb]. rewrite throw_if_false.
  rewrite Hcmp. erewrite bind_returns by reflexivity.
  assert (Hscan :
    (scanLineFilter <~ Scan (Returns (threads, lines))
                         (dip__Covariance.filter static_cast new Push plus_eq) [] ;;
     defined (dip__Covariance.GetResult plus_eq scanLineFilter))%dip n
    = (Returns (acc (scanned_samples threads lines)), n + length lines)).
  { apply (accumulating_scan_result
             (fun x : TPI * TPI => (static_cast (fst x), static_cast (snd x)))
             new (fun vars (x : dfloat * dfloat) => Push vars (fst x) (snd x)) plus_eq
             merge_law threads lines n Hok Hfit). }
  destruct (IsForged c_mask) eqn:Hfm.
  - rewrite (Hmask eq_refl). erewrite bind_returns by reflexivity.
    rewrite Hovl. cbn [negb]. rewrite throw_if_false.
    rewrite Hplan. exact Hscan.
  - erewrite bind_returns by reflexivity.
    rewrite Hovl. cbn [negb]. rewrite throw_if_false.
    rewrite Hplan. exact Hscan.
Qed.

End CovarianceResult.

Lemma Covariance_returns_the_accumulator_witness :
  Covariance id Recording.new Recording.Push_pair Recording.plus_eq
    (image DT_SINT8 2 [[3; -5]; [9; 2]]%Z) (image DT_SINT8 2 [[1; 0]; [4; 8]]%Z)
    (image DT_BIN 2 [[1; 1]; [0; 1]]%Z) 0
  = (Returns [(3, 1); (-5, 0); (2, 8)]%Z, 0 + 2).
Proof.
  refine (Covariance_returns_the_accumulator_of_the_selected_pairs
            (Image := RowImage) (TPI := Z) id Recording.new Recording.Push_pair
            Recording.plus_eq Recording_merge_law_pairs
            (image DT_SINT8 2 [[3; -5]; [9; 2]]%Z) (image DT_SINT8 2 [[1; 0]; [4; 8]]%Z)
            (image DT_BIN 2 [[1; 1]; [0; 1]]%Z) 1 _ 0
            eq_refl eq_refl eq_refl _ eq_refl eq_refl _ _).
  - reflexivity.
  - split; [lia|repeat constructor].
  - repeat constructor.
Defined.

(** ** Covariance: the order of its tests *)

Section CovarianceErrors.
Context {Image : Type} `{!ImageOps Image}.
Context {TPI dfloat CovarianceAccumulator : Type} `{!ScanDriver2 Image TPI}.
Context (static_cast : TPI -> dfloat).
Context (new : CovarianceAccumulator).
Context (Push : CovarianceAccumulator -> dfloat -> dfloat -> CovarianceAccumulator).
Context (plus_eq : CovarianceAccumulator -> CovarianceAccumulator -> CovarianceAccumulator).

(** X16: [Covariance] tests its operands in a fixed order, and reports the
    first test that fails without handing any line to the filter: that
    both images are forged; then that their sizes and tensor elements
    agree ([CompareProperties]); then, only when a mask is given, that the
    mask fits the first image ([CheckIsMask]); then that the overload exists
    for the type suggested for the two images. A mask that is not forged is
    never checked, and an exception of the scan itself is passed on. *)
Theorem Covariance_reports_the_first_test_that_fails
    (in1 in2 c_mask : Image) (e : Error) (n : nat) :
  let ovlDataType := SuggestDyadicOperation (DataTypeOf in1) (DataTypeOf in2) in
  let mask := if IsForged c_mask
              then Some (ExpandSingletonDimensions c_mask in1) else None in
  let accepted := IsForged in1 = true /\ IsForged in2 = true
                  /\ CompareProperties in1 in2 = None in
  (IsForged in1 = true -> IsForged in2 = true ->
   CompareProperties in1 in2 = Some e ->
     Covariance static_cast new Push plus_eq in1 in2 c_mask n = (Throws e, n))
  /\ (accepted -> IsForged c_mask = true -> CheckIsMask c_mask in1 = Some e ->
     Covariance static_cast new Push plus_eq in1 in2 c_mask n = (Throws e, n))
  /\ (accepted -> (IsForged c_mask = true -> CheckIsMask c_mask in1 = None) ->
      OVL_REAL ovlDataType = false ->
     Covariance static_cast new Push plus_eq in1 in2 c_mask n
     = (Throws DATA_TYPE_NOT_SUPPORTED, n))
  /\ (accepted -> (IsForged c_mask = true -> CheckIsMask c_mask in1 = None) ->
      OVL_REAL ovlDataType = true ->
      scan_lines2 in1 in2 mask ovlDataType [TensorAsSpatialDim] = Throws e ->
     Covariance static_cast new Push plus_eq in1 in2 c_mask n = (Throws e, n)).
Proof.
  cbn zeta. unfold Covariance. repeat split.
  - intros -> -> ->. reflexivity.
  - intros (-> & -> & ->) -> ->. reflexivity.
  - intros (-> & -> & ->) Hmask ->. cbn [negb orb]. rewrite throw_if_false.
    erewrite bind_returns by reflexivity.
    destruct (IsForged c_mask); [rewrite (Hmask eq_refl)|]; reflexivity.
  - intros (-> & -> & ->) Hmask -> Hscan. cbn [negb orb]. rewrite throw_if_false.
    erewrite bind_returns by reflexivity.
    destruct (IsForged c_mask); [rewrite (Hmask eq_refl)|];
      (erewrite bind_returns by reflexivity); rewrite throw_if_false, Hscan;
      reflexivity.
Qed.

End CovarianceErrors.

(** Two images of different sizes; then two images of two rows of two
    samples with a mask of two rows of three samples, which no singleton
    expansion makes fit. *)
Lemma Covariance_reports_the_first_test_that_fails_witness :
  Covariance id Recording.new Recording.Push_pair Recording.plus_eq
    (image DT_SINT8 2 [[3; -5]; [9; 2]]%Z) (image DT_SINT8 2 [[1; 0; 4]]%Z)
    (image DT_BIN 2 [[1; 1]; [0; 1]]%Z) 0
  = (Throws SIZES_DONT_MATCH, 0)
  /\ Covariance id Recording.new Recording.Push_pair Recording.plus_eq
       (image DT_SINT8 2 [[3; -5]; [9; 2]]%Z) (image DT_SINT8 2 [[1; 0]; [4; 8]]%Z)
       (image DT_BIN 2 [[1; 1; 0]; [0; 1; 1]]%Z) 0
     = (Throws MASK_ERROR, 0).
Proof.
  split.
  - refine (proj1 (Covariance_reports_the_first_test_that_fails
              (Image := RowImage) (TPI := Z) id Recording.new Recording.Push_pair
              Recording.plus_eq
              (image DT_SINT8 2 [[3; -5]; [9; 2]]%Z) (image DT_SINT8 2 [[1; 0; 4]]%Z)
              (image DT_BIN 2 [[1; 1]; [0; 1]]%Z) SIZES_DONT_MATCH 0)
              eq_refl eq_refl eq_refl).
  - refine (proj1 (proj2 (Covariance_reports_the_first_test_that_fails
              (Image := RowImage) (TPI := Z) id Recording.new Recording.Push_pair
              Recording.plus_eq
              (image DT_SINT8 2 [[3; -5]; [9; 2]]%Z) (image DT_SINT8 2 [[1; 0]; [4; 8]]%Z)
              (image DT_BIN 2 [[1; 1; 0]; [0; 1; 1]]%Z) MASK_ERROR 0)) _ eq_refl eq_refl).
    repeat split.
Defined.

(** ** CenterOfMass: further properties *)

Lemma CenterOfMass_GetResult_witness :
  exists mass : binary64,
    fold_left (zip_with f_add) [map b64_of_Z [0; 0]%Z] (map b64_of_Z [14; 7]%Z) !! 1
      = Some mass
    /\ dip__CenterOfMass.GetResult 1 [map b64_of_Z [14; 7]%Z; map b64_of_Z [0; 0]%Z]
       = Some (map (fun v => if negb (f_eqb mass f_zero) then f_div v mass else f_zero)
                 (take 1 (fold_left (zip_with f_add) [map b64_of_Z [0; 0]%Z]
                            (map b64_of_Z [14; 7]%Z)))).
Proof.
  apply (CenterOfMass_GetResult_spec 1 (map b64_of_Z [14; 7]%Z) [map b64_of_Z [0; 0]%Z]).
  repeat constructor.
Defined.

(** X18: [CenterOfMass] has undefined behaviour on every image of which the
    scan hands a line to the filter, with or without a mask: the first call
    of [Filter] indexes or adds its local array [vars], which has no
    elements. No sum is ever accumulated, and [GetResult] is not reached. *)
Theorem CenterOfMass_is_undefined_as_soon_as_a_line_is_filtered
    {Image : Type} `{!ImageOps Image} {TPI dfloat : Type} `{!FloatArith dfloat}
    `{!ScanDriver Image TPI} (static_cast : TPI -> dfloat)
    (in_ mask : Image) (threads : nat) (params : ScanLineFilterParameters TPI)
    (lines : list (ScanLineFilterParameters TPI)) (n : nat) :
  IsForged in_ = true ->
  IsScalar in_ = true ->
  OVL_NONCOMPLEX (DataTypeOf in_) = true ->
  scan_lines in_ mask (DataTypeOf in_) [NeedCoordinates]
    = Returns (threads, params :: lines) ->
  CenterOfMass static_cast in_ mask n = (Undefined, S n).
Proof.
  intros Hf Hs Hovl Hplan. unfold CenterOfMass, ScanSingleInput.
  rewrite Hf, Hs, Hovl, Hplan. cbn [negb]. rewrite !throw_if_false.
  unfold bind. now rewrite CenterOfMass_Scan_undefined.
Qed.

Lemma CenterOfMass_is_undefined_witness :
  CenterOfMass b64_of_Z (image DT_UINT8 2 [[1; 2]; [3; 4]]%Z)
    (image DT_BIN 2 [[1; 0]; [1; 1]]%Z) 0
  = (Undefined, 1).
Proof.
  refine (CenterOfMass_is_undefined_as_soon_as_a_line_is_filtered
            (Image := RowImage) (TPI := Z) b64_of_Z
            (image DT_UINT8 2 [[1; 2]; [3; 4]]%Z) (image DT_BIN 2 [[1; 0]; [1; 1]]%Z)
            1 _ _ 0 eq_refl eq_refl eq_refl eq_refl).
Defined.

(** ** Moments *)

Lemma alter_alter {A} (f g : A -> A) (jj : nat) (a : list A) :
  alter f jj (alter g jj a) = alter (fun x => f (g x)) jj a.
Proof.
  revert jj. induction a as [|x a IH]; intros [|jj]; try reflexivity.
  change (x :: alter f jj (alter g jj a) = x :: alter (fun x => f (g x)) jj a).
  now rewrite IH.
Qed.

Section MomentsFilter.
Context {TPI dfloat MomentAccumulator : Type} `{!FloatArith dfloat}.
Context (static_cast : TPI -> dfloat).
Context (new : nat -> MomentAccumulator).
Context (Push : MomentAccumulator -> FloatArray dfloat -> dfloat -> MomentAccumulator).
Context (plus_eq : MomentAccumulator -> MomentAccumulator -> MomentAccumulator).
Context (nD_ : nat).

Let inc := fun p : dfloat => f_add p (f_of_uint 1).
Let body := fun (vars : MomentAccumulator) (e : FloatArray dfloat * TPI) =>
              Push vars (fst e) (static_cast (snd e)).

Lemma Moments_next_pos (d k : nat) (pos0 : FloatArray dfloat) :
  d < length pos0 ->
  dip__Moments.next_pos d (alter (Nat.iter k inc) d pos0)
  = Some (alter (Nat.iter (S k) inc) d pos0).
Proof.
  intros Hd. unfold dip__Moments.next_pos.
  rewrite update_at_alter by now rewrite length_alter.
  now rewrite alter_alter.
Qed.

Lemma Moments_loop_masked (d : nat) (pos0 : FloatArray dfloat) (in_ : list TPI) :
  d < length pos0 ->
  forall (mask : list bin) (k : nat) (vars : MomentAccumulator),
    dip__Moments.loop_masked static_cast Push d in_ mask
      (alter (Nat.iter k inc) d pos0) vars
    = for_masked body
        (imap (fun ii x => (alter (Nat.iter (k + ii) inc) d pos0, x)) in_) mask vars.
Proof.
  intros Hd. induction in_ as [|x in_ IH]; intros [|m mask] k vars; try reflexivity.
  rewrite imap_cons. cbn [dip__Moments.loop_masked for_masked].
  rewrite Moments_next_pos by exact Hd. cbn [mbind option_bind].
  rewrite IH. rewrite Nat.add_0_r. unfold body at 2. cbn [fst snd].
  f_equal. apply imap_ext. intros ii y _. cbn. do 3 f_equal. lia.
Qed.

Lemma Moments_loop_unmasked (d : nat) (pos0 : FloatArray dfloat) (in_ : list TPI) :
  d < length pos0 ->
  forall (k : nat) (vars : MomentAccumulator),
    dip__Moments.loop_unmasked static_cast Push d in_
      (alter (Nat.iter k inc) d pos0) vars
    = Some (for_unmasked body
              (imap (fun ii x => (alter (Nat.iter (k + ii) inc) d pos0, x)) in_) vars).
Proof.
  intros Hd. unfold for_unmasked.
  induction in_ as [|x in_ IH]; intros k vars; [reflexivity|].
  rewrite imap_cons. cbn [dip__Moments.loop_unmasked fold_left].
  rewrite Moments_next_pos by exact Hd. cbn [mbind option_bind].
  rewrite IH. rewrite Nat.add_0_r. unfold body at 2. cbn [fst snd].
  do 2 f_equal. apply imap_ext. intros ii y _. cbn. do 3 f_equal. lia.
Qed.

(** [dip__Moments::Filter] is the accumulating filter on the line of the
    samples with their coordinates. *)
Lemma Moments_Filter_is_accumulating (params : ScanLineFilterParameters TPI)
    (accArray_ : list MomentAccumulator) :
  dimension params < length (position params) ->
  dip__Moments.Filter static_cast new Push plus_eq nD_ params accArray_
  = dip__SampleStatistics.Filter id (new nD_) body plus_eq (moment_line params) accArray_.
Proof.
  intros Hd. unfold dip__Moments.Filter, dip__SampleStatistics.Filter.
  cbn [moment_line maskBuffer inBuffer thread].
  assert (Hd' : dimension params < length (map f_of_uint (position params)))
    by now rewrite length_map.
  assert (H0 : map f_of_uint (position params)
               = alter (Nat.iter 0 inc) (dimension params)
                   (map f_of_uint (position params))).
  { symmetry. apply list_alter_id. reflexivity. }
  destruct (maskBuffer params) as [mask|].
  - rewrite H0 at 1. rewrite (Moments_loop_masked _ _ _ Hd'). reflexivity.
  - rewrite H0 at 1. rewrite (Moments_loop_unmasked _ _ _ Hd'). reflexivity.
Qed.

End MomentsFilter.

Section MomentsResult.
Context {Image : Type} `{!ImageOps Image}.
Context {TPI dfloat MomentAccumulator : Type} `{!FloatArith dfloat}.
Context `{!ScanDriver Image TPI}.
Context (static_cast : TPI -> dfloat).
Context (new : nat -> MomentAccumulator).
Context (Push : MomentAccumulator -> FloatArray dfloat -> dfloat -> MomentAccumulator).
Context (plus_eq : MomentAccumulator -> MomentAccumulator -> MomentAccumulator).

(** X19: what [dip__Moments::Filter] pushes. For a line whose scanned
    dimension is one of the dimensions of its position, [Filter] adds to the
    slot of the thread the accumulator that has been pushed, in the order of
    the line, each sample that the mask selects together with its
    coordinates: the position of the line with [1.0] added along the scanned
    dimension once for each sample before it, selected or not. *)
Theorem Moments_Filter_pushes_the_selected_samples_with_their_coordinates
    (nD_ : nat) (params : ScanLineFilterParameters TPI)
    (accArray_ : list MomentAccumulator) :
  dimension params < length (position params) ->
  mask_fits params ->
  dip__Moments.Filter static_cast new Push plus_eq nD_ params accArray_
  = merge_into_slot plus_eq accArray_ (thread params)
      (accumulate_moments static_cast (new nD_) Push (selected (moment_line params))).
Proof.
  intros Hd Hfit. rewrite Moments_Filter_is_accumulating by exact Hd.
  unfold dip__SampleStatistics.Filter, selected, accumulate_moments.
  cbn [moment_line maskBuffer inBuffer thread]. unfold mask_fits in Hfit.
  destruct (maskBuffer params) as [mask|]; [|reflexivity].
  rewrite for_masked_spec by now rewrite length_imap.
  reflexivity.
Qed.

Section MomentsMergeLaw.
Context (in_ mask : Image).

Let nD := N.to_nat (Dimensionality in_).
Let acc := accumulate_moments static_cast (new nD) Push.

(** Modelled from the spec: the accumulator keeps the invariant of section
    3 (accumulators.h is not part of these sources). *)
Hypothesis merge_law : forall l1 l2, plus_eq (acc l1) (acc l2) = acc (l1 ++ l2).

Lemma Moments_run_lines_is_accumulating (lines : list (ScanLineFilterParameters TPI)) :
  Forall (fun params => dimension params < length (position params)) lines ->
  forall (accArray_ : list MomentAccumulator) (n : nat),
    run_lines (dip__Moments.filter static_cast new Push plus_eq nD) lines accArray_ n
    = run_lines (dip__SampleStatistics.filter id (new nD)
                   (fun vars (e : FloatArray dfloat * TPI) =>
                      Push vars (fst e) (static_cast (snd e))) plus_eq)
        (map moment_line lines) accArray_ n.
Proof.
  induction 1 as [|params lines Hp _ IH]; intros accArray_ n; [reflexivity|].
  cbn [map run_lines]. unfold dip__Moments.filter at 1.
  unfold dip__SampleStatistics.filter at 1. cbn [Filter].
  rewrite Moments_Filter_is_accumulating by exact Hp.
  destruct (dip__SampleStatistics.Filter _ _ _ _ (moment_line params) accArray_);
    [apply IH|reflexivity].
Qed.

(** X20: [Moments] on a forged scalar image whose type the overload accepts
    returns the accumulator that has been pushed every sample that the mask
    selects, once, with its coordinates, whatever the number of threads and
    the distribution of the lines over them; each line is handed to the
    filter once. *)
Theorem Moments_returns_the_accumulator_of_the_selected_samples
    (threads : nat) (lines : list (ScanLineFilterParameters TPI)) (n : nat) :
  IsForged in_ = true ->
  IsScalar in_ = true ->
  OVL_NONCOMPLEX (DataTypeOf in_) = true ->
  scan_lines in_ mask (DataTypeOf in_) [NeedCoordinates] = Returns (threads, lines) ->
  plan_ok threads lines ->
  Forall mask_fits lines ->
  Forall (fun params => dimension params < length (position params)) lines ->
  Moments static_cast new Push plus_eq in_ mask n
  = (Returns (acc (scanned_samples threads (map moment_line lines))),
     n + length lines).
Proof using merge_law.
  intros Hf Hs Hovl Hplan [Hpos Hthr] Hfit Hdim.
  unfold Moments, ScanSingleInput. rewrite Hf, Hs, Hovl, Hplan.
  cbn [negb]. rewrite !throw_if_false. fold nD.
  rewrite <- (length_map moment_line lines).
  etransitivity;
    [|apply (accumulating_scan_result id (new nD)
               (fun vars (e : FloatArray dfloat * TPI) =>
                  Push vars (fst e) (static_cast (snd e))) plus_eq merge_law
               threads (map moment_line lines) n)].
  - unfold bind, Scan. unfold dip__Moments.filter at 2.
    unfold dip__SampleStatistics.filter at 2. cbn [SetNumberOfThreads].
    rewrite (Moments_run_lines_is_accumulating lines Hdim). reflexivity.
  - split; [exact Hpos|]. apply Forall_map. exact Hthr.
  - apply Forall_map. eapply Forall_impl; [exact Hfit|]. intros params.
    unfold mask_fits. cbn [moment_line maskBuffer inBuffer].
    now rewrite length_imap.
Qed.

End MomentsMergeLaw.
End MomentsResult.

Lemma Recording_accumulate_moments {X : Type} (l : list (list X * X)) :
  accumulate_moments id [] Recording.Push_at l = l.
Proof.
  unfold accumulate_moments, Recording.Push_at.
  assert (H : forall a : list (list X * X),
             fold_left (fun vars e => vars ++ [(fst e, id (snd e))]) l a = a ++ l).
  { induction l as [|[p x] l IH]; intros a; cbn [fold_left]; [now rewrite app_nil_r|].
    rewrite IH, <- app_assoc. reflexivity. }
  apply (H []).
Qed.

Lemma Moments_Filter_witness :
  dip__Moments.Filter (dfloat := binary64) b64_of_Z (fun _ => []) Recording.Push_at
    Recording.plus_eq 2 (row_line 3%N [7; 8; 9]%Z (Some [true; false; true]) 0) [[]]
  = Some [[(map b64_of_Z [0; 3]%Z, b64_of_Z 7); (map b64_of_Z [2; 3]%Z, b64_of_Z 9)]].
Proof.
  refine (Moments_Filter_pushes_the_selected_samples_with_their_coordinates
            (dfloat := binary64) b64_of_Z (fun _ => []) Recording.Push_at
            Recording.plus_eq 2
            (row_line 3%N [7; 8; 9]%Z (Some [true; false; true]) 0) [[]] _ _).
  - simpl. lia.
  - unfold mask_fits. simpl. lia.
Defined.

Lemma Moments_returns_the_accumulator_witness :
  Moments (dfloat := binary64) id (fun _ => []) Recording.Push_at Recording.plus_eq
    (image DT_DFLOAT 2 [[1; 2]; [3; 4]]%Z) (image DT_BIN 2 [[1; 0]; [1; 1]]%Z) 0
  = (Returns [(map b64_of_Z [0; 0]%Z, b64_of_Z 1);
              (map b64_of_Z [0; 1]%Z, b64_of_Z 3);
              (map b64_of_Z [1; 1]%Z, b64_of_Z 4)], 0 + 2).
Proof.
  refine (Moments_returns_the_accumulator_of_the_selected_samples
            (Image := RowImage) (TPI := binary64) (dfloat := binary64)
            id (fun _ => []) Recording.Push_at Recording.plus_eq
            (image DT_DFLOAT 2 [[1; 2]; [3; 4]]%Z) (image DT_BIN 2 [[1; 0]; [1; 1]]%Z)
            _ 1 _ 0 eq_refl eq_refl eq_refl eq_refl _ _ _).
  - intros l1 l2. cbv zeta. now rewrite !Recording_accumulate_moments.
  - split; [lia|repeat constructor].
  - repeat constructor.
  - repeat constructor.
Defined.

(** ** Count: the schedule *)

Lemma N_sum_Permutation (l l' : list N) : l ≡ₚ l' -> N_sum l = N_sum l'.
Proof.
  unfold N_sum. induction 1; cbn [foldr]; lia.
Qed.

Lemma set_samples_line_samples (params params' : ScanLineFilterParameters bin) :
  line_samples params = line_samples params' -> set_samples params = set_samples params'.
Proof.
  unfold line_samples, set_samples. intros [= -> ->]. reflexivity.
Qed.

Lemma mask_fits_line_samples {T} (params params' : ScanLineFilterParameters T) :
  line_samples params = line_samples params' -> mask_fits params -> mask_fits params'.
Proof.
  unfold line_samples, mask_fits. intros [= -> ->]. auto.
Qed.

(** X21: the result of [Count] does not depend on the schedule: two scans
    whose lines hold the same samples and mask samples, in any order, with
    any numbers of threads and any routing of the lines to the threads,
    return the same count. *)
Theorem Count_does_not_depend_on_the_schedule
    (threads threads' : nat) (lines lines' : list (ScanLineFilterParameters bin))
    (n : nat) :
  plan_ok threads lines ->
  plan_ok threads' lines' ->
  Forall mask_fits lines ->
  map line_samples lines ≡ₚ map line_samples lines' ->
  exists r : N,
    Count_lines threads lines n = (Returns r, n + length lines)
    /\ Count_lines threads' lines' n = (Returns r, n + length lines').
Proof.
  intros Hplan Hplan' Hfit Hperm.
  set (count := fun s : list bin * option (list bin) =>
                  set_samples {| inBuffer := fst s; maskBuffer := snd s;
                                 dimension := 0; position := []; thread := 0 |}).
  assert (Hcount : forall params, set_samples params = count (line_samples params)).
  { intros params. now apply set_samples_line_samples. }
  set (fits := fun s : list bin * option (list bin) =>
                 mask_fits {| inBuffer := fst s; maskBuffer := snd s;
                              dimension := 0; position := []; thread := 0 |}).
  assert (Hfits : forall params : ScanLineFilterParameters bin,
             mask_fits params <-> fits (line_samples params)).
  { intros params. split; apply mask_fits_line_samples; reflexivity. }
  assert (Hfit' : Forall mask_fits lines').
  { assert (H : Forall fits (map line_samples lines')).
    { rewrite <- Hperm. apply Forall_map. eapply Forall_impl; [exact Hfit|].
      intros params. apply Hfits. }
    apply Forall_forall. intros params Hp. apply Hfits.
    apply (proj1 (Forall_forall _ _) H).
    now apply (list_elem_of_fmap_2 line_samples). }
  destruct (Count_lines_spec threads lines n Hplan Hfit) as (_ & _ & _ & _ & _ & H).
  destruct (Count_lines_spec threads' lines' n Hplan' Hfit') as (_ & _ & _ & _ & _ & H').
  eexists. split; [exact H|]. rewrite H'. do 3 f_equal.
  rewrite (map_ext _ _ Hcount lines), (map_ext _ _ Hcount lines').
  rewrite <- !(map_map line_samples count).
  apply N_sum_Permutation. apply Permutation_map. now symmetry.
Qed.

Lemma Count_does_not_depend_on_the_schedule_witness :
  exists r : N,
    Count_lines 1 [row_line 0%N [true; false; true] None 0;
                   row_line 1%N [true; true; false] (Some [false; true; true]) 0] 0
      = (Returns r, 0 + 2)
    /\ Count_lines 3 [row_line 1%N [true; true; false] (Some [false; true; true]) 2;
                      row_line 0%N [true; false; true] None 1] 0
      = (Returns r, 0 + 2).
Proof.
  refine (Count_does_not_depend_on_the_schedule 1 3
            [row_line 0%N [true; false; true] None 0;
             row_line 1%N [true; true; false] (Some [false; true; true]) 0]
            [row_line 1%N [true; true; false] (Some [false; true; true]) 2;
             row_line 0%N [true; false; true] None 1] 0 _ _ _ _).
  - split; [lia|repeat constructor].
  - split; [lia|repeat constructor].
  - repeat constructor.
  - apply perm_swap.
Defined.

(** ** Bounds that the filters do not check *)

Lemma count_masked_short (in_ : list bin) :
  forall (mask : list bin) (count : N),
    length mask < length in_ -> dip__Count.count_masked in_ mask count = None.
Proof.
  induction in_ as [|x in_ IH]; intros [|m mask] count Hlen; cbn [length] in Hlen;
    try lia; [reflexivity|].
  cbn [dip__Count.count_masked]. apply IH. lia.
Qed.

Lemma for_masked_short {T A} (body : A -> T -> A) (in_ : list T) :
  forall (mask : list bin) (vars : A),
    length mask < length in_ -> for_masked body in_ mask vars = None.
Proof.
  induction in_ as [|x in_ IH]; intros [|m mask] vars Hlen; cbn [length] in Hlen;
    try lia; [reflexivity|].
  cbn [for_masked]. apply IH. lia.
Qed.

Lemma scan_masked_short {TPI : Type} (strict weak : TPI -> TPI -> bool) (first : bool)
    (params : ScanLineFilterParameters TPI) (in_ : list TPI) :
  forall (mask : list bin) (ii : N) (value : TPI) (coord : UnsignedArray),
    length mask < length in_ ->
    dip__Pixel.scan_masked strict weak first params ii in_ mask value coord = None.
Proof.
  induction in_ as [|x in_ IH]; intros [|m mask] ii value coord Hlen;
    cbn [length] in Hlen; try lia; [reflexivity|].
  cbn [dip__Pixel.scan_masked].
  destruct (m && dip__Pixel.beats strict weak first x value); [|apply IH; lia].
  destruct (dip__Pixel.coord_at params ii); [apply IH; lia|reflexivity].
Qed.

Lemma Moments_loop_masked_short {TPI dfloat MomentAccumulator : Type}
    `{!FloatArith dfloat} (static_cast : TPI -> dfloat)
    (Push : MomentAccumulator -> FloatArray dfloat -> dfloat -> MomentAccumulator)
    (d : nat) (in_ : list TPI) :
  forall (mask : list bin) (pos : FloatArray dfloat) (vars : MomentAccumulator),
    length mask < length in_ ->
    dip__Moments.loop_masked static_cast Push d in_ mask pos vars = None.
Proof.
  induction in_ as [|x in_ IH]; intros [|m mask] pos vars Hlen;
    cbn [length] in Hlen; try lia; [reflexivity|].
  cbn [dip__Moments.loop_masked].
  destruct (dip__Moments.next_pos d pos); [|reflexivity].
  cbn [mbind option_bind]. apply IH. lia.
Qed.

Lemma merge_into_slot_out_of_range {A} (plus_eq : A -> A -> A) (accArray_ : list A)
    (thread : nat) (vars : A) :
  length accArray_ <= thread -> merge_into_slot plus_eq accArray_ thread vars = None.
Proof.
  intros Hlen. unfold merge_into_slot. now rewrite lookup_ge_None_2.
Qed.

Section Bounds.
Context (TPI : RealType) {T dfloat A C MA : Type} `{!FloatArith dfloat}.
Context (static_cast : T -> dfloat).
Context (a_new : A) (a_Push : A -> dfloat -> A) (a_Push2 : A -> dfloat -> dfloat -> A).
Context (a_plus_eq : A -> A -> A).
Context (c_new : C) (c_Push : C -> dfloat -> dfloat -> C) (c_plus_eq : C -> C -> C).
Context (m_new : nat -> MA) (m_Push : MA -> FloatArray dfloat -> dfloat -> MA).
Context (m_plus_eq : MA -> MA -> MA).

(** X22: none of the filters checks a bound. A call of [Filter] for a
    thread number that [SetNumberOfThreads] did not make a slot for indexes
    the vector of slots outside its size, and so does [GetResult] after
    [SetNumberOfThreads( 0 )]; a call of [Filter] with a mask buffer that has
    fewer samples than the line reads outside the mask buffer. Each of these
    is undefined behaviour, for the filters of [Count], [MaximumPixel],
    [MinimumPixel], [MaximumAndMinimum], [SampleStatistics], [Covariance]
    and [Moments]: the scan has to hand them well-formed lines. *)
Theorem the_filters_check_no_bounds (threads nD_ : nat) (first : bool) :
  (forall params : ScanLineFilterParameters bin,
      threads <= thread params \/ ~ mask_fits params ->
      dip__Count.Filter params (dip__Count.SetNumberOfThreads threads []) = None)
  /\ (forall params : ScanLineFilterParameters TPI,
      threads <= thread params \/ ~ mask_fits params ->
      dip__MaxPixel.Filter TPI params
        (dip__MaxPixel.SetNumberOfThreads TPI threads (dip__Pixel.new first)) = None
      /\ dip__MinPixel.Filter TPI params
           (dip__MinPixel.SetNumberOfThreads TPI threads (dip__Pixel.new first)) = None)
  /\ (forall params : ScanLineFilterParameters T,
      threads <= thread params \/ ~ mask_fits params ->
      dip__MaximumAndMinimum.Filter static_cast a_new a_Push a_Push2 a_plus_eq params
        (dip__MaximumAndMinimum.SetNumberOfThreads a_new threads []) = None
      /\ dip__SampleStatistics.Filter static_cast a_new a_Push a_plus_eq params
           (dip__SampleStatistics.SetNumberOfThreads a_new threads []) = None
      /\ dip__Moments.Filter static_cast m_new m_Push m_plus_eq nD_ params
           (dip__Moments.SetNumberOfThreads m_new nD_ threads []) = None)
  /\ (forall params : ScanLineFilterParameters (T * T),
      threads <= thread params \/ ~ mask_fits params ->
      dip__Covariance.Filter static_cast c_new c_Push c_plus_eq params
        (dip__Covariance.SetNumberOfThreads c_new threads []) = None)
  /\ dip__Count.GetResult (dip__Count.SetNumberOfThreads 0 []) = None
  /\ dip__MaxPixel.GetResult TPI
       (dip__MaxPixel.SetNumberOfThreads TPI 0 (dip__Pixel.new first)) = None
  /\ dip__MinPixel.GetResult TPI
       (dip__MinPixel.SetNumberOfThreads TPI 0 (dip__Pixel.new first)) = None
  /\ dip__MaximumAndMinimum.GetResult a_plus_eq
       (dip__MaximumAndMinimum.SetNumberOfThreads a_new 0 []) = None
  /\ dip__SampleStatistics.GetResult a_plus_eq
       (dip__SampleStatistics.SetNumberOfThreads a_new 0 []) = None
  /\ dip__Covariance.GetResult c_plus_eq
       (dip__Covariance.SetNumberOfThreads c_new 0 []) = None
  /\ dip__Moments.GetResult m_plus_eq
       (dip__Moments.SetNumberOfThreads m_new nD_ 0 []) = None.
Proof.
  assert (Hshort : forall (X : Type) (params : ScanLineFilterParameters X),
             ~ mask_fits params ->
             exists mask, maskBuffer params = Some mask
                          /\ length mask < length (inBuffer params)).
  { intros X params Hfit. unfold mask_fits in Hfit.
    destruct (maskBuffer params) as [mask|]; [|tauto].
    exists mask. split; [reflexivity|lia]. }
  repeat split; try reflexivity.
  - intros params [Ht|Hfit].
    + unfold dip__Count.Filter, dip__Count.SetNumberOfThreads.
      rewrite (lookup_ge_None_2 (resize threads 0%N [])) by now rewrite length_resize.
      now destruct (match maskBuffer params with Some _ => _ | None => _ end).
    + destruct (Hshort _ params Hfit) as (mask & Hm & Hlen).
      unfold dip__Count.Filter. rewrite Hm.
      now rewrite count_masked_short.
  - destruct H as [Ht|Hfit].
    + unfold dip__MaxPixel.Filter, dip__MaxPixel.SetNumberOfThreads, dip__Pixel.Filter,
        dip__Pixel.SetNumberOfThreads, dip__Pixel.new. cbn [value_ coord_ first_].
      rewrite (lookup_ge_None_2 (resize threads (lowest TPI) []))
        by now rewrite length_resize.
      destruct (match maskBuffer params with Some _ => _ | None => _ end)
        as [[value coord]|]; reflexivity.
    + destruct (Hshort _ params Hfit) as (mask & Hm & Hlen).
      unfold dip__MaxPixel.Filter, dip__Pixel.Filter. rewrite Hm.
      now rewrite scan_masked_short.
  - destruct H as [Ht|Hfit].
    + unfold dip__MinPixel.Filter, dip__MinPixel.SetNumberOfThreads, dip__Pixel.Filter,
        dip__Pixel.SetNumberOfThreads, dip__Pixel.new. cbn [value_ coord_ first_].
      rewrite (lookup_ge_None_2 (resize threads (highest TPI) []))
        by now rewrite length_resize.
      destruct (match maskBuffer params with Some _ => _ | None => _ end)
        as [[value coord]|]; reflexivity.
    + destruct (Hshort _ params Hfit) as (mask & Hm & Hlen).
      unfold dip__MinPixel.Filter, dip__Pixel.Filter. rewrite Hm.
      now rewrite scan_masked_short.
  - destruct H as [Ht|Hfit].
    + unfold dip__MaximumAndMinimum.Filter, dip__MaximumAndMinimum.SetNumberOfThreads.
      destruct (match maskBuffer params with Some _ => _ | None => _ end);
        [|reflexivity].
      apply merge_into_slot_out_of_range. now rewrite length_resize.
    + destruct (Hshort _ params Hfit) as (mask & Hm & Hlen).
      unfold dip__MaximumAndMinimum.Filter. rewrite Hm.
      now rewrite for_masked_short.
  - destruct H as [Ht|Hfit].
    + unfold dip__SampleStatistics.Filter, dip__SampleStatistics.SetNumberOfThreads.
      destruct (match maskBuffer params with Some _ => _ | None => _ end);
        [|reflexivity].
      apply merge_into_slot_out_of_range. now rewrite length_resize.
    + destruct (Hshort _ params Hfit) as (mask & Hm & Hlen).
      unfold dip__SampleStatistics.Filter. rewrite Hm.
      now rewrite for_masked_short.
  - destruct H as [Ht|Hfit].
    + unfold dip__Moments.Filter, dip__Moments.SetNumberOfThreads.
      destruct (match maskBuffer params with Some _ => _ | None => _ end);
        [|reflexivity].
      apply merge_into_slot_out_of_range. now rewrite length_resize.
    + destruct (Hshort _ params Hfit) as (mask & Hm & Hlen).
      unfold dip__Moments.Filter. rewrite Hm.
      now rewrite Moments_loop_masked_short.
  - intros params [Ht|Hfit].
    + unfold dip__Covariance.Filter, dip__Covariance.SetNumberOfThreads.
      destruct (match maskBuffer params with Some _ => _ | None => _ end);
        [|reflexivity].
      apply merge_into_slot_out_of_range. now rewrite length_resize.
    + destruct (Hshort _ params Hfit) as (mask & Hm & Hlen).
      unfold dip__Covariance.Filter. rewrite Hm.
      now rewrite for_masked_short.
Qed.

End Bounds.

Lemma the_filters_check_no_bounds_witness :
  dip__Count.Filter (row_line 0%N [true; true] None 2)
    (dip__Count.SetNumberOfThreads 2 []) = None
  /\ dip__MaxPixel.Filter uint8 (row_line 0%N [3; 5]%Z (Some [true]) 0)
       (dip__MaxPixel.SetNumberOfThreads uint8 2 (dip__Pixel.new true)) = None.
Proof.
  pose proof (the_filters_check_no_bounds uint8 (T := Z) (dfloat := binary64) b64_of_Z
                (Z_minmax_new 0 0) (fun a _ => a) (fun a _ _ => a) (fun a _ => a)
                tt (fun a _ _ => a) (fun a _ => a)
                (fun _ => tt) (fun a _ _ => a) (fun a _ => a) 2 1 true)
    as (HC & HP & _).
  split.
  - apply HC. left. simpl. lia.
  - refine (proj1 (HP (row_line 0%N [3; 5]%Z (Some [true]) 0) _)).
    right. unfold mask_fits. simpl. lia.
Defined.

(** ** MaximumPixel, MinimumPixel: the functions *)

Lemma MaxPixel_scan_occurrence (lo hi : Z) (first : bool) (threads : nat)
    (lines : list (ScanLineFilterParameters Z)) (n : nat) :
  (lo <= hi)%Z ->
  plan_ok threads lines ->
  Forall dimension_exists lines ->
  Forall mask_fits lines ->
  Forall (fun params => Forall (integer_range lo hi) (inBuffer params)) lines ->
  Exists (fun e => (lo < fst e)%Z) (encountered threads lines) ->
  exists c M pre post,
    (scanLineFilter <~ Scan (Returns (threads, lines))
                         (dip__MaxPixel.filter (integer_type lo hi))
                         (dip__Pixel.new first) ;;
     defined (dip__MaxPixel.GetResult (integer_type lo hi) scanLineFilter))%dip n
    = (Returns c, n + length lines)
    /\ encountered threads lines = pre ++ (M, c) :: post
    /\ (exists params ii,
          params ∈ lines /\ selected_at params ii M /\ position_of params ii c)
    /\ Forall (fun e => (fst e <= M)%Z) (pre ++ post)
    /\ if first then Forall (fun e => (fst e < M)%Z) pre
       else Forall (fun e => (fst e < M)%Z) post.
Proof.
  intros Hlh Hplan Hdim Hfit Hrange Hex.
  destruct (Pixel_scan_finds_the_earliest_or_the_latest_occurrence
              lo Z.gtb Z.geb (integer_range lo hi) (integer_max_order lo hi Hlh)
              first threads lines n Hplan Hdim Hfit Hrange)
    as (this & c & Hscan & Hres & Hocc).
  destruct Hocc as (M & pre & post & Hl & Hpre & Hpost).
  { eapply Exists_impl; [exact Hex|]. intros e He. cbn. now apply Z.gtb_lt. }
  exists c, M, pre, post. split.
  { erewrite bind_returns by exact Hscan.
    change (dip__MaxPixel.GetResult (integer_type lo hi) this)
      with (dip__Pixel.GetResult Z.gtb Z.geb this).
    now rewrite Hres. }
  split; [exact Hl|].
  split.
  { apply (encountered_origin threads lines (M, c) Hdim).
    rewrite Hl. apply elem_of_app. right. now left. }
  unfold dip__Pixel.beats in Hpre, Hpost. destruct first.
  - split; [apply Forall_app; split|].
    + eapply Forall_impl; [exact Hpre|]. intros e. cbn. rewrite Z.gtb_ltb, Z.ltb_lt. lia.
    + eapply Forall_impl; [exact Hpost|]. intros e. cbn. rewrite Z.gtb_ltb, Z.ltb_ge. lia.
    + eapply Forall_impl; [exact Hpre|]. intros e. cbn. rewrite Z.gtb_ltb, Z.ltb_lt. lia.
  - split; [apply Forall_app; split|].
    + eapply Forall_impl; [exact Hpre|]. intros e. cbn. rewrite Z.geb_leb, Z.leb_le. lia.
    + eapply Forall_impl; [exact Hpost|]. intros e. cbn. rewrite Z.geb_leb, Z.leb_gt. lia.
    + eapply Forall_impl; [exact Hpost|]. intros e. cbn. rewrite Z.geb_leb, Z.leb_gt. lia.
Qed.

Lemma MinPixel_scan_occurrence (lo hi : Z) (first : bool) (threads : nat)
    (lines : list (ScanLineFilterParameters Z)) (n : nat) :
  (lo <= hi)%Z ->
  plan_ok threads lines ->
  Forall dimension_exists lines ->
  Forall mask_fits lines ->
  Forall (fun params => Forall (integer_range lo hi) (inBuffer params)) lines ->
  Exists (fun e => (fst e < hi)%Z) (encountered threads lines) ->
  exists c M pre post,
    (scanLineFilter <~ Scan (Returns (threads, lines))
                         (dip__MinPixel.filter (integer_type lo hi))
                         (dip__Pixel.new first) ;;
     defined (dip__MinPixel.GetResult (integer_type lo hi) scanLineFilter))%dip n
    = (Returns c, n + length lines)
    /\ encountered threads lines = pre ++ (M, c) :: post
    /\ (exists params ii,
          params ∈ lines /\ selected_at params ii M /\ position_of params ii c)
    /\ Forall (fun e => (M <= fst e)%Z) (pre ++ post)
    /\ if first then Forall (fun e => (M < fst e)%Z) pre
       else Forall (fun e => (M < fst e)%Z) post.
Proof.
  intros Hlh Hplan Hdim Hfit Hrange Hex.
  destruct (Pixel_scan_finds_the_earliest_or_the_latest_occurrence
              hi Z.ltb Z.leb (integer_range lo hi) (integer_min_order lo hi Hlh)
              first threads lines n Hplan Hdim Hfit Hrange)
    as (this & c & Hscan & Hres & Hocc).
  destruct Hocc as (M & pre & post & Hl & Hpre & Hpost).
  { eapply Exists_impl; [exact Hex|]. intros e He. cbn. now apply Z.ltb_lt. }
  exists c, M, pre, post. split.
  { erewrite bind_returns by exact Hscan.
    change (dip__MinPixel.GetResult (integer_type lo hi) this)
      with (dip__Pixel.GetResult Z.ltb Z.leb this).
    now rewrite Hres. }
  split; [exact Hl|].
  split.
  { apply (encountered_origin threads lines (M, c) Hdim).
    rewrite Hl. apply elem_of_app. right. now left. }
  unfold dip__Pixel.beats in Hpre, Hpost. destruct first.
  - split; [apply Forall_app; split|].
    + eapply Forall_impl; [exact Hpre|]. intros e. cbn. rewrite Z.ltb_lt. lia.
    + eapply Forall_impl; [exact Hpost|]. intros e. cbn. rewrite Z.ltb_ge. lia.
    + eapply Forall_impl; [exact Hpre|]. intros e. cbn. rewrite Z.ltb_lt. lia.
  - split; [apply Forall_app; split|].
    + eapply Forall_impl; [exact Hpre|]. intros e. cbn. rewrite Z.leb_le. lia.
    + eapply Forall_impl; [exact Hpost|]. intros e. cbn. rewrite Z.leb_gt. lia.
    + eapply Forall_impl; [exact Hpost|]. intros e. cbn. rewrite Z.leb_gt. lia.
Qed.

(** X23: [MaximumPixel] on a forged scalar image of an integer type, each
    line of which runs along a dimension of the image and some selected
    sample of which is above the lowest value of the type, returns the
    position [c] of a selected sample that holds the maximum [M] of the
    selected samples: the sample of index [ii] of a line [params] is [M], the
    mask selects it, and [c] is the position of the line with [ii] added
    along its dimension. With ["first"] it is the occurrence before which,
    thread after thread and line after line, every sample is below [M]; with
    any other flag the occurrence after which every sample is below [M].
    Each line is handed to the filter once. [MinimumPixel] does the same for
    the minimum, when some selected sample is below the highest value. *)
Theorem MaximumPixel_returns_the_position_of_an_extreme_sample
    {Image : Type} `{!ImageOps Image} (lo hi : Z)
    `{!ScanDriver Image (integer_type lo hi)}
    (in_ mask : Image) (positionFlag : string) (threads : nat)
    (lines : list (ScanLineFilterParameters (integer_type lo hi))) (n : nat) :
  (lo <= hi)%Z ->
  IsForged in_ = true ->
  IsScalar in_ = true ->
  OVL_REAL (SuggestReal (DataTypeOf in_)) = true ->
  scan_lines in_ mask (SuggestReal (DataTypeOf in_)) [NeedCoordinates]
    = Returns (threads, lines) ->
  plan_ok threads lines ->
  Forall dimension_exists lines ->
  Forall mask_fits lines ->
  Forall (fun params => Forall (integer_range lo hi) (inBuffer params)) lines ->
  (Exists (fun e => (lo < fst e)%Z) (encountered threads lines) ->
   exists c M pre post,
     MaximumPixel (integer_type lo hi) in_ mask positionFlag n
       = (Returns c, n + length lines)
     /\ encountered threads lines = pre ++ (M, c) :: post
     /\ (exists params ii,
           params ∈ lines /\ selected_at params ii M /\ position_of params ii c)
     /\ Forall (fun e => (fst e <= M)%Z) (pre ++ post)
     /\ if String.eqb positionFlag "first"
        then Forall (fun e => (fst e < M)%Z) pre
        else Forall (fun e => (fst e < M)%Z) post)
  /\ (Exists (fun e => (fst e < hi)%Z) (encountered threads lines) ->
   exists c M pre post,
     MinimumPixel (integer_type lo hi) in_ mask positionFlag n
       = (Returns c, n + length lines)
     /\ encountered threads lines = pre ++ (M, c) :: post
     /\ (exists params ii,
           params ∈ lines /\ selected_at params ii M /\ position_of params ii c)
     /\ Forall (fun e => (M <= fst e)%Z) (pre ++ post)
     /\ if String.eqb positionFlag "first"
        then Forall (fun e => (M < fst e)%Z) pre
        else Forall (fun e => (M < fst e)%Z) post).
Proof.
  intros Hlh Hf Hs Hovl Hplan Hok Hdim Hfit Hrange. split; intros Hex.
  - destruct (MaxPixel_scan_occurrence lo hi (String.eqb positionFlag "first")
                threads lines n Hlh Hok Hdim Hfit Hrange Hex)
      as (c & M & pre & post & Hrun & Hrest).
    exists c, M, pre, post. split; [|exact Hrest].
    unfold MaximumPixel, ScanSingleInput. rewrite Hf, Hs, Hovl, Hplan.
    cbn [negb]. rewrite !throw_if_false. exact Hrun.
  - destruct (MinPixel_scan_occurrence lo hi (String.eqb positionFlag "first")
                threads lines n Hlh Hok Hdim Hfit Hrange Hex)
      as (c & M & pre & post & Hrun & Hrest).
    exists c, M, pre, post. split; [|exact Hrest].
    unfold MinimumPixel, ScanSingleInput. rewrite Hf, Hs, Hovl, Hplan.
    cbn [negb]. rewrite !throw_if_false. exact Hrun.
Qed.

(** The maximum 9 of the selected samples is at the start of the second row:
    the 9 of the first row is masked out. *)
Lemma MaximumPixel_returns_the_position_witness :
  MaximumPixel uint8 (image DT_UINT8 2 [[3; 9]; [9; 2]]%Z)
    (image DT_BIN 2 [[1; 0]; [1; 1]]%Z) "first" 0
  = (Returns [0%N; 1%N], 2)
  /\ selected_at (row_line 1%N [9; 2]%Z (Some [true; true]) 0) 0 9%Z
  /\ position_of (row_line 1%N [9; 2]%Z (Some [true; true]) 0) 0 [0%N; 1%N].
Proof.
  destruct (MaximumPixel_returns_the_position_of_an_extreme_sample
              (Image := RowImage) 0 255
              (image DT_UINT8 2 [[3; 9]; [9; 2]]%Z) (image DT_BIN 2 [[1; 0]; [1; 1]]%Z)
              "first" 1
              [row_line 0%N [3; 9]%Z (Some [true; false]) 0;
               row_line 1%N [9; 2]%Z (Some [true; true]) 0] 0) as [Hmax _];
    [lia|reflexivity|reflexivity|reflexivity|reflexivity
    |split; [lia|repeat constructor]
    |unfold dimension_exists; repeat constructor
    |unfold mask_fits; repeat constructor
    |unfold integer_range; repeat constructor; lia|].
  destruct Hmax as (c & M & pre & post & Hrun & Hl & _ & Hle & Hlt);
    [apply Exists_cons_hd; simpl; lia|].
  assert (Hc : c = [0%N; 1%N]); [|subst c].
  { change (encountered 1 [row_line 0%N [3; 9]%Z (Some [true; false]) 0;
                           row_line 1%N [9; 2]%Z (Some [true; true]) 0])
      with [(3%Z, [0%N; 0%N]); (9%Z, [0%N; 1%N]); (2%Z, [1%N; 1%N])] in Hl.
    cbn [String.eqb Ascii.eqb Bool.eqb] in Hlt.
    destruct pre as [|e0 [|e1 [|e2 pre]]]; cbn [app] in Hl, Hle;
      try (destruct pre; discriminate Hl);
      injection Hl as; subst;
      repeat match goal with
             | H : Forall _ (_ :: _) |- _ => apply Forall_cons in H as [? H]
             end;
      cbn [fst] in *; try lia; reflexivity. }
  split; [exact Hrun|]. split; [split; reflexivity|].
  exists 0%N. split; reflexivity.
Defined.

(** ** SampleStatistics: the function *)

Section SampleStatisticsResult.
Context {Image : Type} `{!ImageOps Image}.
Context {TPI dfloat StatisticsAccumulator : Type} `{!ScanDriver Image TPI}.
Context (static_cast : TPI -> dfloat).
Context (new : StatisticsAccumulator).
Context (Push : StatisticsAccumulator -> dfloat -> StatisticsAccumulator).
Context (plus_eq : StatisticsAccumulator -> StatisticsAccumulator -> StatisticsAccumulator).

Let acc := accumulate static_cast new Push.

(** Modelled from the spec: the accumulator keeps the invariant of section
    3 (accumulators.h is not part of these sources). *)
Hypothesis merge_law : forall l1 l2, plus_eq (acc l1) (acc l2) = acc (l1 ++ l2).

(** X24: [SampleStatistics] on a forged image of a real type hands each
    line to the filter once and returns the accumulator that has been
    pushed every sample that the mask selects, once, whatever the number of
    threads and the distribution of the lines over them. *)
Theorem SampleStatistics_returns_the_accumulator_of_the_selected_samples
    (in_ mask : Image) (threads : nat) (lines : list (ScanLineFilterParameters TPI))
    (n : nat) :
  IsForged in_ = true ->
  OVL_REAL (DataTypeOf in_) = true ->
  scan_lines in_ mask (DataTypeOf in_) [TensorAsSpatialDim] = Returns (threads, lines) ->
  plan_ok threads lines ->
  Forall mask_fits lines ->
  SampleStatistics static_cast new Push plus_eq in_ mask n
  = (Returns (acc (scanned_samples threads lines)), n + length lines).
Proof using merge_law.
  intros Hf Hovl Hplan Hok Hfit.
  unfold SampleStatistics, ScanSingleInput. rewrite Hf, Hovl, Hplan.
  cbn [negb]. rewrite !throw_if_false.
  exact (accumulating_scan_result static_cast new Push plus_eq merge_law
           threads lines n Hok Hfit).
Qed.

End SampleStatisticsResult.

(** A scalar image of two rows, with a mask of the same sizes. *)
Lemma SampleStatistics_returns_the_accumulator_witness :
  SampleStatistics id Recording.new Recording.Push Recording.plus_eq
    (image DT_SINT16 2 [[3; -5; 4]; [9; 2; 7]]%Z)
    (image DT_BIN 2 [[1; 1; 0]; [0; 1; 1]]%Z) 0
  = (Returns [3; -5; 2; 7]%Z, 0 + 2).
Proof.
  refine (SampleStatistics_returns_the_accumulator_of_the_selected_samples
            (Image := RowImage) (TPI := Z) id Recording.new Recording.Push
            Recording.plus_eq Recording_merge_law
            (image DT_SINT16 2 [[3; -5; 4]; [9; 2; 7]]%Z)
            (image DT_BIN 2 [[1; 1; 0]; [0; 1; 1]]%Z) 1 _ 0
            eq_refl eq_refl eq_refl _ _).
  - split; [lia|repeat constructor].
  - repeat constructor.
Defined.

(** ** The slot of a thread *)

Lemma only_slot_changed_refl {X} (thread : nat) (v : list X) :
  only_slot_changed thread v v.
Proof. split; reflexivity. Qed.

Lemma only_slot_changed_insert {X} (thread : nat) (v : list X) (x : X) :
  only_slot_changed thread v (<[thread := x]> v).
Proof.
  split; [apply length_insert|]. intros t Ht.
  apply list_lookup_insert_ne. congruence.
Qed.

Lemma merge_into_slot_only {X} (plus_eq : X -> X -> X) (accArray_ accArray' : list X)
    (thread : nat) (vars : X) :
  merge_into_slot plus_eq accArray_ thread vars = Some accArray' ->
  only_slot_changed thread accArray_ accArray'.
Proof.
  unfold merge_into_slot. destruct (accArray_ !! thread); [|discriminate].
  intros [= <-]. apply only_slot_changed_insert.
Qed.

Lemma Pixel_Filter_only {TPI : Type} (initial : TPI) (strict weak : TPI -> TPI -> bool)
    (params : ScanLineFilterParameters TPI) (this this' : PixelState TPI) :
  dip__Pixel.Filter initial strict weak params this = Some this' ->
  first_ this' = first_ this
  /\ only_slot_changed (thread params) (value_ this) (value_ this')
  /\ only_slot_changed (thread params) (coord_ this) (coord_ this').
Proof.
  unfold dip__Pixel.Filter.
  destruct (match maskBuffer params with Some _ => _ | None => _ end)
    as [[value coord]|]; [|discriminate].
  cbn [mbind option_bind].
  destruct (value_ this !! thread params) as [v|]; [|discriminate].
  cbn [mbind option_bind].
  destruct (dip__Pixel.beats strict weak (first_ this) value v).
  - destruct (coord_ this !! thread params); [|discriminate].
    intros [= <-]. cbn [first_ value_ coord_].
    split; [reflexivity|]. split; apply only_slot_changed_insert.
  - intros [= <-]. split; [reflexivity|]. split; apply only_slot_changed_refl.
Qed.

Section Slots.
Context (TPI : RealType) {T dfloat A C MA : Type} `{!FloatArith dfloat}.
Context (static_cast : T -> dfloat).
Context (a_new : A) (a_Push : A -> dfloat -> A) (a_Push2 : A -> dfloat -> dfloat -> A).
Context (a_plus_eq : A -> A -> A).
Context (c_new : C) (c_Push : C -> dfloat -> dfloat -> C) (c_plus_eq : C -> C -> C).
Context (m_new : nat -> MA) (m_Push : MA -> FloatArray dfloat -> dfloat -> MA).
Context (m_plus_eq : MA -> MA -> MA).

(** X25: a call of [Filter] that returns changes, of the per-thread
    vectors of its filter, at most the slot of the thread it is called for:
    the vectors keep their size and every other slot keeps its value, and
    [first_] is not changed. This holds for every filter of the file, and it
    is what lets the threads of a scan call [Filter] without a lock. *)
Theorem Filter_changes_only_the_slot_of_its_thread (nD_ : nat) :
  (forall (params : ScanLineFilterParameters bin) (counts_ counts' : list N),
      dip__Count.Filter params counts_ = Some counts' ->
      only_slot_changed (thread params) counts_ counts')
  /\ (forall (params : ScanLineFilterParameters TPI) (this this' : PixelState TPI),
      dip__MaxPixel.Filter TPI params this = Some this'
      \/ dip__MinPixel.Filter TPI params this = Some this' ->
      first_ this' = first_ this
      /\ only_slot_changed (thread params) (value_ this) (value_ this')
      /\ only_slot_changed (thread params) (coord_ this) (coord_ this'))
  /\ (forall (params : ScanLineFilterParameters T) (accArray_ accArray' : list A),
      dip__MaximumAndMinimum.Filter static_cast a_new a_Push a_Push2 a_plus_eq
        params accArray_ = Some accArray'
      \/ dip__SampleStatistics.Filter static_cast a_new a_Push a_plus_eq
           params accArray_ = Some accArray' ->
      only_slot_changed (thread params) accArray_ accArray')
  /\ (forall (params : ScanLineFilterParameters (T * T)) (accArray_ accArray' : list C),
      dip__Covariance.Filter static_cast c_new c_Push c_plus_eq params accArray_
        = Some accArray' ->
      only_slot_changed (thread params) accArray_ accArray')
  /\ (forall (params : ScanLineFilterParameters T)
             (accArray_ accArray' : list (FloatArray dfloat)),
      dip__CenterOfMass.Filter static_cast nD_ params accArray_ = Some accArray' ->
      only_slot_changed (thread params) accArray_ accArray')
  /\ (forall (params : ScanLineFilterParameters T) (accArray_ accArray' : list MA),
      dip__Moments.Filter static_cast m_new m_Push m_plus_eq nD_ params accArray_
        = Some accArray' ->
      only_slot_changed (thread params) accArray_ accArray').
Proof.
  split; [|split; [|split; [|split; [|split]]]].
  - intros params counts_ counts'. unfold dip__Count.Filter.
    destruct (match maskBuffer params with Some _ => _ | None => _ end);
      [|discriminate].
    cbn [mbind option_bind]. destruct (counts_ !! thread params); [|discriminate].
    intros [= <-]. apply only_slot_changed_insert.
  - intros params this this' [H|H]; exact (Pixel_Filter_only _ _ _ _ _ _ H).
  - intros params accArray_ accArray' [H|H]; revert H.
    + unfold dip__MaximumAndMinimum.Filter.
      destruct (match maskBuffer params with Some _ => _ | None => _ end);
        [|discriminate].
      apply merge_into_slot_only.
    + unfold dip__SampleStatistics.Filter.
      destruct (match maskBuffer params with Some _ => _ | None => _ end);
        [|discriminate].
      apply merge_into_slot_only.
  - intros params accArray_ accArray'. unfold dip__Covariance.Filter.
    destruct (match maskBuffer params with Some _ => _ | None => _ end);
      [|discriminate].
    apply merge_into_slot_only.
  - intros params accArray_ accArray'. unfold dip__CenterOfMass.Filter.
    destruct (match maskBuffer params with Some _ => _ | None => _ end);
      [|discriminate].
    cbn [mbind option_bind]. destruct (accArray_ !! thread params); [|discriminate].
    cbn [mbind option_bind].
    destruct (FloatArray_plus_eq _ _); [|discriminate].
    intros [= <-]. apply only_slot_changed_insert.
  - intros params accArray_ accArray'. unfold dip__Moments.Filter.
    destruct (match maskBuffer params with Some _ => _ | None => _ end);
      [|discriminate].
    apply merge_into_slot_only.
Qed.

End Slots.

Lemma Filter_changes_only_the_slot_of_its_thread_witness :
  only_slot_changed 1 [4%N; 0%N; 7%N] [4%N; 2%N; 7%N]
  /\ only_slot_changed 0 [5%Z; 8%Z] [9%Z; 8%Z].
Proof.
  pose proof (Filter_changes_only_the_slot_of_its_thread uint8 (T := Z)
                (dfloat := binary64) b64_of_Z
                (Z_minmax_new 0 0) (fun a _ => a) (fun a _ _ => a) (fun a _ => a)
                tt (fun a _ _ => a) (fun a _ => a)
                (fun _ => tt) (fun a _ _ => a) (fun a _ => a) 1)
    as (HC & HP & _).
  split.
  - apply (HC (row_line 0%N [true; false; true] None 1) [4%N; 0%N; 7%N]).
    reflexivity.
  - refine (proj1 (proj2 (HP (row_line 0%N [3; 9]%Z None 0)
                            {| coord_ := [[1%N; 1%N]; []]; value_ := [5; 8]%Z;
                               first_ := true |}
                            {| coord_ := [[1%N; 0%N]; []]; value_ := [9; 8]%Z;
                               first_ := true |} _))).
    left. reflexivity.
Defined.
